(** * A shallow embedding of [fsWithoutPermissions.c]

    The C program keeps its whole file-system state in process-wide
    variables ([superblock], [inode_table], [root_directory], [journal],
    [journal_index]) and stores file contents through the host operating
    system.  Here every C function becomes a Rocq function on an explicit
    state record [FS]; the host is a finite map from paths to contents.

    Conventions.
    - C [int], [unsigned int] and [time_t] values are [Z].  The counters of
      the program move by one per call and stay far inside the 32-bit
      range, so no wrap-around is written for them; the one place where
      the width of [unsigned int] matters (the complement in
      [set_permissions] and [add_acl_entry]) spells it out.
    - A fixed C array is a [list] of the declared length, read with
      [!!] and written with [<[ i := x ]>].
    - A NUL-terminated [char] buffer is a [string]; a [char*] argument
      that the code tests against [NULL] is an [option string].
    - [time(NULL)] is the argument [now] of the functions that call it.
    - GTK dialogs and [printf] diagnostics have no effect on the modelled
      state and are left out. *)

From Stdlib Require Import ZArith Lia String Ascii.
From stdpp Require Import base option list strings gmap pretty.

Local Open Scope string_scope.
Local Open Scope list_scope.
Local Open Scope Z_scope.

(** ** Constants of the program *)

Definition BLOCK_SIZE : Z := 4096.
Definition NUM_BLOCKS : Z := 1024.
Definition INODE_TABLE_SIZE : Z := 128.
Definition MAX_FILENAME_LEN : Z := 255.
Definition MAX_FILES : Z := 128.
Definition DIRECT_BLOCKS : Z := 12.
Definition INDEX_BLOCKS : Z := 1.
Definition MAX_ACL_ENTRIES : Z := 10.

Definition PERMISSION_READ : Z := 4.
Definition PERMISSION_WRITE : Z := 2.
Definition PERMISSION_EXECUTE : Z := 1.

Definition JOURNAL_SIZE : Z := 1024.
Definition JOURNAL_FILENAME : string := "journal.log".

(** The folder the program starts in.  The source keeps it in a global
    that [change_directory] rewrites; that function is not modelled, so
    the folder stays the one given here.  Paths are the keys of the host
    map as the program spells them: two spellings of one host file are
    two keys. *)
Definition TEST_FOLDER_PATH : string := "C:/Users/CLIENT/Music/tests/".
Definition current_user_id : Z := 11.
Definition current_group_id : Z := 10.

(** [enum JournalOperation]; the field that holds it is an [int], and
    [string_to_operation] stores [-1] in it for an unknown tag. *)
Definition CREATE : Z := 0.
Definition DELETE : Z := 1.
Definition MODIFY : Z := 2.
Definition RENAME : Z := 3.
Definition READ : Z := 4.
Definition CHANGE_PERMISSIONS : Z := 5.

(** ** Data model *)

Record JournalEntry := mkJournalEntry {
  operation : Z;
  filename : string;
  new_filename : string;
  data : string;
  timestamp : Z
}.

Record Superblock := mkSuperblock {
  sb_size : Z;
  num_blocks : Z;
  free_blocks : Z;
  inode_table_size : Z;
  free_inode_count : Z;
  free_block_bitmap : list Z
}.

Record ACL_Entry := mkACL {
  user_id : Z;
  permissions : Z
}.

Record Inode := mkInode {
  is_directory : Z;
  i_size : Z;
  direct_blocks : list Z;
  index_block : Z;
  mode : Z;
  atime : Z;
  mtime : Z;
  ctime : Z;
  owner_id : Z;
  group_id : Z;
  acl : list ACL_Entry;
  acl_count : Z
}.

Record DirectoryEntry := mkDirEntry {
  name : string;
  inode_number : Z
}.

Record Directory := mkDirectory {
  entries : list DirectoryEntry;
  entry_count : Z
}.

(** The host operating system, as far as the program talks to it: the
    files that exist (path to content) and the paths on which the host
    refuses to open for writing, remove or rename. *)
Record Host := mkHost {
  files : gmap string string;
  denied : gset string
}.

Record FS := mkFS {
  superblock : Superblock;
  inode_table : list Inode;
  root_directory : Directory;
  journal : list JournalEntry;
  journal_index : Z;
  host : Host
}.

Global Instance ACL_Entry_eq_dec : EqDecision ACL_Entry.
Proof. solve_decision. Defined.
Global Instance Inode_eq_dec : EqDecision Inode.
Proof. solve_decision. Defined.
Global Instance DirectoryEntry_eq_dec : EqDecision DirectoryEntry.
Proof. solve_decision. Defined.
Global Instance Directory_eq_dec : EqDecision Directory.
Proof. solve_decision. Defined.
Global Instance JournalEntry_eq_dec : EqDecision JournalEntry.
Proof. solve_decision. Defined.
Global Instance Superblock_eq_dec : EqDecision Superblock.
Proof. solve_decision. Defined.

(** Field updates, one per assignment form used by the C code. *)

Definition with_superblock (sb : Superblock) (st : FS) : FS :=
  mkFS sb (inode_table st) (root_directory st) (journal st)
       (journal_index st) (host st).

Definition with_inode_table (t : list Inode) (st : FS) : FS :=
  mkFS (superblock st) t (root_directory st) (journal st)
       (journal_index st) (host st).

Definition with_root_directory (d : Directory) (st : FS) : FS :=
  mkFS (superblock st) (inode_table st) d (journal st)
       (journal_index st) (host st).

Definition with_journal (j : list JournalEntry) (idx : Z) (st : FS) : FS :=
  mkFS (superblock st) (inode_table st) (root_directory st) j idx (host st).

Definition with_host (h : Host) (st : FS) : FS :=
  mkFS (superblock st) (inode_table st) (root_directory st) (journal st)
       (journal_index st) h.

(** C reads [a[i]] for an [int i]; an index outside the array is
    undefined in C and yields the default here. *)
Definition nth_Z {A} (d : A) (l : list A) (i : Z) : A :=
  if i <? 0 then d else default d (l !! Z.to_nat i).

(** ** Block allocator *)

(** [superblock.free_block_bitmap[i] = v; superblock.free_blocks += d]. *)
Definition sb_mark (i : nat) (v d : Z) (sb : Superblock) : Superblock :=
  mkSuperblock (sb_size sb) (num_blocks sb) (free_blocks sb + d)
               (inode_table_size sb) (free_inode_count sb)
               (<[ i := v ]> (free_block_bitmap sb)).

(** [for (i = 0; i < NUM_BLOCKS; i++) if (bitmap[i] == 0) ...]: the first
    index below [NUM_BLOCKS] whose bitmap word is [0]. *)
Definition first_free_block (bitmap : list Z) : option nat :=
  fst <$> list_find (λ b, b = 0) (take (Z.to_nat NUM_BLOCKS) bitmap).

Definition allocate_block (st : FS) : FS * Z :=
  match first_free_block (free_block_bitmap (superblock st)) with
  | Some i => (with_superblock (sb_mark i 1 (-1) (superblock st)) st, Z.of_nat i)
  | None => (st, -1)
  end.

Definition free_block (block_number : Z) (st : FS) : FS :=
  if (block_number <? 0) || (block_number >=? NUM_BLOCKS) then st
  else if nth_Z 0 (free_block_bitmap (superblock st)) block_number =? 1
       then with_superblock
              (sb_mark (Z.to_nat block_number) 0 1 (superblock st)) st
       else st.

(** [allocate_index_block] and [free_index_block] repeat the bodies of
    [allocate_block] and [free_block] word for word. *)
Definition allocate_index_block (st : FS) : FS * Z := allocate_block st.
Definition free_index_block (block_number : Z) (st : FS) : FS :=
  free_block block_number st.

(** Number of bitmap words that mark a free block. *)
Definition count_free (bitmap : list Z) : Z :=
  Z.of_nat (length (filter (λ b, b = 0) (take (Z.to_nat NUM_BLOCKS) bitmap))).

Definition count_used (bitmap : list Z) : Z :=
  Z.of_nat (length (filter (λ b, b ≠ 0) (take (Z.to_nat NUM_BLOCKS) bitmap))).

(** ** Initialisation *)

(** [memset(inode, 0, sizeof(Inode))]. *)
Definition zero_inode : Inode :=
  mkInode 0 0 (replicate (Z.to_nat DIRECT_BLOCKS) 0) 0 0 0 0 0 0 0
          (replicate (Z.to_nat MAX_ACL_ENTRIES) (mkACL 0 0)) 0.

Definition zero_dir_entry : DirectoryEntry := mkDirEntry "" 0.
Definition zero_journal_entry : JournalEntry := mkJournalEntry 0 "" "" "" 0.

(** The snapshot file holds the superblock and the inode slots; it is
    read back verbatim when present. *)
Definition load_file_system_state
    (snapshot : option (Superblock * list Inode)) (st : FS) : FS :=
  match snapshot with
  | None => st
  | Some (sb, inodes) => with_inode_table inodes (with_superblock sb st)
  end.

(** [init_file_system]; the journal is a zero-initialised global, and
    the entries of [root_directory] likewise. *)
Definition init_file_system
    (snapshot : option (Superblock * list Inode)) (h : Host) : FS :=
  load_file_system_state snapshot
    (mkFS (mkSuperblock (NUM_BLOCKS * BLOCK_SIZE) NUM_BLOCKS (NUM_BLOCKS - 1)
                        INODE_TABLE_SIZE INODE_TABLE_SIZE
                        (replicate (Z.to_nat NUM_BLOCKS) 0))
          (replicate (Z.to_nat INODE_TABLE_SIZE) zero_inode)
          (mkDirectory (replicate (Z.to_nat MAX_FILES) zero_dir_entry) 0)
          (replicate (Z.to_nat JOURNAL_SIZE) zero_journal_entry)
          0
          h).

Definition empty_host : Host := mkHost ∅ ∅.

(** ** Inode table *)

(** [superblock.free_inode_count--]. *)
Definition sb_take_inode (sb : Superblock) : Superblock :=
  mkSuperblock (sb_size sb) (num_blocks sb) (free_blocks sb)
               (inode_table_size sb) (free_inode_count sb - 1)
               (free_block_bitmap sb).

(** The assignments of [create_inode] to the slot it picked; the [acl]
    array itself is not cleared, only [acl_count]. *)
Definition fresh_inode (is_dir md owner group now : Z) (old : Inode) : Inode :=
  mkInode is_dir 0 (replicate (Z.to_nat DIRECT_BLOCKS) (-1)) (-1) md
          now now now owner group (acl old) 0.

(** [for (i = 0; i < INODE_TABLE_SIZE; i++) if (inode_table[i]->_size == 0)]. *)
Definition first_free_inode (t : list Inode) : option (nat * Inode) :=
  list_find (λ ino, i_size ino = 0) (take (Z.to_nat INODE_TABLE_SIZE) t).

Definition create_inode (is_dir md owner group now : Z) (st : FS) : FS * Z :=
  if free_inode_count (superblock st) =? 0 then (st, -1)
  else match first_free_inode (inode_table st) with
       | Some (i, old) =>
           (with_superblock (sb_take_inode (superblock st))
              (with_inode_table
                 (<[ i := fresh_inode is_dir md owner group now old ]>
                    (inode_table st)) st),
            Z.of_nat i)
       | None => (st, -1)
       end.

Definition inode_in_range (inode_number : Z) : bool :=
  negb ((inode_number <? 0) || (inode_number >=? INODE_TABLE_SIZE)).

(** [inode_table[inode_number]] *)
Definition get_inode (inode_number : Z) (st : FS) : Inode :=
  nth_Z zero_inode (inode_table st) inode_number.

(** Assignments through the pointer [inode_table[inode_number]]. *)
Definition update_inode (inode_number : Z) (f : Inode → Inode) (st : FS) : FS :=
  with_inode_table (alter f (Z.to_nat inode_number) (inode_table st)) st.

(** ** Permissions and ACLs *)

(** [~(PERMISSION_READ | PERMISSION_WRITE | PERMISSION_EXECUTE)] as the
    32-bit [unsigned int] it is converted to before the [&]. *)
Definition permission_mask_complement : Z :=
  Z.lnot (Z.lor PERMISSION_READ (Z.lor PERMISSION_WRITE PERMISSION_EXECUTE))
    mod 2 ^ 32.

(** [(permissions & ~(R | W | X)) != 0] *)
Definition invalid_permission_bits (perms : Z) : bool :=
  negb (Z.land perms permission_mask_complement =? 0).

Definition inode_set_mode (md : Z) (ino : Inode) : Inode :=
  mkInode (is_directory ino) (i_size ino) (direct_blocks ino) (index_block ino)
          md (atime ino) (mtime ino) (ctime ino) (owner_id ino) (group_id ino)
          (acl ino) (acl_count ino).

Definition set_permissions (inode_number perms : Z) (st : FS) : FS :=
  if negb (inode_in_range inode_number) then st
  else if invalid_permission_bits perms then st
  else update_inode inode_number (inode_set_mode perms) st.

Definition get_permissions (inode_number : Z) (st : FS) : Z :=
  if negb (inode_in_range inode_number) then 0
  else mode (get_inode inode_number st).

Definition inode_set_acl (a : list ACL_Entry) (n : Z) (ino : Inode) : Inode :=
  mkInode (is_directory ino) (i_size ino) (direct_blocks ino) (index_block ino)
          (mode ino) (atime ino) (mtime ino) (ctime ino) (owner_id ino)
          (group_id ino) a n.

(** The entries [acl[0 .. acl_count-1]] that the loops of the ACL
    functions visit. *)
Definition acl_entries (ino : Inode) : list ACL_Entry :=
  take (Z.to_nat (acl_count ino)) (acl ino).

Definition inode_add_acl (uid perms : Z) (ino : Inode) : Inode :=
  inode_set_acl (<[ Z.to_nat (acl_count ino) := mkACL uid perms ]> (acl ino))
                (acl_count ino + 1) ino.

Definition add_acl_entry (inode_number uid perms : Z) (st : FS) : FS :=
  if negb (inode_in_range inode_number) then st
  else if acl_count (get_inode inode_number st) >=? MAX_ACL_ENTRIES then st
  else if invalid_permission_bits perms then st
  else update_inode inode_number (inode_add_acl uid perms) st.

(** [memmove(&a[i], &a[i + 1], n * sizeof a[0])] *)
Definition memmove_down {A} (i n : nat) (a : list A) : list A :=
  take i a ++ take n (drop (S i) a) ++ drop (i + n) a.

Definition inode_remove_acl (uid : Z) (ino : Inode) : Inode :=
  match list_find (λ e, user_id e = uid) (acl_entries ino) with
  | Some (i, _) =>
      inode_set_acl
        (memmove_down i (Z.to_nat (acl_count ino - Z.of_nat i - 1)) (acl ino))
        (acl_count ino - 1) ino
  | None => ino
  end.

Definition remove_acl_entry (inode_number uid : Z) (st : FS) : FS :=
  if negb (inode_in_range inode_number) then st
  else update_inode inode_number (inode_remove_acl uid) st.

Definition get_acl_permissions (inode_number uid : Z) (st : FS) : Z :=
  if negb (inode_in_range inode_number) then 0
  else match list_find (λ e, user_id e = uid)
                       (acl_entries (get_inode inode_number st)) with
       | Some (_, e) => permissions e
       | None => 0
       end.

(** The class bits [has_permission] starts from. *)
Definition base_permissions (ino : Inode) (uid : Z) : Z :=
  if uid =? owner_id ino then Z.land (Z.shiftr (mode ino) 6) 7
  else if uid =? group_id ino then Z.land (Z.shiftr (mode ino) 3) 7
  else Z.land (mode ino) 7.

Definition has_permission (inode_number uid required_permission : Z) (st : FS) : Z :=
  if negb (inode_in_range inode_number) then 0
  else
    let perms := Z.lor (base_permissions (get_inode inode_number st) uid)
                       (get_acl_permissions inode_number uid st) in
    if Z.land perms required_permission =? required_permission then 1 else 0.

(** ** Host file calls *)

(** [snprintf(full_path, MAX_FILENAME_LEN, "%s%s", TEST_FOLDER_PATH, path)]
    keeps at most [MAX_FILENAME_LEN - 1] characters. *)
Definition full_path (path : string) : string :=
  substring 0 (Z.to_nat (MAX_FILENAME_LEN - 1)) (TEST_FOLDER_PATH +:+ path).

(** [access(p, F_OK) == 0] *)
Definition host_access (h : Host) (p : string) : bool :=
  bool_decide (is_Some (files h !! p)).

(** [fopen(p, "w")] and [fopen(p, "w+")]: create or truncate. *)
Definition host_fopen_w (h : Host) (p : string) : option Host :=
  if decide (p ∈ denied h) then None
  else Some (mkHost (<[ p := "" ]> (files h)) (denied h)).

(** What [fwrite]/[fprintf] leave in a file just opened with ["w"]. *)
Definition host_write (h : Host) (p content : string) : Host :=
  mkHost (<[ p := content ]> (files h)) (denied h).

(** [remove(p) == 0] *)
Definition host_remove (h : Host) (p : string) : option Host :=
  if decide (p ∈ denied h) then None
  else if host_access h p then Some (mkHost (delete p (files h)) (denied h))
  else None.

(** [rename(old, new) == 0]; as on the Windows host the program targets,
    an existing destination makes it fail. *)
Definition host_rename (h : Host) (old new : string) : option Host :=
  if decide (old ∈ denied h ∨ new ∈ denied h) then None
  else match files h !! old, files h !! new with
       | Some c, None =>
           Some (mkHost (<[ new := c ]> (delete old (files h))) (denied h))
       | _, _ => None
       end.

Definition file_exists (path : string) (st : FS) : bool :=
  host_access (host st) (full_path path).

(** ** Journal *)

Definition operation_to_string (op : Z) : string :=
  if op =? CREATE then "CREATED"
  else if op =? DELETE then "DELETED"
  else if op =? MODIFY then "MODIFIED"
  else if op =? RENAME then "RENAMED"
  else if op =? READ then "READ"
  else if op =? CHANGE_PERMISSIONS then "CHANGED PERMISSIONS"
  else "UNKNOWN".

Definition string_to_operation (str : string) : Z :=
  if String.eqb str "CREATE" then CREATE
  else if String.eqb str "DELETE" then DELETE
  else if String.eqb str "MODIFY" then MODIFY
  else if String.eqb str "RENAME" then RENAME
  else if String.eqb str "READ" then READ
  else if String.eqb str "CHANGE_PERMISSIONS" then CHANGE_PERMISSIONS
  else -1.

Definition newline : string := String "010"%char EmptyString.

(** One [fprintf(file, "%ld %s %s %s %s\n", ...)] of [save_journal]. *)
Definition journal_line (e : JournalEntry) : string :=
  pretty (timestamp e) +:+ " " +:+ operation_to_string (operation e) +:+ " "
    +:+ filename e +:+ " " +:+ new_filename e +:+ " " +:+ data e +:+ newline.

(** The text [save_journal] writes: a line for every slot whose
    timestamp is not zero, in slot order. *)
Definition journal_text (j : list JournalEntry) : string :=
  foldr (λ e acc, if timestamp e =? 0 then acc else journal_line e +:+ acc) ""
        (take (Z.to_nat JOURNAL_SIZE) j).

Definition save_journal (st : FS) : FS :=
  match host_fopen_w (host st) JOURNAL_FILENAME with
  | Some h =>
      with_host (host_write h JOURNAL_FILENAME (journal_text (journal st))) st
  | None => st
  end.

(** [strncpy(dst, src, n); dst[n] = '\0';] *)
Definition strncpy (n : Z) (src : string) : string :=
  substring 0 (Z.to_nat n) src.

(** The slot contents [add_journal_entry] writes. *)
Definition make_journal_entry (op : Z) (fname : string)
    (new_fname dat : option string) (now : Z) : JournalEntry :=
  mkJournalEntry op
    (strncpy (MAX_FILENAME_LEN - 1) fname)
    (from_option (strncpy (MAX_FILENAME_LEN - 1)) "" new_fname)
    (from_option (strncpy (BLOCK_SIZE - 1)) "" dat)
    now.

Definition add_journal_entry (op : Z) (fname new_fname dat : option string)
    (now : Z) (st : FS) : FS :=
  match fname with
  | None => st
  | Some f =>
      save_journal
        (with_journal
           (<[ Z.to_nat (journal_index st) :=
                 make_journal_entry op f new_fname dat now ]> (journal st))
           (Z.rem (journal_index st + 1) JOURNAL_SIZE)
           st)
  end.

(** ** Directory index and file operations *)

(** The entries [entries[0 .. entry_count-1]] that the directory loops
    visit. *)
Definition dir_entries (d : Directory) : list DirectoryEntry :=
  take (Z.to_nat (entry_count d)) (entries d).

Definition find_inode_by_filename (fname : option string) (st : FS) : Z :=
  match fname with
  | None => -1
  | Some f =>
      if String.eqb f "" then -1
      else match list_find (λ e, name e = f) (dir_entries (root_directory st)) with
           | Some (_, e) => inode_number e
           | None => -1
           end
  end.

(** [strcpy(entries[entry_count].name, path);
     entries[entry_count].inode_number = n; entry_count++;]
    The source does not compare [entry_count] with [MAX_FILES]; past the
    end of the array the C write is undefined and the list here is left
    as it is.  Nor does it compare the length of [path] with the 255
    bytes of [name]: a longer name is written past the field, which C
    leaves undefined, while the entry here holds the whole name.  The
    statements on the directory of a running program therefore ask
    that names fit ([name_fits] below). *)
Definition dir_append (path : string) (n : Z) (d : Directory) : Directory :=
  mkDirectory (<[ Z.to_nat (entry_count d) := mkDirEntry path n ]> (entries d))
              (entry_count d + 1).

(** [memmove(&entries[i], &entries[i + 1], (entry_count - i - 1) * ...);
     entry_count--;] *)
Definition dir_remove (i : nat) (d : Directory) : Directory :=
  mkDirectory
    (memmove_down i (Z.to_nat (entry_count d - Z.of_nat i - 1)) (entries d))
    (entry_count d - 1).

(** [strcpy(entries[i].name, new_name)]; as in [dir_append], a name
    that does not fit the 255 bytes of the field is outside what this
    definition describes. *)
Definition dir_rename (i : nat) (new_name : string) (d : Directory) : Directory :=
  mkDirectory
    (alter (λ e, mkDirEntry new_name (inode_number e)) i (entries d))
    (entry_count d).

Definition create_file (path : string) (is_dir now : Z) (st : FS) : FS * Z :=
  if file_exists path st then (st, -1)
  else
    let '(st1, ino) :=
      create_inode is_dir 511 (* 0777 *) current_user_id current_group_id now st in
    if ino =? -1 then (st1, -1)
    else
      let st2 := with_root_directory
                   (dir_append path ino (root_directory st1)) st1 in
      match host_fopen_w (host st2) (full_path path) with
      | None => (st2, -1)
      | Some h =>
          (add_journal_entry CREATE (Some path) None None now (with_host h st2), 0)
      end.

(** The block of [delete_file] (and of [delete_directory]) that the
    comment in the source calls "Free blocks and reset inode". *)
Definition inode_released (now : Z) (ino : Inode) : Inode :=
  mkInode 0 0
          ((λ b, if b =? -1 then b else -1) <$> direct_blocks ino)
          (if index_block ino =? -1 then index_block ino else -1)
          (mode ino) (atime ino) now now (owner_id ino) (group_id ino)
          (acl ino) (acl_count ino).

Definition free_block_if_set (st : FS) (b : Z) : FS :=
  if b =? -1 then st else free_block b st.

Definition release_inode (inode_number now : Z) (st : FS) : FS :=
  let ino := get_inode inode_number st in
  let st1 := foldl free_block_if_set st
                   (take (Z.to_nat DIRECT_BLOCKS) (direct_blocks ino)) in
  let st2 := if index_block ino =? -1 then st1
             else free_index_block (index_block ino) st1 in
  update_inode inode_number (inode_released now) st2.

Definition delete_file (fname : string) (now : Z) (st : FS) : FS :=
  if negb (host_access (host st) (full_path fname)) then st
  else match host_remove (host st) (full_path fname) with
       | None => st
       | Some h =>
           let st1 := with_host h st in
           let st2 :=
             match list_find (λ e, name e = fname)
                             (dir_entries (root_directory st1)) with
             | Some (i, e) =>
                 let st' := release_inode (inode_number e) now st1 in
                 with_root_directory (dir_remove i (root_directory st')) st'
             | None => st1
             end in
           add_journal_entry DELETE (Some fname) None None now st2
       end.

Definition rename_file (old_name new_name : string) (now : Z) (st : FS) : FS :=
  if file_exists new_name st then st
  else match host_rename (host st) (full_path old_name) (full_path new_name) with
       | None => st
       | Some h =>
           let st1 := with_host h st in
           let st2 :=
             match list_find (λ e, name e = old_name)
                             (dir_entries (root_directory st1)) with
             | Some (i, _) =>
                 with_root_directory
                   (dir_rename i new_name (root_directory st1)) st1
             | None => st1
             end in
           add_journal_entry RENAME (Some old_name) (Some new_name) None now st2
       end.

(** [create_directory]: the sibling of [create_file] for directories.
    [_mkdir] makes the directory on the host before any table is
    touched.  The host map has one kind of entry: a directory is kept
    like an empty file, and what the host answers for a directory where
    it would answer otherwise for a file is not derived from the map. *)
Definition host_mkdir (h : Host) (p : string) : option Host :=
  if decide (p ∈ denied h) then None
  else if host_access h p then None
  else Some (mkHost (<[ p := "" ]> (files h)) (denied h)).

Definition create_directory (path : string) (now : Z) (st : FS) : FS * Z :=
  if file_exists path st then (st, -1)
  else match host_mkdir (host st) (full_path path) with
       | None => (st, -1)
       | Some h =>
           let '(st1, ino) :=
             create_inode 1 493 (* 0755 *) current_user_id current_group_id now
                          (with_host h st) in
           if ino =? -1 then (st1, -1)
           else
             (add_journal_entry CREATE (Some path) None None now
                (with_root_directory
                   (dir_append path ino (root_directory st1)) st1), 0)
       end.

(** [delete_directory] repeats [delete_file] with [_rmdir] in place of
    [remove]; a directory is an entry of the host map like a file, so
    [_rmdir] on a path that holds a regular file, which the host
    refuses, is not told apart here. *)
Definition host_rmdir (h : Host) (p : string) : option Host := host_remove h p.

Definition delete_directory (path : string) (now : Z) (st : FS) : FS :=
  if negb (host_access (host st) (full_path path)) then st
  else match host_rmdir (host st) (full_path path) with
       | None => st
       | Some h =>
           let st1 := with_host h st in
           let st2 :=
             match list_find (λ e, name e = path)
                             (dir_entries (root_directory st1)) with
             | Some (i, e) =>
                 let st' := release_inode (inode_number e) now st1 in
                 with_root_directory (dir_remove i (root_directory st')) st'
             | None => st1
             end in
           add_journal_entry DELETE (Some path) None None now st2
       end.

(** ** Reading the journal back *)

(** [isspace] in the C locale. *)
Definition is_space (c : ascii) : bool :=
  let n := nat_of_ascii c in
  ((n =? 32) || ((9 <=? n) && (n <=? 13)))%nat.

Definition is_digit (c : ascii) : bool :=
  let n := nat_of_ascii c in ((48 <=? n) && (n <=? 57))%nat.

Fixpoint skip_space (s : string) : string :=
  match s with
  | String c s' => if is_space c then skip_space s' else s
  | EmptyString => s
  end.

(** A [%s] conversion after its leading white space has been skipped:
    the longest run of characters that are not white space. *)
Fixpoint scan_word (s : string) : string * string :=
  match s with
  | String c s' =>
      if is_space c then (EmptyString, s)
      else let '(w, r) := scan_word s' in (String c w, r)
  | EmptyString => (EmptyString, s)
  end.

Fixpoint scan_digits (acc : Z) (s : string) : Z * string :=
  match s with
  | String c s' =>
      if is_digit c
      then scan_digits (10 * acc + Z.of_nat (nat_of_ascii c - 48)) s'
      else (acc, s)
  | EmptyString => (acc, s)
  end.

Definition starts_with_digit (s : string) : bool :=
  match s with String c _ => is_digit c | EmptyString => false end.

(** A [%ld] conversion: white space, an optional sign, at least one
    digit.  The value is not reduced to the width of [long]: what the C
    conversion stores for digits that stand for a number outside [long]
    is not described here, and a statement on the value read asks that
    it fits. *)
Definition scan_long (s : string) : option (Z * string) :=
  match skip_space s with
  | String c r =>
      if Ascii.eqb c "-" then
        if starts_with_digit r
        then let '(v, r') := scan_digits 0 r in Some (- v, r') else None
      else if Ascii.eqb c "+" then
        if starts_with_digit r then Some (scan_digits 0 r) else None
      else if is_digit c then Some (scan_digits 0 (String c r)) else None
  | EmptyString => None
  end.

(** Up to [n] successive [%s] conversions; the list stops at the first
    one that finds the end of the input. *)
Fixpoint scan_words (n : nat) (s : string) : list string :=
  match n with
  | O => []
  | S n' =>
      let '(w, r) := scan_word (skip_space s) in
      if String.eqb w "" then [] else w :: scan_words n' r
  end.

(** [sscanf(line, "%ld %s %s %s %s", ...)]: the converted number and the
    converted words; the call returns one plus the number of words, or
    a value below one when the number is missing.  The destination
    buffers are taken to be long enough for the words read. *)
Definition sscanf_journal (line : string) : option (Z * list string) :=
  match scan_long line with
  | Some (t, r) => Some (t, scan_words 4 r)
  | None => None
  end.

(** The successive results of [fgets(line, 1024, file)]: each holds at
    most 1023 characters and ends after a newline if it met one.  [room]
    is the space left in [line], [cur] the characters read so far, most
    recent first. *)
Fixpoint fgets_lines (room : nat) (cur : string) (s : string) : list string :=
  match s with
  | EmptyString => if String.eqb cur "" then [] else [String.rev cur]
  | String c s' =>
      if (Ascii.eqb c "010" || (room =? 1)%nat)%bool
      then String.rev (String c cur) :: fgets_lines 1023 "" s'
      else fgets_lines (room - 1) (String c cur) s'
  end.

(** One turn of the [while] loop of [init_journal].  [indet] stands for
    what the uninitialised buffers [new_filename] and [data] hold when
    [sscanf] converted fewer than five items. *)
Definition init_journal_line (indet : string)
    (acc : list JournalEntry * Z) (line : string) : list JournalEntry * Z :=
  let '(j, index) := acc in
  if index <? JOURNAL_SIZE then
    match sscanf_journal line with
    | Some (t, op_str :: fname :: rest) =>
        (<[ Z.to_nat index :=
              mkJournalEntry (string_to_operation op_str)
                (strncpy (MAX_FILENAME_LEN - 1) fname)
                (strncpy (MAX_FILENAME_LEN - 1) (default indet (rest !! 0%nat)))
                (strncpy (BLOCK_SIZE - 1) (default indet (rest !! 1%nat)))
                t ]> j,
         index + 1)
    | _ => acc
    end
  else acc.

Definition init_journal (indet : string) (st : FS) : FS :=
  match files (host st) !! JOURNAL_FILENAME with
  | Some content =>
      let '(j, index) :=
        foldl (init_journal_line indet) (journal st, 0)
              (fgets_lines 1023 "" content) in
      with_journal j (Z.rem index JOURNAL_SIZE) st
  | None => with_journal (journal st) 0 st
  end.

(** ** Replay *)

(** The body of the [for] loop of [replay_journal] for one slot. *)
Definition replay_entry (e : JournalEntry) (now : Z) (st : FS) : FS :=
  if timestamp e =? 0 then st
  else if operation e =? CREATE then fst (create_file (filename e) 0 now st)
  else if operation e =? DELETE then delete_file (filename e) now st
  else if operation e =? MODIFY then
    match host_fopen_w (host st) (filename e) with
    | Some h => with_host (host_write h (filename e) (data e)) st
    | None => st
    end
  else if operation e =? RENAME then
    rename_file (filename e) (new_filename e) now st
  else st.

(** Slots [i], [i+1], ... for [n] turns; each turn reads the slot from
    the journal as the earlier turns left it. *)
Fixpoint replay_from (n i : nat) (now : Z) (st : FS) : FS :=
  match n with
  | O => st
  | S n' =>
      replay_from n' (S i) now
        (replay_entry (default zero_journal_entry (journal st !! i)) now st)
  end.

Definition replay_journal (now : Z) (st : FS) : FS :=
  replay_from (Z.to_nat JOURNAL_SIZE) 0 now st.

(** ** Sequences of calls *)

(** The calls on the state that this file models, and [EnvHost] for
    whatever the outside world does to the host files between two calls.
    The remaining entry points of the program reach the tables only
    through these: [edit_file] and [open_file] end in
    [add_journal_entry]. *)
Inductive Call :=
  | CallAllocateBlock
  | CallFreeBlock (block_number : Z)
  | CallAllocateIndexBlock
  | CallFreeIndexBlock (block_number : Z)
  | CallCreateInode (is_dir md owner group now : Z)
  | CallSetPermissions (inode_number perms : Z)
  | CallAddAclEntry (inode_number uid perms : Z)
  | CallRemoveAclEntry (inode_number uid : Z)
  | CallCreateFile (path : string) (is_dir now : Z)
  | CallDeleteFile (fname : string) (now : Z)
  | CallRenameFile (old_name new_name : string) (now : Z)
  | CallCreateDirectory (path : string) (now : Z)
  | CallDeleteDirectory (path : string) (now : Z)
  | CallAddJournalEntry (op : Z) (fname new_fname dat : option string) (now : Z)
  | CallInitJournal (indet : string)
  | CallReplayJournal (now : Z)
  | EnvHost (h : Host).

Definition run_call (st : FS) (c : Call) : FS :=
  match c with
  | CallAllocateBlock => fst (allocate_block st)
  | CallFreeBlock b => free_block b st
  | CallAllocateIndexBlock => fst (allocate_index_block st)
  | CallFreeIndexBlock b => free_index_block b st
  | CallCreateInode d m o g now => fst (create_inode d m o g now st)
  | CallSetPermissions n p => set_permissions n p st
  | CallAddAclEntry n u p => add_acl_entry n u p st
  | CallRemoveAclEntry n u => remove_acl_entry n u st
  | CallCreateFile p d now => fst (create_file p d now st)
  | CallDeleteFile f now => delete_file f now st
  | CallRenameFile o n now => rename_file o n now st
  | CallCreateDirectory p now => fst (create_directory p now st)
  | CallDeleteDirectory p now => delete_directory p now st
  | CallAddJournalEntry op f nf d now => add_journal_entry op f nf d now st
  | CallInitJournal indet => init_journal indet st
  | CallReplayJournal now => replay_journal now st
  | EnvHost h => with_host h st
  end.

Definition run_calls (st : FS) (cs : list Call) : FS := foldl run_call st cs.

(** One call of [add_journal_entry], with the time it ran at. *)
Record Append := mkAppend {
  ap_operation : Z;
  ap_filename : string;
  ap_new_filename : option string;
  ap_data : option string;
  ap_now : Z
}.

Definition run_append (st : FS) (a : Append) : FS :=
  add_journal_entry (ap_operation a) (Some (ap_filename a))
                    (ap_new_filename a) (ap_data a) (ap_now a) st.

Definition entry_of_append (a : Append) : JournalEntry :=
  make_journal_entry (ap_operation a) (ap_filename a) (ap_new_filename a)
                     (ap_data a) (ap_now a).

(** Number of journal slots in use. *)
Definition journal_used (j : list JournalEntry) : nat :=
  length (filter (λ e, timestamp e ≠ 0) (take (Z.to_nat JOURNAL_SIZE) j)).

(** ** Vocabulary of the statements *)

Definition indicator {A} (P : A → Prop) `{!∀ x, Decision (P x)} (x : A) : Z :=
  if decide (P x) then 1 else 0.

(** The free-block counter minus the number of free bitmap words. *)
Definition counter_gap (st : FS) : Z :=
  free_blocks (superblock st) - count_free (free_block_bitmap (superblock st)).

(** The array sizes that the C declarations fix. *)
Definition inode_shape (ino : Inode) : Prop :=
  length (direct_blocks ino) = Z.to_nat DIRECT_BLOCKS
  ∧ length (acl ino) = Z.to_nat MAX_ACL_ENTRIES.

Definition table_shape (st : FS) : Prop :=
  length (inode_table st) = Z.to_nat INODE_TABLE_SIZE.

(** Permission resolution in the words of the specification. *)
Inductive IdentityClass := Owner | Group | Other.

Definition identity_class (ino : Inode) (uid : Z) : IdentityClass :=
  if decide (uid = owner_id ino) then Owner
  else if decide (uid = group_id ino) then Group
  else Other.

(** Owner bits [0700], group bits [0070], other bits [0007], each
    brought down to a three-bit value. *)
Definition class_bits (md : Z) (c : IdentityClass) : Z :=
  match c with
  | Owner => Z.land md 448 / 64
  | Group => Z.land md 56 / 8
  | Other => Z.land md 7
  end.

(** [granted] covers every bit of [requested]. *)
Definition covers (granted requested : Z) : Prop :=
  ∀ k, 0 ≤ k → Z.testbit requested k = true → Z.testbit granted k = true.

(** [e] is the ACL entry found for [uid]: the first one in the inode's
    ACL that carries exactly this user id. *)
Definition acl_found (ino : Inode) (uid : Z) (e : ACL_Entry) : Prop :=
  ∃ i, acl_entries ino !! i = Some e ∧ user_id e = uid
       ∧ ∀ j e', (j < i)%nat → acl_entries ino !! j = Some e' → user_id e' ≠ uid.

Definition acl_absent (ino : Inode) (uid : Z) : Prop :=
  ∀ e, e ∈ acl_entries ino → user_id e ≠ uid.

(** Slot [i] is the first one of the table whose size is 0. *)
Definition first_zero_size_slot (t : list Inode) (i : nat) : Prop :=
  (i < Z.to_nat INODE_TABLE_SIZE)%nat
  ∧ (∃ ino, t !! i = Some ino ∧ i_size ino = 0)
  ∧ ∀ j ino, (j < i)%nat → t !! j = Some ino → i_size ino ≠ 0.

Definition no_zero_size_slot (t : list Inode) : Prop :=
  ∀ i ino, (i < Z.to_nat INODE_TABLE_SIZE)%nat → t !! i = Some ino →
           i_size ino ≠ 0.

(** What the specification asks of a slot just handed out. *)
Definition initialised_inode (is_dir md owner group now : Z) (ino : Inode) : Prop :=
  is_directory ino = is_dir ∧ i_size ino = 0 ∧ mode ino = md
  ∧ atime ino = now ∧ mtime ino = now ∧ ctime ino = now
  ∧ owner_id ino = owner ∧ group_id ino = group
  ∧ length (direct_blocks ino) = Z.to_nat DIRECT_BLOCKS
  ∧ (∀ b, b ∈ direct_blocks ino → b = -1)
  ∧ index_block ino = -1
  ∧ acl_count ino = 0 ∧ acl_entries ino = [].

(** Two [create_inode] calls in a row hand out the same slot and each
    takes one off the free-inode count. *)
Definition double_create_same_slot (is_dir md owner group now : Z) (st : FS) : Prop :=
  let '(st1, r1) := create_inode is_dir md owner group now st in
  let '(st2, r2) := create_inode is_dir md owner group now st1 in
  0 ≤ r1 ∧ r2 = r1
  ∧ free_inode_count (superblock st1) = free_inode_count (superblock st) - 1
  ∧ free_inode_count (superblock st2) = free_inode_count (superblock st1) - 1.

(** The state after [k] calls of [create_file]-style inode creation. *)
Definition after_creates (k : nat) (st : FS) : FS :=
  Nat.iter k (λ s, fst (create_inode 0 511 current_user_id current_group_id
                                     1700000000 s)) st.

(** A value that fits the 9-bit mode word [0777]. *)
Definition nine_bit_mode (md : Z) : Prop := 0 ≤ md ≤ 511.

(** A value of type [unsigned int]. *)
Definition is_uint (x : Z) : Prop := 0 ≤ x < 2 ^ 32.

(** The user ids of an inode's ACL, in table order, and their uniqueness. *)
Definition acl_user_ids (ino : Inode) : list Z := user_id <$> acl_entries ino.

Definition acl_unique (ino : Inode) : Prop := NoDup (acl_user_ids ino).

Definition acl_shape (ino : Inode) : Prop :=
  0 ≤ acl_count ino ≤ MAX_ACL_ENTRIES
  ∧ length (acl ino) = Z.to_nat MAX_ACL_ENTRIES.

(** The block references an inode holds: the direct ones and the index
    block, without the unset sentinel. *)
Definition held_blocks (ino : Inode) : list Z :=
  filter (λ b, b ≠ -1)
         (take (Z.to_nat DIRECT_BLOCKS) (direct_blocks ino) ++ [index_block ino]).

(** The bitmap word of block [b] is [v]. *)
Definition block_marked (v : Z) (st : FS) (b : Z) : Prop :=
  free_block_bitmap (superblock st) !! Z.to_nat b = Some v.

(** No function of the program stores a block reference in an inode, so
    a state in which an inode holds blocks is put together by hand: the
    references are written into the slot directly. *)
Definition inode_with_blocks (direct : list Z) (idx : Z) (ino : Inode) : Inode :=
  mkInode (is_directory ino) (i_size ino) direct idx (mode ino) (atime ino)
          (mtime ino) (ctime ino) (owner_id ino) (group_id ino) (acl ino)
          (acl_count ino).

(** File ["a"] created on an empty host, three blocks allocated, and
    blocks 0 and 1 hung on its inode as direct blocks, block 2 as its
    index block. *)
Definition file_holding_blocks : FS :=
  let st := fst (create_file "a" 0 1700000000 (init_file_system None empty_host)) in
  let st := fst (allocate_block st) in
  let st := fst (allocate_block st) in
  let st := fst (allocate_index_block st) in
  update_inode 0
    (inode_with_blocks (0 :: 1 :: replicate 10 (-1)) 2) st.

(** The persisted log in the words of the specification: one line for
    every non-empty entry, empty entries skipped. *)
Definition journal_lines (j : list JournalEntry) : list string :=
  journal_line <$> filter (λ e, timestamp e ≠ 0) (take (Z.to_nat JOURNAL_SIZE) j).

Definition concat_lines (ls : list string) : string :=
  foldr String.append "" ls.

Definition empty_journal : list JournalEntry :=
  replicate (Z.to_nat JOURNAL_SIZE) zero_journal_entry.

(** A host with no files that refuses to open [path] for writing. *)
Definition host_denying (path : string) : Host :=
  mkHost ∅ {[ full_path path ]}.

(** A new process on host [h]: fresh tables, the journal read back from
    the persisted log and replayed. *)
Definition recover (indet : string) (now : Z) (h : Host) : FS :=
  replay_journal now (init_journal indet (init_file_system None h)).

(** What [init_journal] makes of the tag [save_journal] wrote for [op]:
    the first word of the tag, the others being read as file names. *)
Definition reloaded_operation (op : Z) : Z :=
  string_to_operation (default "" (scan_words 1 (operation_to_string op) !! 0%nat)).

(** ** The rest of the program *)

(** The snapshot file holds the bytes of the superblock followed by
    those of [inode_table_size] inode slots; it is kept here as the
    values themselves, beside the text files of the host, and only the
    refusal to open it is read from the host. *)
Definition SNAPSHOT_FILENAME : string := "file_system_state.dat".

Definition save_file_system_state (st : FS)
    (disk : option (Superblock * list Inode)) : option (Superblock * list Inode) :=
  if decide (SNAPSHOT_FILENAME ∈ denied (host st)) then disk
  else Some (superblock st,
             take (Z.to_nat (inode_table_size (superblock st))) (inode_table st)).

Definition save_permissions (st : FS)
    (disk : option (Superblock * list Inode)) : option (Superblock * list Inode) :=
  save_file_system_state st disk.

(** [snprintf(mode_str, 12, "%o", new_mode)]: the octal digits of an
    [unsigned int], eleven at most. *)
Definition octal_digit (d : Z) : ascii := ascii_of_nat (48 + Z.to_nat d).

Fixpoint octal_go (fuel : nat) (x : Z) (acc : string) : string :=
  match fuel with
  | O => acc
  | S fuel' =>
      let acc' := String (octal_digit (x mod 8)) acc in
      if x / 8 =? 0 then acc' else octal_go fuel' (x / 8) acc'
  end.

Definition octal (x : Z) : string := octal_go 11 x "".

(** [inode->mode = new_mode; inode->ctime = time(NULL);] *)
Definition inode_chmod (new_mode now : Z) (ino : Inode) : Inode :=
  mkInode (is_directory ino) (i_size ino) (direct_blocks ino) (index_block ino)
          new_mode (atime ino) (mtime ino) now (owner_id ino) (group_id ino)
          (acl ino) (acl_count ino).

(** [change_file_permissions]; the result carries the snapshot file as
    the call leaves it.  The slots of [inode_table] are never [NULL]
    once the tables are set up, so that test of the source is left out. *)
Definition change_file_permissions (fname : string) (new_mode now : Z)
    (st : FS) (disk : option (Superblock * list Inode))
    : FS * option (Superblock * list Inode) * Z :=
  let n := find_inode_by_filename (Some fname) st in
  if n =? -1 then (st, disk, -1)
  else
    let st1 := update_inode n (inode_chmod new_mode now) st in
    (add_journal_entry CHANGE_PERMISSIONS (Some fname) (Some (octal new_mode))
                       None now st1,
     save_permissions st1 disk,
     0).

(** [edit_file].  [opened] is what the host answers to opening the file
    for update and reading it whole: [false] when [fopen(p, "r+")]
    fails (as it does on a directory), when [ftell] is negative, when
    [malloc] gives [NULL] or when [fread] comes back short; the source
    returns on each of these before anything is journaled.  The host
    map gives the two conditions that [fopen(p, "r+")] needs in any
    case: the path exists and is not refused for writing.  [response]
    is what the editing dialog hands back: [Some text] when the user
    saves [text], [None] when the user cancels.  The path buffer of
    this function is one byte longer than elsewhere. *)
Definition edit_path (fname : string) : string :=
  substring 0 (Z.to_nat MAX_FILENAME_LEN) (TEST_FOLDER_PATH +:+ fname).

Definition host_fopen_update (h : Host) (p : string) : bool :=
  host_access h p && bool_decide (p ∉ denied h).

Definition edit_file (fname : string) (opened : bool)
    (response : option string) (now : Z) (st : FS) : FS :=
  if Z.of_nat (String.length fname) >=? MAX_FILENAME_LEN then st
  else if negb (opened && host_fopen_update (host st) (edit_path fname)) then st
  else
    let st1 :=
      match response with
      | Some new_contents =>
          match host_fopen_w (host st) (edit_path fname) with
          | Some h => with_host (host_write h (edit_path fname) new_contents) st
          | None => st
          end
      | None => st
      end in
    add_journal_entry MODIFY (Some fname) None None now st1.

(** [open_file]: the question dialog answers "edit" (and then the host
    and the editing dialog answer as above) or "view"; [readable] tells
    whether [fopen(full_path, "r")] and the [malloc] after it succeed. *)
Inductive OpenChoice :=
  | ChooseEdit (opened : bool) (response : option string)
  | ChooseView (readable : bool).

Definition open_file (fname : string) (choice : OpenChoice) (now : Z)
    (st : FS) : FS :=
  if negb (host_access (host st) (full_path fname)) then st
  else
    match choice with
    | ChooseEdit opened response =>
        add_journal_entry READ (Some fname) None None now
                          (edit_file fname opened response now st)
    | ChooseView readable =>
        if readable then add_journal_entry READ (Some fname) None None now st
        else st
    end.

(** [ensure_trailing_slash], on a buffer of [MAX_FILENAME_LEN] bytes. *)
Definition ends_with_slash (path : string) : bool :=
  match String.get (String.length path - 1) path with
  | Some c => Ascii.eqb c "/"
  | None => false
  end.

Definition ensure_trailing_slash (path : string) : string :=
  let len := String.length path in
  if (0 <? len)%nat && negb (ends_with_slash path) then
    if (Z.of_nat len <? MAX_FILENAME_LEN - 1) then path +:+ "/" else path
  else path.

(** ** Vocabulary of the further statements *)

(** What the C declarations and the code keep true of one inode slot. *)
Record inode_ok (ino : Inode) : Prop := mk_inode_ok {
  ok_direct : length (direct_blocks ino) = Z.to_nat DIRECT_BLOCKS;
  ok_acl : length (acl ino) = Z.to_nat MAX_ACL_ENTRIES;
  ok_acl_count : 0 ≤ acl_count ino ≤ MAX_ACL_ENTRIES;
  ok_size : i_size ino = 0
}.

(** What holds of every state the program reaches from fresh tables. *)
Record well_formed (st : FS) : Prop := mk_well_formed {
  wf_table : length (inode_table st) = Z.to_nat INODE_TABLE_SIZE;
  wf_inodes : Forall inode_ok (inode_table st);
  wf_bitmap : length (free_block_bitmap (superblock st)) = Z.to_nat NUM_BLOCKS;
  wf_bits : Forall (λ b, b = 0 ∨ b = 1) (free_block_bitmap (superblock st));
  wf_journal : length (journal st) = Z.to_nat JOURNAL_SIZE;
  wf_index : 0 ≤ journal_index st < JOURNAL_SIZE;
  wf_entries : length (entries (root_directory st)) = Z.to_nat MAX_FILES;
  wf_entry_count : 0 ≤ entry_count (root_directory st);
  wf_free_inodes : 0 ≤ free_inode_count (superblock st);
  wf_budget : entry_count (root_directory st) + free_inode_count (superblock st)
              ≤ INODE_TABLE_SIZE;
  wf_numbers : Forall (λ e, inode_number e = 0) (entries (root_directory st))
}.


(** The state [create_inode] leaves when it hands out slot 0. *)
Definition take_slot_zero (is_dir md owner group now : Z) (st : FS) : FS :=
  with_superblock (sb_take_inode (superblock st))
    (with_inode_table
       (<[ 0%nat := fresh_inode is_dir md owner group now (get_inode 0 st) ]>
          (inode_table st)) st).

(** The free-inode count of [st'] is not above that of [st]. *)
Definition inodes_not_returned (st' st : FS) : Prop :=
  free_inode_count (superblock st') ≤ free_inode_count (superblock st).

(** ** The program as a whole *)

(** What the user and the outside world can make the program do: the
    calls above, the three entry points that were left out of them, and
    leaving the program and starting it again, [main] running
    [init_file_system] on what the host then holds.  The state is the
    tables in memory together with the snapshot file, which is kept
    beside the host map and is written by [save_file_system_state]
    alone: a host file of that name written by some other call or by
    the outside world is not seen by [ActRestart].
    [load_permissions] is never called and is left out.  The folder the
    program works in stays [TEST_FOLDER_PATH]: [change_directory] and
    its dialogs are left out, as are copy and paste, which only touch
    host files and count as [EnvHost]. *)
Inductive Action :=
  | ActCall (c : Call)
  | ActChangeFilePermissions (fname : string) (new_mode now : Z)
  | ActEditFile (fname : string) (opened : bool) (response : option string)
                (now : Z)
  | ActOpenFile (fname : string) (choice : OpenChoice) (now : Z)
  | ActRestart.

Definition run_action (m : FS * option (Superblock * list Inode)) (a : Action)
    : FS * option (Superblock * list Inode) :=
  match a with
  | ActCall c => (run_call (fst m) c, snd m)
  | ActChangeFilePermissions fname new_mode now =>
      fst (change_file_permissions fname new_mode now (fst m) (snd m))
  | ActEditFile fname opened response now =>
      (edit_file fname opened response now (fst m), snd m)
  | ActOpenFile fname choice now =>
      (open_file fname choice now (fst m), snd m)
  | ActRestart => (init_file_system (snd m) (host (fst m)), snd m)
  end.

Definition run_actions (m : FS * option (Superblock * list Inode))
    (acts : list Action) : FS * option (Superblock * list Inode) :=
  foldl run_action m acts.

(** The tables after [acts], the program having first been started on
    host [h] with no snapshot file. *)
Definition reached (h : Host) (acts : list Action) : FS :=
  fst (run_actions (init_file_system None h, None) acts).

(** A name that [strcpy] can put into [char name[MAX_FILENAME_LEN]]
    with its final zero byte. *)
Definition name_fits (s : string) : bool :=
  Z.of_nat (String.length s) <? MAX_FILENAME_LEN.

(** The actions that the statements on a running program are about:
    the names that [create_file], [create_directory] and [rename_file]
    copy into the directory fit the name field; [init_journal] and
    [replay_journal], which nothing in the program calls, are left out
    (the first scans words of any length into fixed buffers, the second
    writes to paths taken from the journal); and the program is not
    restarted. *)
Definition action_in_scope (a : Action) : bool :=
  match a with
  | ActCall (CallCreateFile path _ _) => name_fits path
  | ActCall (CallRenameFile _ new_name _) => name_fits new_name
  | ActCall (CallCreateDirectory path _) => name_fits path
  | ActCall (CallInitJournal _) => false
  | ActCall (CallReplayJournal _) => false
  | ActRestart => false
  | _ => true
  end.

Definition in_scope (acts : list Action) : bool := forallb action_in_scope acts.

(** A snapshot from which [init_file_system] sets up well-formed
    tables with the declared number of inode slots. *)
Definition snapshot_ok (disk : option (Superblock * list Inode)) : Prop :=
  ∀ h, well_formed (init_file_system disk h)
       ∧ inode_table_size (superblock (init_file_system disk h))
         = INODE_TABLE_SIZE
       ∧ counter_gap (init_file_system disk h) = -1.

(** What every state of the program satisfies, snapshot file included. *)
Definition machine_ok (m : FS * option (Superblock * list Inode)) : Prop :=
  well_formed (fst m)
  ∧ inode_table_size (superblock (fst m)) = INODE_TABLE_SIZE
  ∧ counter_gap (fst m) = -1
  ∧ snapshot_ok (snd m).

(** ** Vocabulary for the journal file read back *)









(** * Properties *)

Arguments add_journal_entry : simpl never.
Arguments save_journal : simpl never.
Arguments create_inode : simpl never.
Arguments release_inode : simpl never.
Arguments allocate_block : simpl never.
Arguments free_block : simpl never.
Arguments create_file : simpl never.
Arguments delete_file : simpl never.
Arguments rename_file : simpl never.
Arguments create_directory : simpl never.
Arguments delete_directory : simpl never.
Arguments replay_entry : simpl never.
Arguments init_journal : simpl never.
Arguments count_free : simpl never.
Arguments journal_text : simpl never.
Arguments make_journal_entry : simpl never.

(** ** Generic facts about arrays *)

Section arrays.
Context {A : Type} (P : A → Prop) `{!∀ x, Decision (P x)}.

Lemma filter_length_insert (l : list A) (i : nat) (x y : A) :
  l !! i = Some x →
  Z.of_nat (length (filter P (<[ i := y ]> l)))
  = Z.of_nat (length (filter P l)) - indicator P x + indicator P y.
Proof.
  revert i. induction l as [|a l IH]; intros [|i] Hi; simplify_eq/=.
  - rewrite !filter_cons. unfold indicator.
    repeat case_decide; simpl; lia.
  - rewrite !filter_cons. specialize (IH _ Hi).
    case_decide; simpl; lia.
Qed.

End arrays.

Lemma filter_length_complement {A} (P : A → Prop) `{!∀ x, Decision (P x)}
    (l : list A) :
  (length (filter P l) + length (filter (λ x, ¬ P x) l) = length l)%nat.
Proof.
  induction l as [|a l IH]; [done|].
  rewrite !filter_cons. simpl. repeat case_decide; simpl; try lia; tauto.
Qed.

(** ** Block allocator *)

Lemma count_free_insert (bitmap : list Z) (i : nat) (x y : Z) :
  (i < Z.to_nat NUM_BLOCKS)%nat →
  bitmap !! i = Some x →
  count_free (<[ i := y ]> bitmap)
  = count_free bitmap - indicator (λ b, b = 0) x + indicator (λ b, b = 0) y.
Proof.
  intros Hi Hx. unfold count_free. rewrite take_insert_lt by done.
  apply filter_length_insert. by rewrite lookup_take_lt.
Qed.

Lemma first_free_block_Some (bitmap : list Z) (i : nat) :
  first_free_block bitmap = Some i →
  (i < Z.to_nat NUM_BLOCKS)%nat ∧ bitmap !! i = Some 0
  ∧ ∀ j b, (j < i)%nat → bitmap !! j = Some b → b ≠ 0.
Proof.
  unfold first_free_block. intros H.
  destruct (list_find _ _) as [[k x]|] eqn:E; simplify_eq/=.
  apply list_find_Some in E as (Hk & -> & Hmin).
  apply lookup_take_Some in Hk as [Hk Hlt].
  split_and!; [done..|].
  intros j b Hj Hb. apply (Hmin j b); [|done].
  rewrite lookup_take_lt by lia. done.
Qed.

Lemma first_free_block_None (bitmap : list Z) :
  first_free_block bitmap = None → count_free bitmap = 0.
Proof.
  unfold first_free_block, count_free. intros H.
  destruct (list_find _ _) as [[k x]|] eqn:E; simplify_eq/=.
  rewrite list_find_None in E.
  induction (take _ bitmap) as [|a l IH]; [done|].
  apply Forall_cons in E as [Ha Hl]. rewrite filter_cons.
  case_decide; [done|]. by apply IH.
Qed.

Lemma allocate_block_gap (st : FS) :
  counter_gap (fst (allocate_block st)) = counter_gap st.
Proof.
  unfold allocate_block, counter_gap.
  destruct (first_free_block _) as [i|] eqn:E; [|done].
  apply first_free_block_Some in E as (Hi & Hx & _). simpl.
  rewrite (count_free_insert _ _ 0 1) by done. unfold indicator. simpl. lia.
Qed.

Lemma free_block_gap (b : Z) (st : FS) :
  counter_gap (free_block b st) = counter_gap st.
Proof.
  unfold free_block, counter_gap.
  destruct (_ || _) eqn:Hrange; [done|].
  apply orb_false_iff in Hrange as [H0 Hn].
  unfold nth_Z. rewrite H0.
  destruct (free_block_bitmap (superblock st) !! Z.to_nat b) as [x|] eqn:Hx;
    simpl; [|done].
  destruct (x =? 1) eqn:H1; [|done]. apply Z.eqb_eq in H1 as ->. simpl.
  rewrite (count_free_insert _ _ 1 0); [|unfold NUM_BLOCKS in *; lia|done].
  unfold indicator. simpl. lia.
Qed.

(** *** Calls that leave the superblock alone *)

Lemma save_journal_superblock (st : FS) :
  superblock (save_journal st) = superblock st.
Proof. unfold save_journal. by destruct (host_fopen_w _ _). Qed.

Lemma add_journal_entry_superblock op f nf d now (st : FS) :
  superblock (add_journal_entry op f nf d now st) = superblock st.
Proof.
  unfold add_journal_entry. destruct f; [|done].
  by rewrite save_journal_superblock.
Qed.

Lemma update_inode_superblock n f (st : FS) :
  superblock (update_inode n f st) = superblock st.
Proof. done. Qed.

Lemma set_permissions_superblock n p (st : FS) :
  superblock (set_permissions n p st) = superblock st.
Proof. unfold set_permissions. by repeat case_match. Qed.

Lemma add_acl_entry_superblock n u p (st : FS) :
  superblock (add_acl_entry n u p st) = superblock st.
Proof. unfold add_acl_entry. by repeat case_match. Qed.

Lemma remove_acl_entry_superblock n u (st : FS) :
  superblock (remove_acl_entry n u st) = superblock st.
Proof. unfold remove_acl_entry. by repeat case_match. Qed.

Lemma init_journal_superblock indet (st : FS) :
  superblock (init_journal indet st) = superblock st.
Proof. unfold init_journal. by repeat case_match. Qed.

(** *** Calls that move the counter and the bitmap together *)

Lemma counter_gap_superblock (st st' : FS) :
  superblock st' = superblock st → counter_gap st' = counter_gap st.
Proof. unfold counter_gap. by intros ->. Qed.

Lemma counter_gap_with_root_directory d (st : FS) :
  counter_gap (with_root_directory d st) = counter_gap st.
Proof. done. Qed.

Lemma create_inode_gap d m o g now (st : FS) :
  counter_gap (fst (create_inode d m o g now st)) = counter_gap st.
Proof. unfold create_inode. by repeat case_match. Qed.

Lemma free_block_if_set_gap (st : FS) (b : Z) :
  counter_gap (free_block_if_set st b) = counter_gap st.
Proof.
  unfold free_block_if_set. case_match; [done|]. apply free_block_gap.
Qed.

Lemma foldl_free_block_gap (bs : list Z) (st : FS) :
  counter_gap (foldl free_block_if_set st bs) = counter_gap st.
Proof.
  revert st. induction bs as [|b bs IH]; intros st; simpl; [done|].
  by rewrite IH, free_block_if_set_gap.
Qed.

Lemma release_inode_gap n now (st : FS) :
  counter_gap (release_inode n now st) = counter_gap st.
Proof.
  unfold release_inode.
  rewrite (counter_gap_superblock _ _ (update_inode_superblock _ _ _)).
  case_match.
  - apply foldl_free_block_gap.
  - unfold free_index_block. by rewrite free_block_gap, foldl_free_block_gap.
Qed.

Lemma create_file_gap p d now (st : FS) :
  counter_gap (fst (create_file p d now st)) = counter_gap st.
Proof.
  unfold create_file. case_match; [done|].
  pose proof (create_inode_gap d 511 current_user_id current_group_id now st) as Hc.
  destruct (create_inode _ _ _ _ _ _) as [st1 ino]; simpl in *.
  repeat case_match; simpl; try done.
  by rewrite (counter_gap_superblock _ _ (add_journal_entry_superblock _ _ _ _ _ _)).
Qed.

Lemma delete_file_gap f now (st : FS) :
  counter_gap (delete_file f now st) = counter_gap st.
Proof.
  unfold delete_file. repeat case_match; try done;
    rewrite (counter_gap_superblock _ _ (add_journal_entry_superblock _ _ _ _ _ _));
    [|done].
  by rewrite counter_gap_with_root_directory, release_inode_gap.
Qed.

Lemma delete_directory_gap p now (st : FS) :
  counter_gap (delete_directory p now st) = counter_gap st.
Proof.
  unfold delete_directory. repeat case_match; try done;
    rewrite (counter_gap_superblock _ _ (add_journal_entry_superblock _ _ _ _ _ _));
    [|done].
  by rewrite counter_gap_with_root_directory, release_inode_gap.
Qed.

Lemma rename_file_gap o n now (st : FS) :
  counter_gap (rename_file o n now st) = counter_gap st.
Proof.
  unfold rename_file. repeat case_match; try done;
    by rewrite (counter_gap_superblock _ _ (add_journal_entry_superblock _ _ _ _ _ _)).
Qed.

Lemma create_directory_gap p now (st : FS) :
  counter_gap (fst (create_directory p now st)) = counter_gap st.
Proof.
  unfold create_directory. case_match; [done|].
  destruct (host_mkdir _ _) as [h|]; [|done].
  pose proof (create_inode_gap 1 493 current_user_id current_group_id now
                (with_host h st)) as Hc.
  destruct (create_inode _ _ _ _ _ _) as [st1 ino]; simpl in *.
  case_match; simpl; [done|].
  by rewrite (counter_gap_superblock _ _ (add_journal_entry_superblock _ _ _ _ _ _)).
Qed.

Lemma replay_entry_gap e now (st : FS) :
  counter_gap (replay_entry e now st) = counter_gap st.
Proof.
  unfold replay_entry.
  repeat case_match; try done;
    auto using create_file_gap, delete_file_gap, rename_file_gap.
Qed.

Lemma replay_from_gap n i now (st : FS) :
  counter_gap (replay_from n i now st) = counter_gap st.
Proof.
  revert i st. induction n as [|n IH]; intros i st; simpl; [done|].
  by rewrite IH, replay_entry_gap.
Qed.

Lemma run_call_gap (st : FS) (c : Call) :
  counter_gap (run_call st c) = counter_gap st.
Proof.
  destruct c; simpl;
    auto using allocate_block_gap, free_block_gap, create_inode_gap,
      create_file_gap, delete_file_gap, rename_file_gap, create_directory_gap,
      delete_directory_gap, counter_gap_superblock, set_permissions_superblock,
      add_acl_entry_superblock, remove_acl_entry_superblock,
      add_journal_entry_superblock, init_journal_superblock.
  apply replay_from_gap.
Qed.

Lemma run_calls_gap (cs : list Call) (st : FS) :
  counter_gap (run_calls st cs) = counter_gap st.
Proof.
  revert st. induction cs as [|c cs IH]; intros st; simpl; [done|].
  unfold run_calls in IH. by rewrite IH, run_call_gap.
Qed.

(** The parts of the allocator contract that the two primitives keep:
    if the counter agrees with the bitmap before a call it agrees after
    it, a returned index was free, and free plus used is the total. *)

Lemma allocate_block_preserves_equality (st : FS) :
  free_blocks (superblock st) = count_free (free_block_bitmap (superblock st)) →
  let st' := fst (allocate_block st) in
  free_blocks (superblock st') = count_free (free_block_bitmap (superblock st')).
Proof.
  intros Heq. pose proof (allocate_block_gap st) as Hg.
  unfold counter_gap in Hg. simpl. lia.
Qed.

Lemma free_block_preserves_equality (b : Z) (st : FS) :
  free_blocks (superblock st) = count_free (free_block_bitmap (superblock st)) →
  let st' := free_block b st in
  free_blocks (superblock st') = count_free (free_block_bitmap (superblock st')).
Proof.
  intros Heq. pose proof (free_block_gap b st) as Hg.
  unfold counter_gap in Hg. simpl. lia.
Qed.

Lemma allocate_block_returns_free (st st' : FS) (i : Z) :
  allocate_block st = (st', i) →
  i ≠ -1 →
  0 ≤ i < NUM_BLOCKS
  ∧ free_block_bitmap (superblock st) !! Z.to_nat i = Some 0
  ∧ free_block_bitmap (superblock st') !! Z.to_nat i = Some 1.
Proof.
  unfold allocate_block. intros Ha Hi.
  destruct (first_free_block _) as [k|] eqn:E; simplify_eq/=.
  apply first_free_block_Some in E as (Hk & Hx & _).
  rewrite Nat2Z.id. split_and!; [lia|unfold NUM_BLOCKS in *; lia|done|].
  apply list_lookup_insert_eq. by eapply lookup_lt_Some.
Qed.

Lemma allocate_block_exhausted (st st' : FS) :
  allocate_block st = (st', -1) →
  st' = st ∧ count_free (free_block_bitmap (superblock st)) = 0.
Proof.
  unfold allocate_block. intros Ha.
  destruct (first_free_block _) as [k|] eqn:E; simplify_eq/=; [lia|].
  split; [done|]. by apply first_free_block_None.
Qed.

Lemma count_free_used_total (bitmap : list Z) :
  length bitmap = Z.to_nat NUM_BLOCKS →
  count_free bitmap + count_used bitmap = NUM_BLOCKS.
Proof.
  intros Hlen. unfold count_free, count_used.
  pose proof (filter_length_complement (λ b : Z, b = 0)
                (take (Z.to_nat NUM_BLOCKS) bitmap)) as Hc.
  rewrite length_take_ge in Hc by lia. unfold NUM_BLOCKS in *. lia.
Qed.

Lemma free_block_idempotent (b : Z) (st : FS) :
  free_block b (free_block b st) = free_block b st.
Proof.
  unfold free_block at 2.
  destruct (_ || _) eqn:Hrange; [by unfold free_block; rewrite Hrange|].
  destruct (_ =? 1) eqn:H1; [|by unfold free_block; rewrite Hrange, H1].
  unfold free_block. rewrite Hrange.
  apply orb_false_iff in Hrange as [H0 Hn].
  unfold nth_Z in *. rewrite H0 in *. simpl.
  destruct (free_block_bitmap (superblock st) !! Z.to_nat b) as [x|] eqn:Hx;
    simpl in *; [|done].
  rewrite list_lookup_insert_eq by (by eapply lookup_lt_Some).
  by rewrite H1.
Qed.

(** C1 (as the code has it).  [init_file_system] stores [NUM_BLOCKS - 1]
    in [free_blocks] while it clears all [NUM_BLOCKS] bitmap words, and
    every call moves the counter and the bitmap together: in every state
    reached from a fresh initialisation, whatever the calls, the bitmap
    marks one more block free than [free_blocks] says, so the equality
    [free_blocks == count(bitmap == free)] holds in none of them. *)
Theorem free_blocks_one_short_of_bitmap (h : Host) (cs : list Call) :
  let st := run_calls (init_file_system None h) cs in
  count_free (free_block_bitmap (superblock st)) = free_blocks (superblock st) + 1
  ∧ free_blocks (superblock (init_file_system None h)) = NUM_BLOCKS - 1
  ∧ count_free (free_block_bitmap (superblock (init_file_system None h)))
    = NUM_BLOCKS.
Proof.
  intros st.
  assert (counter_gap (init_file_system None h) = -1) as Hi by by vm_compute.
  pose proof (run_calls_gap cs (init_file_system None h)) as Hg.
  rewrite Hi in Hg. unfold counter_gap in Hg. fold st in Hg.
  split_and!; [lia|by vm_compute..].
Qed.

(** ** Permission resolution *)

Lemma inode_in_range_spec (n : Z) :
  inode_in_range n = true ↔ 0 ≤ n < INODE_TABLE_SIZE.
Proof. unfold inode_in_range. lia. Qed.

Lemma get_inode_lookup (n : Z) (st : FS) (ino : Inode) :
  0 ≤ n → inode_table st !! Z.to_nat n = Some ino → get_inode n st = ino.
Proof.
  intros Hn Hl. unfold get_inode, nth_Z.
  destruct (n <? 0) eqn:E; [lia|]. by rewrite Hl.
Qed.

Lemma get_inode_update_inode (n : Z) (f : Inode → Inode) (st : FS) :
  0 ≤ n → (Z.to_nat n < length (inode_table st))%nat →
  get_inode n (update_inode n f st) = f (get_inode n st).
Proof.
  intros Hn Hlen. destruct (lookup_lt_is_Some_2 _ _ Hlen) as [ino Hino].
  rewrite (get_inode_lookup n st ino) by done.
  apply get_inode_lookup; [done|]. simpl.
  by rewrite list_lookup_alter_eq, Hino.
Qed.

Lemma get_inode_update_inode_ne (n m : Z) (f : Inode → Inode) (st : FS) :
  0 ≤ n → 0 ≤ m → n ≠ m →
  get_inode m (update_inode n f st) = get_inode m st.
Proof.
  intros Hn Hm Hne. unfold get_inode, nth_Z, update_inode. simpl.
  rewrite list_lookup_alter_ne by lia. done.
Qed.

Lemma land_covers (granted requested : Z) :
  Z.land granted requested = requested ↔ covers granted requested.
Proof.
  unfold covers. split.
  - intros Heq k Hk Hr. rewrite <- Heq in Hr.
    rewrite Z.land_spec in Hr. by apply andb_true_iff in Hr as [? _].
  - intros Hc. apply Z.bits_inj'. intros k Hk. rewrite Z.land_spec.
    destruct (Z.testbit requested k) eqn:E.
    + by rewrite (Hc k Hk E).
    + by rewrite andb_false_r.
Qed.

Lemma shift_mask_class (md sh : Z) :
  0 ≤ sh →
  Z.land (Z.shiftr md sh) 7 = Z.land md (Z.shiftl 7 sh) / 2 ^ sh.
Proof.
  intros Hsh. rewrite <- Z.shiftr_div_pow2 by done.
  apply Z.bits_inj'. intros k Hk.
  rewrite Z.land_spec, !Z.shiftr_spec, Z.land_spec by done.
  f_equal. rewrite Z.shiftl_spec by lia. f_equal. lia.
Qed.

Lemma base_permissions_class_bits (ino : Inode) (uid : Z) :
  base_permissions ino uid = class_bits (mode ino) (identity_class ino uid).
Proof.
  unfold base_permissions, identity_class.
  destruct (Z.eqb_spec uid (owner_id ino)) as [->|Ho].
  - rewrite decide_True by done. apply (shift_mask_class _ 6). lia.
  - rewrite decide_False by done.
    destruct (Z.eqb_spec uid (group_id ino)) as [->|Hg].
    + rewrite decide_True by done. apply (shift_mask_class _ 3). lia.
    + by rewrite decide_False.
Qed.

Lemma get_acl_permissions_found (n uid : Z) (st : FS) (e : ACL_Entry) :
  inode_in_range n = true →
  acl_found (get_inode n st) uid e →
  get_acl_permissions n uid st = permissions e.
Proof.
  intros Hr (i & Hi & Hu & Hmin). unfold get_acl_permissions. rewrite Hr. simpl.
  assert (list_find (λ e, user_id e = uid) (acl_entries (get_inode n st))
          = Some (i, e)) as ->; [|done].
  apply list_find_Some. split_and!; [done..|]. intros j y Hy Hj. by eapply Hmin.
Qed.

Lemma get_acl_permissions_absent (n uid : Z) (st : FS) :
  acl_absent (get_inode n st) uid →
  get_acl_permissions n uid st = 0.
Proof.
  intros Ha. unfold get_acl_permissions. case_match; [done|].
  assert (list_find (λ e, user_id e = uid) (acl_entries (get_inode n st))
          = None) as ->; [|done].
  apply list_find_None, Forall_forall. intros e He. by apply Ha.
Qed.

Lemma has_permission_spec (n uid req : Z) (st : FS) (bits : Z) :
  inode_in_range n = true →
  get_acl_permissions n uid st = bits →
  (has_permission n uid req st = 1
   ↔ covers (Z.lor (class_bits (mode (get_inode n st))
                               (identity_class (get_inode n st) uid)) bits) req)
  ∧ (has_permission n uid req st = 1 ∨ has_permission n uid req st = 0).
Proof.
  intros Hr Hb. unfold has_permission. rewrite Hr, Hb. simpl.
  rewrite base_permissions_class_bits, <- land_covers.
  destruct (Z.eqb_spec (Z.land (Z.lor (class_bits (mode (get_inode n st))
              (identity_class (get_inode n st) uid)) bits) req) req);
    split; try tauto; split; intros; try done; lia.
Qed.

Lemma acl_entries_add (uid perms : Z) (ino : Inode) :
  0 ≤ acl_count ino →
  (Z.to_nat (acl_count ino) < length (acl ino))%nat →
  acl_entries (inode_add_acl uid perms ino)
  = acl_entries ino ++ [mkACL uid perms].
Proof.
  intros H0 Hlt. unfold acl_entries, inode_add_acl. simpl.
  replace (Z.to_nat (acl_count ino + 1)) with (S (Z.to_nat (acl_count ino))) by lia.
  rewrite (take_S_r _ _ (mkACL uid perms))
    by (by apply list_lookup_insert_eq).
  by rewrite take_insert_ge by lia.
Qed.

Lemma add_acl_entry_accepted (n uid perms : Z) (st : FS) :
  inode_in_range n = true →
  acl_count (get_inode n st) < MAX_ACL_ENTRIES →
  invalid_permission_bits perms = false →
  add_acl_entry n uid perms st = update_inode n (inode_add_acl uid perms) st.
Proof.
  intros Hr Hc Hp. unfold add_acl_entry. rewrite Hr, Hp. simpl.
  destruct (Z.geb_spec (acl_count (get_inode n st)) MAX_ACL_ENTRIES); [lia|done].
Qed.

Lemma base_permissions_0644_stranger (ino : Inode) :
  mode ino = 420 → owner_id ino = 11 → base_permissions ino 99 = 4.
Proof.
  intros Hm Ho. unfold base_permissions. rewrite Hm, Ho.
  change (99 =? 11) with false. cbv iota.
  by destruct (99 =? group_id ino).
Qed.

(** C3.  For an inode number in range, [has_permission] answers 1 exactly
    when the class bits chosen by identity (owner, else group, else
    other), ORed with the permissions of the ACL entry found for that
    user id when there is one, cover every requested bit, and 0
    otherwise.  On an inode of mode 0644 owned by user 11 whose ACL has
    room and no entry for user 99, WRITE is refused to user 99, and
    granted once [add_acl_entry] has recorded WRITE for user 99. *)
Theorem has_permission_resolves (n uid req : Z) (st : FS) :
  0 ≤ n < INODE_TABLE_SIZE →
  table_shape st →
  let ino := get_inode n st in
  let base := class_bits (mode ino) (identity_class ino uid) in
  (∀ e, acl_found ino uid e →
        (has_permission n uid req st = 1
         ↔ covers (Z.lor base (permissions e)) req))
  ∧ (acl_absent ino uid → (has_permission n uid req st = 1 ↔ covers base req))
  ∧ (has_permission n uid req st = 1 ∨ has_permission n uid req st = 0)
  ∧ (mode ino = 420 → owner_id ino = 11 → acl_absent ino 99 →
     0 ≤ acl_count ino < MAX_ACL_ENTRIES →
     length (acl ino) = Z.to_nat MAX_ACL_ENTRIES →
     has_permission n 99 PERMISSION_WRITE st = 0
     ∧ has_permission n 99 PERMISSION_WRITE
         (add_acl_entry n 99 PERMISSION_WRITE st) = 1).
Proof.
  intros Hn Hshape ino base.
  assert (inode_in_range n = true) as Hr by by apply inode_in_range_spec.
  split_and!.
  - intros e He.
    apply (has_permission_spec n uid req st (permissions e) Hr).
    by apply get_acl_permissions_found.
  - intros Ha.
    destruct (has_permission_spec n uid req st 0 Hr) as [Hiff _].
    { by apply get_acl_permissions_absent. }
    by rewrite Z.lor_0_r in Hiff.
  - by eapply has_permission_spec.
  - subst ino base. intros Hm Ho Ha Hc Hlen. split.
    + unfold has_permission. rewrite Hr. simpl.
      rewrite get_acl_permissions_absent by done.
      by rewrite base_permissions_0644_stranger.
    + rewrite add_acl_entry_accepted by (done || lia).
      unfold has_permission, get_acl_permissions. rewrite Hr. simpl.
      rewrite get_inode_update_inode;
        [|lia|unfold table_shape, INODE_TABLE_SIZE in *; lia].
      rewrite acl_entries_add by (unfold MAX_ACL_ENTRIES in *; lia).
      rewrite list_find_app_r
        by (apply list_find_None, Forall_forall; intros e He; by apply Ha).
      rewrite base_permissions_0644_stranger by done.
      done.
Qed.

Lemma has_permission_resolves_witness :
  let st := fst (create_inode 0 420 11 10 1700000000
                   (init_file_system None empty_host)) in
  has_permission 0 99 PERMISSION_WRITE st = 0
  ∧ has_permission 0 99 PERMISSION_WRITE
      (add_acl_entry 0 99 PERMISSION_WRITE st) = 1.
Proof.
  intros st.
  refine (proj2 (proj2 (proj2
            (has_permission_resolves 0 99 PERMISSION_WRITE st _ _))) _ _ _ _ _).
  - by vm_compute.
  - by vm_compute.
  - reflexivity.
  - reflexivity.
  - intros e He. vm_compute in He. by apply elem_of_nil in He.
  - by vm_compute.
  - reflexivity.
Defined.

(** ** Inode allocation *)

Lemma first_free_inode_Some (t : list Inode) (i : nat) (old : Inode) :
  first_free_inode t = Some (i, old) ↔
  first_zero_size_slot t i ∧ t !! i = Some old.
Proof.
  unfold first_free_inode, first_zero_size_slot. rewrite list_find_Some. split.
  - intros (Hi & Hs & Hmin). apply lookup_take_Some in Hi as [Hi Hlt].
    split_and!; [done|by exists old|..|done].
    intros j ino Hj Hino. apply (Hmin j ino); [|done].
    by rewrite lookup_take_lt by lia.
  - intros ((Hlt & (ino & Hino & Hs) & Hmin) & Hold). simplify_eq.
    split_and!; [by rewrite lookup_take_lt|done|].
    intros j y Hy Hj. apply lookup_take_Some in Hy as [Hy _]. by eapply Hmin.
Qed.

Lemma first_free_inode_None (t : list Inode) :
  first_free_inode t = None ↔ no_zero_size_slot t.
Proof.
  unfold first_free_inode, no_zero_size_slot.
  rewrite list_find_None, Forall_lookup. split.
  - intros H i ino Hi Hino. apply (H i ino). by rewrite lookup_take_lt.
  - intros H i ino Hino. apply lookup_take_Some in Hino as [Hino Hlt].
    by eapply H.
Qed.

Lemma create_inode_refused (d m o g now : Z) (st : FS) :
  free_inode_count (superblock st) = 0 ∨ no_zero_size_slot (inode_table st) →
  create_inode d m o g now st = (st, -1).
Proof.
  unfold create_inode. intros [->|Hnone]; [done|].
  apply first_free_inode_None in Hnone as ->. by case_match.
Qed.

Lemma create_inode_granted (d m o g now : Z) (st : FS) (i : nat) (old : Inode) :
  free_inode_count (superblock st) ≠ 0 →
  first_zero_size_slot (inode_table st) i →
  inode_table st !! i = Some old →
  create_inode d m o g now st
  = (with_superblock (sb_take_inode (superblock st))
       (with_inode_table
          (<[ i := fresh_inode d m o g now old ]> (inode_table st)) st),
     Z.of_nat i).
Proof.
  intros Hc Hfirst Hold. unfold create_inode.
  destruct (Z.eqb_spec (free_inode_count (superblock st)) 0); [done|].
  by rewrite (proj2 (first_free_inode_Some _ i old)).
Qed.

Lemma fresh_inode_initialised (d m o g now : Z) (old : Inode) :
  initialised_inode d m o g now (fresh_inode d m o g now old).
Proof.
  unfold initialised_inode, fresh_inode, acl_entries.
  split_and!; try done. intros b Hb. cbn [direct_blocks] in Hb.
  by apply elem_of_replicate in Hb as [-> _].
Qed.

Lemma first_zero_size_slot_after_create (t : list Inode) (i : nat)
    (d m o g now : Z) (old : Inode) :
  first_zero_size_slot t i → t !! i = Some old →
  first_zero_size_slot (<[ i := fresh_inode d m o g now old ]> t) i.
Proof.
  intros (Hlt & _ & Hmin) Hold. split_and!; [done|..].
  - exists (fresh_inode d m o g now old). split; [|done].
    apply list_lookup_insert_eq. by eapply lookup_lt_Some.
  - intros j ino Hj Hino. rewrite list_lookup_insert_ne in Hino by lia.
    by eapply Hmin.
Qed.

(** C5.  [create_inode] answers -1 and changes nothing when the
    free-inode count is 0 or no slot has size 0; otherwise it hands out
    the first slot of size 0, with every field initialised (the three
    timestamps to the current time, every direct block reference and the
    index block to -1, the ACL empty), takes one off the free-inode
    count and leaves the other slots alone.  On a freshly initialised
    table the call of the scenario returns inode 0, releasing inode 0
    leaves its size 0 and its block references unset, and the next call
    returns inode 0 again. *)
Theorem create_inode_contract (d m o g now : Z) (st : FS) :
  (free_inode_count (superblock st) = 0 ∨ no_zero_size_slot (inode_table st) →
   create_inode d m o g now st = (st, -1))
  ∧ (∀ i, free_inode_count (superblock st) ≠ 0 →
          first_zero_size_slot (inode_table st) i →
          ∃ st' ino,
            create_inode d m o g now st = (st', Z.of_nat i)
            ∧ inode_table st' !! i = Some ino
            ∧ initialised_inode d m o g now ino
            ∧ free_inode_count (superblock st')
              = free_inode_count (superblock st) - 1
            ∧ ∀ j, j ≠ i → inode_table st' !! j = inode_table st !! j)
  ∧ (∀ h now1 now2 now3,
       let '(st1, r1) :=
         create_inode 0 511 11 10 now1 (init_file_system None h) in
       let st2 := release_inode 0 now2 st1 in
       r1 = 0
       ∧ i_size (get_inode 0 st2) = 0
       ∧ direct_blocks (get_inode 0 st2) = replicate (Z.to_nat DIRECT_BLOCKS) (-1)
       ∧ index_block (get_inode 0 st2) = -1
       ∧ snd (create_inode 0 511 11 10 now3 st2) = 0).
Proof.
  split_and!.
  - apply create_inode_refused.
  - intros i Hc Hfirst.
    destruct Hfirst as (Hlt & (old & Hold & Hs) & Hmin).
    assert (first_zero_size_slot (inode_table st) i) as Hfirst
      by (split_and!; [done|by exists old|done]).
    eexists _, _. split_and!.
    + by apply create_inode_granted.
    + simpl. apply list_lookup_insert_eq. by eapply lookup_lt_Some.
    + apply fresh_inode_initialised.
    + done.
    + intros j Hj. simpl. by rewrite list_lookup_insert_ne.
  - intros h now1 now2 now3. by vm_compute.
Qed.

Lemma create_inode_contract_witness :
  let st := init_file_system None empty_host in
  let full := after_creates 128 st in
  create_inode 0 511 11 10 1700000000 full = (full, -1)
  ∧ ∃ st' ino,
      create_inode 0 511 11 10 1700000000 st = (st', 0)
      ∧ inode_table st' !! 0%nat = Some ino
      ∧ initialised_inode 0 511 11 10 1700000000 ino
      ∧ free_inode_count (superblock st') = free_inode_count (superblock st) - 1
      ∧ ∀ j, j ≠ 0%nat → inode_table st' !! j = inode_table st !! j.
Proof.
  intros st full. split.
  - apply (proj1 (create_inode_contract 0 511 11 10 1700000000 full)).
    left. by vm_compute.
  - apply (proj1 (proj2 (create_inode_contract 0 511 11 10 1700000000 st)) 0%nat).
    + by vm_compute.
    + split_and!.
      * vm_compute. lia.
      * by exists zero_inode.
      * intros j ino Hj. lia.
Defined.

(** C6, as stated, fails.  After 127 allocations on a fresh table slot 0
    still has size 0 and the free-inode count is 1: the first of two
    calls returns slot 0, the second finds the count at 0 and returns
    -1. *)
Lemma double_create_counterexample :
  let st := after_creates 127 (init_file_system None empty_host) in
  first_zero_size_slot (inode_table st) 0
  ∧ ¬ double_create_same_slot 0 511 11 10 1700000000 st.
Proof.
  intros st. split.
  - split_and!.
    + vm_compute. lia.
    + eexists. split; [by vm_compute|done].
    + intros j ino Hj. lia.
  - unfold double_create_same_slot.
    assert (snd (create_inode 0 511 11 10 1700000000 st) = 0) as H1
      by by vm_compute.
    assert (snd (create_inode 0 511 11 10 1700000000
                   (fst (create_inode 0 511 11 10 1700000000 st))) = -1) as H2
      by by vm_compute.
    destruct (create_inode 0 511 11 10 1700000000 st) as [st1 r1].
    simpl in H1, H2.
    destruct (create_inode 0 511 11 10 1700000000 st1) as [st2 r2].
    simpl in H2. lia.
Qed.

(** C6, amended.  The slot [create_inode] hands out keeps size 0, so it is
    still the first slot of size 0 afterwards; when the free-inode count
    is neither 0 nor 1, two calls in a row return the same slot index and
    each takes one off the count. *)
Theorem double_create_same_slot_when_count_allows
    (d m o g now : Z) (st : FS) (i : nat) :
  first_zero_size_slot (inode_table st) i →
  free_inode_count (superblock st) ≠ 0 →
  free_inode_count (superblock st) ≠ 1 →
  first_zero_size_slot
    (inode_table (fst (create_inode d m o g now st))) i
  ∧ i_size (get_inode (Z.of_nat i) (fst (create_inode d m o g now st))) = 0
  ∧ snd (create_inode d m o g now st) = Z.of_nat i
  ∧ double_create_same_slot d m o g now st.
Proof.
  intros Hfirst H0 H1.
  pose proof Hfirst as (Hlt & (old & Hold & Hs) & Hmin).
  unfold double_create_same_slot.
  rewrite (create_inode_granted d m o g now st i old) by done.
  set (st1 := with_superblock _ _).
  assert (first_zero_size_slot (inode_table st1) i) as Hfirst1
    by by apply first_zero_size_slot_after_create.
  assert (inode_table st1 !! i = Some (fresh_inode d m o g now old)) as Hnew.
  { simpl. apply list_lookup_insert_eq. by eapply lookup_lt_Some. }
  rewrite (create_inode_granted d m o g now st1 i _) by (done || simpl; lia).
  simpl. split_and!; try done; try lia.
  unfold get_inode, nth_Z.
  destruct (Z.of_nat i <? 0) eqn:E; [lia|].
  rewrite Nat2Z.id. simpl. rewrite list_lookup_insert_eq; [done|].
  by eapply lookup_lt_Some.
Qed.

Lemma double_create_same_slot_when_count_allows_witness :
  let st := init_file_system None empty_host in
  snd (create_inode 0 511 11 10 1700000000 st) = 0
  ∧ double_create_same_slot 0 511 11 10 1700000000 st.
Proof.
  intros st.
  refine (proj2 (proj2
            (double_create_same_slot_when_count_allows
               0 511 11 10 1700000000 st 0 _ _ _))).
  - split_and!.
    + vm_compute. lia.
    + by exists zero_inode.
    + intros j ino Hj. lia.
  - by vm_compute.
  - by vm_compute.
Defined.

(** ** Setting the mode *)

Lemma permission_mask_complement_bits (k : Z) :
  3 ≤ k < 32 → Z.testbit permission_mask_complement k = true.
Proof.
  intros Hk. unfold permission_mask_complement.
  rewrite Z.mod_pow2_bits_low by lia.
  rewrite Z.lnot_spec by lia.
  change (Z.lor PERMISSION_READ (Z.lor PERMISSION_WRITE PERMISSION_EXECUTE))
    with 7.
  rewrite Z.bits_above_log2; [done|lia|]. change (Z.log2 7) with 2. lia.
Qed.

Lemma invalid_permission_bits_spec (perms : Z) :
  is_uint perms →
  invalid_permission_bits perms = true ↔ 7 < perms.
Proof.
  intros [H0 H32]. unfold invalid_permission_bits.
  rewrite negb_true_iff, Z.eqb_neq. split.
  - intros Hne. destruct (decide (perms ≤ 7)) as [Hle|]; [|lia].
    exfalso. apply Hne.
    rewrite <- (Z.mod_small perms (2 ^ 3)) by lia.
    rewrite <- Z.land_ones by lia.
    rewrite <- Z.land_assoc.
    change (Z.land (Z.ones 3) permission_mask_complement) with 0.
    apply Z.land_0_r.
  - intros Hgt Heq.
    assert (Z.testbit (Z.land perms permission_mask_complement)
                      (Z.log2 perms) = true) as Hbit.
    { rewrite Z.land_spec, Z.bit_log2 by lia.
      rewrite permission_mask_complement_bits; [done|].
      split.
      - apply Z.log2_le_pow2; [lia|]. simpl. lia.
      - apply Z.log2_lt_pow2; lia. }
    rewrite Heq, Z.bits_0 in Hbit. done.
Qed.

(** C9, as stated, fails.  0644 is a valid 9-bit mode and inode 0 is in
    range, yet [set_permissions] leaves the mode of inode 0 as it was. *)
Lemma set_permissions_rejects_0644 :
  let st := init_file_system None empty_host in
  nine_bit_mode 420 ∧ inode_in_range 0 = true
  ∧ set_permissions 0 420 st = st
  ∧ mode (get_inode 0 (set_permissions 0 420 st)) ≠ 420.
Proof. by vm_compute. Qed.

(** C9, amended.  [set_permissions] leaves the state as it is whenever
    the inode number is out of range or the value has a bit outside the
    low three (read 4, write 2, execute 1), that is whenever the value
    exceeds 7, even when it is a valid 9-bit mode; for a value from 0 to 7
    and an inode number in range it stores the value in the mode field of
    that inode and changes nothing else. *)
Theorem set_permissions_three_bit_only (n perms : Z) (st : FS) :
  is_uint perms →
  table_shape st →
  (¬ 0 ≤ n < INODE_TABLE_SIZE ∨ 7 < perms → set_permissions n perms st = st)
  ∧ (0 ≤ n < INODE_TABLE_SIZE → perms ≤ 7 →
     set_permissions n perms st = update_inode n (inode_set_mode perms) st
     ∧ get_inode n (set_permissions n perms st)
       = inode_set_mode perms (get_inode n st)
     ∧ mode (get_inode n (set_permissions n perms st)) = perms
     ∧ ∀ j, j ≠ Z.to_nat n →
            inode_table (set_permissions n perms st) !! j = inode_table st !! j).
Proof.
  intros Hu Hshape. unfold set_permissions. split.
  - intros [Hn|Hp].
    + rewrite <- inode_in_range_spec in Hn.
      by destruct (inode_in_range n).
    + apply invalid_permission_bits_spec in Hp as ->; [|done].
      by destruct (inode_in_range n).
  - intros Hn Hp.
    rewrite (proj2 (inode_in_range_spec n)) by done.
    destruct (invalid_permission_bits perms) eqn:E.
    { apply invalid_permission_bits_spec in E; [lia|done]. }
    simpl. split_and!; [done|..].
    + apply get_inode_update_inode;
        [lia|unfold table_shape, INODE_TABLE_SIZE in *; lia].
    + rewrite get_inode_update_inode;
        [done|lia|unfold table_shape, INODE_TABLE_SIZE in *; lia].
    + intros j Hj. by rewrite list_lookup_alter_ne.
Qed.

Lemma set_permissions_three_bit_only_witness :
  let st := init_file_system None empty_host in
  set_permissions 0 420 st = st
  ∧ mode (get_inode 0 (set_permissions 0 5 st)) = 5.
Proof.
  intros st. split.
  - apply (proj1 (set_permissions_three_bit_only 0 420 st
                    ltac:(by vm_compute) ltac:(by vm_compute))).
    right. lia.
  - apply (proj2 (set_permissions_three_bit_only 0 5 st
                    ltac:(by vm_compute) ltac:(by vm_compute))).
    + by vm_compute.
    + lia.
Defined.

(** ** ACL entries *)

Lemma memmove_down_take {A} (a : list A) (i c : nat) :
  (i < c)%nat → (c ≤ length a)%nat →
  take (c - 1) (memmove_down i (c - i - 1) a) = delete i (take c a).
Proof.
  intros Hi Hc. unfold memmove_down.
  rewrite app_assoc, take_app_length'.
  - rewrite delete_take_drop, take_take, Nat.min_l by lia.
    f_equal. rewrite take_drop_commute. do 2 f_equal. lia.
  - rewrite length_app, !length_take, length_drop. lia.
Qed.

Lemma acl_entries_remove (uid : Z) (ino : Inode) (i : nat) (e : ACL_Entry) :
  acl_shape ino →
  list_find (λ e, user_id e = uid) (acl_entries ino) = Some (i, e) →
  acl_entries (inode_remove_acl uid ino) = delete i (acl_entries ino).
Proof.
  intros [Hc Hlen] Hfind. unfold inode_remove_acl. rewrite Hfind.
  apply list_find_Some in Hfind as (Hi & _).
  apply lookup_take_Some in Hi as [_ Hi].
  unfold acl_entries. simpl.
  replace (Z.to_nat (acl_count ino - 1)) with (Z.to_nat (acl_count ino) - 1)%nat
    by lia.
  replace (Z.to_nat (acl_count ino - Z.of_nat i - 1))
    with (Z.to_nat (acl_count ino) - i - 1)%nat by lia.
  apply memmove_down_take; [done|]. unfold MAX_ACL_ENTRIES in *. lia.
Qed.

Lemma inode_remove_acl_unique (uid : Z) (ino : Inode) :
  acl_shape ino → acl_unique ino → acl_unique (inode_remove_acl uid ino).
Proof.
  intros Hshape Hu. unfold acl_unique, acl_user_ids in *.
  destruct (list_find (λ e, user_id e = uid) (acl_entries ino))
    as [[i e]|] eqn:E.
  - rewrite (acl_entries_remove uid ino i e) by done.
    eapply sublist_NoDup; [exact Hu|].
    apply fmap_sublist, sublist_delete.
  - unfold inode_remove_acl. by rewrite E.
Qed.

Lemma inode_add_acl_unique (uid perms : Z) (ino : Inode) :
  acl_shape ino → acl_count ino < MAX_ACL_ENTRIES →
  acl_absent ino uid → acl_unique ino →
  acl_unique (inode_add_acl uid perms ino).
Proof.
  intros [Hc Hlen] Hroom Habs Hu. unfold acl_unique, acl_user_ids in *.
  rewrite acl_entries_add by (unfold MAX_ACL_ENTRIES in *; lia).
  rewrite fmap_app. apply NoDup_app. split_and!; [done|..].
  - intros x Hx Hx'. apply list_elem_of_singleton in Hx'. subst x.
    apply list_elem_of_fmap in Hx as (e & He & Hin). by apply (Habs e).
  - apply NoDup_singleton.
Qed.

Lemma inode_add_acl_duplicate (uid perms : Z) (ino : Inode) :
  acl_shape ino → acl_count ino < MAX_ACL_ENTRIES →
  ¬ acl_absent ino uid →
  ¬ acl_unique (inode_add_acl uid perms ino).
Proof.
  intros [Hc Hlen] Hroom Hpres Hu. unfold acl_unique, acl_user_ids in *.
  rewrite acl_entries_add in Hu by (unfold MAX_ACL_ENTRIES in *; lia).
  rewrite fmap_app in Hu. apply NoDup_app in Hu as (_ & Hdisj & _).
  apply Hpres. intros e He Heq. apply (Hdisj uid).
  - apply list_elem_of_fmap. by exists e.
  - apply list_elem_of_singleton. done.
Qed.

(** C8, as stated, fails.  [add_acl_entry] does not look for an existing
    entry: called twice for user 99 on a freshly created inode it leaves
    two entries for user 99. *)
Lemma add_acl_entry_duplicates_user :
  let st := fst (create_inode 0 420 11 10 1700000000
                   (init_file_system None empty_host)) in
  let st1 := add_acl_entry 0 99 PERMISSION_READ st in
  let st2 := add_acl_entry 0 99 PERMISSION_WRITE st1 in
  acl_unique (get_inode 0 st1)
  ∧ acl_user_ids (get_inode 0 st2) = [99; 99]
  ∧ ¬ acl_unique (get_inode 0 st2).
Proof.
  intros st st1 st2.
  assert (acl_user_ids (get_inode 0 st1) = [99]) as H1 by by vm_compute.
  assert (acl_user_ids (get_inode 0 st2) = [99; 99]) as H2 by by vm_compute.
  unfold acl_unique. rewrite H1, H2. split_and!; [|done|].
  - apply NoDup_singleton.
  - intros [Hn _]%NoDup_cons. apply Hn, list_elem_of_singleton. done.
Qed.

(** C8, amended.  [add_acl_entry] appends without looking for an existing
    entry, so uniqueness of the user ids in an inode's ACL is kept by
    [remove_acl_entry] always, and by [add_acl_entry] exactly when the
    call is refused or the user id is not yet in that ACL; an accepted
    [add_acl_entry] for a user id already present leaves two entries for
    that user.  A call is refused, whoever the user is, when the inode
    number is out of range, the ACL is full or the permission value has
    a bit outside the three: it then changes nothing. *)
Theorem acl_unique_kept_unless_duplicate_add (n m uid perms : Z) (st : FS) :
  table_shape st →
  acl_shape (get_inode n st) →
  0 ≤ m →
  acl_unique (get_inode m st) →
  acl_unique (get_inode m (remove_acl_entry n uid st))
  ∧ (acl_absent (get_inode n st) uid →
     acl_unique (get_inode m (add_acl_entry n uid perms st)))
  ∧ (inode_in_range n = true →
     acl_count (get_inode n st) < MAX_ACL_ENTRIES →
     invalid_permission_bits perms = false →
     ¬ acl_absent (get_inode n st) uid →
     ¬ acl_unique (get_inode n (add_acl_entry n uid perms st)))
  ∧ (inode_in_range n = false
     ∨ MAX_ACL_ENTRIES ≤ acl_count (get_inode n st)
     ∨ invalid_permission_bits perms = true →
     add_acl_entry n uid perms st = st
     ∧ acl_unique (get_inode m (add_acl_entry n uid perms st)))
  ∧ (inode_in_range n = true →
     acl_count (get_inode n st) < MAX_ACL_ENTRIES →
     invalid_permission_bits perms = false →
     acl_entries (get_inode n (add_acl_entry n uid perms st))
     = acl_entries (get_inode n st) ++ [mkACL uid perms]
     ∧ acl_user_ids (get_inode n (add_acl_entry n uid perms st))
       = acl_user_ids (get_inode n st) ++ [uid])
  ∧ (inode_in_range n = true →
     ∀ i e,
       list_find (λ e, user_id e = uid) (acl_entries (get_inode n st))
       = Some (i, e) →
       acl_entries (get_inode n (remove_acl_entry n uid st))
       = delete i (acl_entries (get_inode n st))).
Proof.
  intros Htable Hshape Hm Hu.
  assert (∀ f, inode_in_range n = true →
               (n = m → acl_unique (f (get_inode m st))) →
               acl_unique (get_inode m (update_inode n f st))) as Hupd.
  { intros f Hr%inode_in_range_spec Hf.
    destruct (decide (n = m)) as [->|Hne].
    - rewrite get_inode_update_inode;
        [by apply Hf|lia|unfold table_shape, INODE_TABLE_SIZE in *; lia].
    - rewrite get_inode_update_inode_ne by lia. done. }
  split_and!.
  - unfold remove_acl_entry.
    destruct (inode_in_range n) eqn:Hr; simpl; [|done].
    apply Hupd; [done|]. intros ->. by apply inode_remove_acl_unique.
  - intros Habs. unfold add_acl_entry.
    destruct (inode_in_range n) eqn:Hr; simpl; [|done].
    destruct (Z.geb_spec (acl_count (get_inode n st)) MAX_ACL_ENTRIES); [done|].
    destruct (invalid_permission_bits perms); [done|].
    apply Hupd; [done|]. intros ->. by apply inode_add_acl_unique.
  - intros Hr Hroom Hvalid Hpres.
    rewrite add_acl_entry_accepted by done.
    apply inode_in_range_spec in Hr.
    rewrite get_inode_update_inode;
      [|lia|unfold table_shape, INODE_TABLE_SIZE in *; lia].
    by apply inode_add_acl_duplicate.
  - intros Hrefused.
    assert (add_acl_entry n uid perms st = st) as Hsame.
    { unfold add_acl_entry. destruct Hrefused as [-> | [Hfull | ->]].
      - done.
      - destruct (inode_in_range n); [|done]. cbn [negb].
        by rewrite (proj2 (Z.geb_le _ _) Hfull).
      - destruct (inode_in_range n); [|done]. cbn [negb]. by case_match. }
    by rewrite Hsame.
  - intros Hr Hroom Hvalid.
    rewrite add_acl_entry_accepted by done.
    apply inode_in_range_spec in Hr.
    rewrite get_inode_update_inode;
      [|lia|unfold table_shape, INODE_TABLE_SIZE in *; lia].
    destruct Hshape as [Hcount Hlen].
    assert (acl_entries (inode_add_acl uid perms (get_inode n st))
            = acl_entries (get_inode n st) ++ [mkACL uid perms]) as Hadd.
    { apply acl_entries_add; [lia|].
      rewrite Hlen. unfold MAX_ACL_ENTRIES in *. lia. }
    split; [exact Hadd|]. unfold acl_user_ids. by rewrite Hadd, fmap_app.
  - intros Hr i e Hfind. unfold remove_acl_entry. rewrite Hr. cbn [negb].
    apply inode_in_range_spec in Hr.
    rewrite get_inode_update_inode;
      [|lia|unfold table_shape, INODE_TABLE_SIZE in *; lia].
    by apply (acl_entries_remove uid _ i e).
Qed.

Lemma acl_unique_kept_unless_duplicate_add_witness :
  let st := add_acl_entry 0 99 PERMISSION_READ
              (fst (create_inode 0 420 11 10 1700000000
                      (init_file_system None empty_host))) in
  acl_unique (get_inode 0 (remove_acl_entry 0 99 st))
  ∧ acl_unique (get_inode 0 (add_acl_entry 0 7 PERMISSION_WRITE st))
  ∧ ¬ acl_unique (get_inode 0 (add_acl_entry 0 99 PERMISSION_WRITE st))
  ∧ (add_acl_entry 0 99 8 st = st
     ∧ acl_unique (get_inode 0 (add_acl_entry 0 99 8 st)))
  ∧ acl_user_ids (get_inode 0 (add_acl_entry 0 99 PERMISSION_WRITE st))
    = acl_user_ids (get_inode 0 st) ++ [99]
  ∧ acl_entries (get_inode 0 (remove_acl_entry 0 99 st)) = [].
Proof.
  intros st.
  assert (table_shape st) as Ht by by vm_compute.
  assert (acl_shape (get_inode 0 st)) as Hs by by vm_compute.
  assert (acl_unique (get_inode 0 st)) as Hu.
  { unfold acl_unique.
    change (acl_user_ids (get_inode 0 st)) with [99]. apply NoDup_singleton. }
  split_and!.
  - exact (proj1 (acl_unique_kept_unless_duplicate_add
                    0 0 99 PERMISSION_WRITE st Ht Hs ltac:(lia) Hu)).
  - apply (proj1 (proj2 (acl_unique_kept_unless_duplicate_add
                    0 0 7 PERMISSION_WRITE st Ht Hs ltac:(lia) Hu))).
    intros e He. vm_compute in He.
    apply list_elem_of_singleton in He as ->. by vm_compute.
  - apply (proj1 (proj2 (proj2 (acl_unique_kept_unless_duplicate_add
                    0 0 99 PERMISSION_WRITE st Ht Hs ltac:(lia) Hu)))).
    + reflexivity.
    + by vm_compute.
    + reflexivity.
    + intros Habs. apply (Habs (mkACL 99 PERMISSION_READ)); [|done].
      vm_compute. apply list_elem_of_here.
  - apply (proj1 (proj2 (proj2 (proj2 (acl_unique_kept_unless_duplicate_add
                    0 0 99 8 st Ht Hs ltac:(lia) Hu))))).
    right. right. reflexivity.
  - apply (proj1 (proj2 (proj2 (proj2 (acl_unique_kept_unless_duplicate_add
                    0 0 99 8 st Ht Hs ltac:(lia) Hu))))).
    right. right. reflexivity.
  - apply (proj1 (proj2 (proj2 (proj2 (proj2
             (acl_unique_kept_unless_duplicate_add
                0 0 99 PERMISSION_WRITE st Ht Hs ltac:(lia) Hu)))))).
    + reflexivity.
    + by vm_compute.
    + reflexivity.
  - etrans; [apply (proj2 (proj2 (proj2 (proj2 (proj2
               (acl_unique_kept_unless_duplicate_add
                  0 0 99 PERMISSION_WRITE st Ht Hs ltac:(lia) Hu)))))
               eq_refl 0%nat (mkACL 99 PERMISSION_READ))|].
    + vm_compute. reflexivity.
    + vm_compute. reflexivity.
Defined.

(** ** Releasing an inode *)

Lemma free_block_inode_table (b : Z) (st : FS) :
  inode_table (free_block b st) = inode_table st.
Proof. unfold free_block. by repeat case_match. Qed.

Lemma free_block_free_inode_count (b : Z) (st : FS) :
  free_inode_count (superblock (free_block b st))
  = free_inode_count (superblock st).
Proof. unfold free_block. by repeat case_match. Qed.

Lemma free_block_used (b : Z) (st : FS) :
  0 ≤ b < NUM_BLOCKS → block_marked 1 st b →
  free_block b st
  = with_superblock (sb_mark (Z.to_nat b) 0 1 (superblock st)) st.
Proof.
  intros Hb Hm. unfold free_block, nth_Z, block_marked in *.
  destruct (Z.ltb_spec b 0); [lia|].
  destruct (Z.geb_spec b NUM_BLOCKS); [lia|]. simpl. by rewrite Hm.
Qed.

Lemma free_block_lookup_ne (b : Z) (st : FS) (j : nat) :
  j ≠ Z.to_nat b →
  free_block_bitmap (superblock (free_block b st)) !! j
  = free_block_bitmap (superblock st) !! j.
Proof.
  intros Hj. unfold free_block. repeat case_match; try done.
  simpl. by rewrite list_lookup_insert_ne.
Qed.

Lemma free_block_zero_stays (b : Z) (st : FS) (j : nat) :
  free_block_bitmap (superblock st) !! j = Some 0 →
  free_block_bitmap (superblock (free_block b st)) !! j = Some 0.
Proof.
  intros Hz. destruct (decide (j = Z.to_nat b)) as [->|Hne].
  - unfold free_block. repeat case_match; try done. simpl.
    apply list_lookup_insert_eq. by eapply lookup_lt_Some.
  - by rewrite free_block_lookup_ne.
Qed.

Lemma free_block_used_or_freed (a : Z) (st : FS) (j : nat) :
  free_block_bitmap (superblock st) !! j = Some 1 →
  free_block_bitmap (superblock (free_block a st)) !! j = Some 1
  ∨ free_block_bitmap (superblock (free_block a st)) !! j = Some 0.
Proof.
  intros Hm. destruct (decide (j = Z.to_nat a)) as [->|Hne].
  - unfold free_block. repeat case_match; simpl; [by left| |by left].
    right. apply list_lookup_insert_eq. by eapply lookup_lt_Some.
  - left. by rewrite free_block_lookup_ne.
Qed.

(** The calls of [free_block] that releasing an inode makes are those on
    its held blocks, in order. *)
Lemma foldl_free_block_if_set (bs : list Z) (st : FS) :
  foldl free_block_if_set st bs
  = foldl (λ s b, free_block b s) st (filter (λ b, b ≠ -1) bs).
Proof.
  revert st. induction bs as [|b bs IH]; intros st; [done|].
  rewrite filter_cons. simpl. unfold free_block_if_set at 2.
  destruct (Z.eqb_spec b (-1)) as [->|Hne].
  - rewrite decide_False by (intros ?; done). apply IH.
  - rewrite decide_True by done. simpl. apply IH.
Qed.

Lemma release_inode_unfold (n now : Z) (st : FS) :
  release_inode n now st
  = update_inode n (inode_released now)
      (foldl (λ s b, free_block b s) st (held_blocks (get_inode n st))).
Proof.
  unfold release_inode, held_blocks. f_equal.
  rewrite <- foldl_free_block_if_set, foldl_app. simpl.
  unfold free_block_if_set at 1, free_index_block. done.
Qed.

Lemma foldl_free_block_inode_table (bs : list Z) (st : FS) :
  inode_table (foldl (λ s b, free_block b s) st bs) = inode_table st.
Proof.
  revert st. induction bs as [|b bs IH]; intros st; simpl; [done|].
  by rewrite IH, free_block_inode_table.
Qed.

Lemma foldl_free_block_free_inode_count (bs : list Z) (st : FS) :
  free_inode_count (superblock (foldl (λ s b, free_block b s) st bs))
  = free_inode_count (superblock st).
Proof.
  revert st. induction bs as [|b bs IH]; intros st; simpl; [done|].
  by rewrite IH, free_block_free_inode_count.
Qed.

Lemma foldl_free_block_zero_stays (bs : list Z) (st : FS) (j : nat) :
  free_block_bitmap (superblock st) !! j = Some 0 →
  free_block_bitmap (superblock (foldl (λ s b, free_block b s) st bs)) !! j
  = Some 0.
Proof.
  revert st. induction bs as [|b bs IH]; intros st Hz; simpl; [done|].
  by apply IH, free_block_zero_stays.
Qed.

Lemma foldl_free_block_frees (bs : list Z) (st : FS) (b : Z) :
  b ∈ bs → 0 ≤ b < NUM_BLOCKS → block_marked 1 st b →
  block_marked 0 (foldl (λ s b, free_block b s) st bs) b.
Proof.
  unfold block_marked.
  revert st. induction bs as [|a bs IH]; intros st Hin Hb Hm.
  { by apply elem_of_nil in Hin. }
  simpl. destruct (decide (a = b)) as [->|Hne].
  - apply foldl_free_block_zero_stays.
    rewrite free_block_used by done. simpl.
    apply list_lookup_insert_eq. by eapply lookup_lt_Some.
  - apply elem_of_cons in Hin as [->|Hin]; [done|].
    destruct (free_block_used_or_freed a st (Z.to_nat b) Hm) as [H1|H0].
    + by apply IH.
    + by apply foldl_free_block_zero_stays.
Qed.

Lemma foldl_free_block_count (bs : list Z) (st : FS) :
  NoDup bs →
  (∀ b, b ∈ bs → 0 ≤ b < NUM_BLOCKS ∧ block_marked 1 st b) →
  free_blocks (superblock (foldl (λ s b, free_block b s) st bs))
  = free_blocks (superblock st) + Z.of_nat (length bs).
Proof.
  revert st. induction bs as [|a bs IH]; intros st Hnd Hall; simpl; [lia|].
  apply NoDup_cons in Hnd as [Ha Hnd].
  destruct (Hall a) as [Hra Hma]; [left|].
  rewrite IH; [|done|].
  - rewrite free_block_used by done. simpl. lia.
  - intros b Hb. destruct (Hall b) as [Hrb Hmb]; [by right|].
    split; [done|]. unfold block_marked in *.
    rewrite free_block_lookup_ne; [done|].
    intros Heq. assert (a = b) as -> by lia. done.
Qed.

Lemma inode_released_fields (now : Z) (ino : Inode) :
  let ino' := inode_released now ino in
  (∀ b, b ∈ direct_blocks ino' → b = -1)
  ∧ length (direct_blocks ino') = length (direct_blocks ino)
  ∧ index_block ino' = -1 ∧ i_size ino' = 0 ∧ is_directory ino' = 0.
Proof.
  simpl. split_and!; try done.
  - intros b (x & -> & _)%list_elem_of_fmap.
    by destruct (Z.eqb_spec x (-1)).
  - by rewrite length_fmap.
  - by destruct (Z.eqb_spec (index_block ino) (-1)).
Qed.

Lemma release_inode_effect (n now : Z) (st : FS) :
  0 ≤ n < INODE_TABLE_SIZE →
  table_shape st →
  let ino := get_inode n st in
  let st' := release_inode n now st in
  get_inode n st' = inode_released now ino
  ∧ (∀ j, j ≠ Z.to_nat n → inode_table st' !! j = inode_table st !! j)
  ∧ free_inode_count (superblock st') = free_inode_count (superblock st)
  ∧ (∀ b, b ∈ held_blocks ino → 0 ≤ b < NUM_BLOCKS →
          block_marked 1 st b → block_marked 0 st' b)
  ∧ (NoDup (held_blocks ino) →
     (∀ b, b ∈ held_blocks ino → 0 ≤ b < NUM_BLOCKS ∧ block_marked 1 st b) →
     free_blocks (superblock st')
     = free_blocks (superblock st) + Z.of_nat (length (held_blocks ino))).
Proof.
  intros Hn Hshape ino st'. subst st'. rewrite release_inode_unfold.
  fold ino. set (st1 := foldl _ st (held_blocks ino)).
  assert (inode_table st1 = inode_table st) as Htab
    by apply foldl_free_block_inode_table.
  split_and!.
  - rewrite get_inode_update_inode.
    + f_equal. unfold ino, get_inode. by rewrite Htab.
    + lia.
    + rewrite Htab. unfold table_shape, INODE_TABLE_SIZE in *. lia.
  - intros j Hj. simpl. rewrite list_lookup_alter_ne by done. by rewrite Htab.
  - apply foldl_free_block_free_inode_count.
  - intros b Hb Hr Hm. unfold block_marked. simpl.
    by apply foldl_free_block_frees.
  - intros Hnd Hall. simpl. by apply foldl_free_block_count.
Qed.

Lemma save_journal_inode_table (st : FS) :
  inode_table (save_journal st) = inode_table st.
Proof. unfold save_journal. by destruct (host_fopen_w _ _). Qed.

Lemma add_journal_entry_inode_table op f nf d now (st : FS) :
  inode_table (add_journal_entry op f nf d now st) = inode_table st.
Proof.
  unfold add_journal_entry. destruct f; [|done].
  by rewrite save_journal_inode_table.
Qed.

Lemma delete_file_found (fname : string) (now : Z) (st : FS)
    (i : nat) (e : DirectoryEntry) :
  host_access (host st) (full_path fname) = true →
  full_path fname ∉ denied (host st) →
  list_find (λ e, name e = fname) (dir_entries (root_directory st)) = Some (i, e) →
  ∃ h st1,
    host_remove (host st) (full_path fname) = Some h
    ∧ st1 = release_inode (inode_number e) now (with_host h st)
    ∧ delete_file fname now st
      = add_journal_entry DELETE (Some fname) None None now
          (with_root_directory (dir_remove i (root_directory st1)) st1).
Proof.
  intros Hacc Hden Hfind. unfold delete_file, host_remove.
  rewrite Hacc. simpl. rewrite decide_False by done.
  eexists _, _. split_and!; [done..|].
  simpl. by rewrite Hfind.
Qed.

(** C7.  When [delete_file] finds the file on the host and in the root
    directory, the inode it releases ends with every direct block
    reference and the index block unset, size 0 and [is_directory] 0;
    every block the inode held that was marked used is marked free, the
    free-block counter rises by one for each block returned (by the
    number of held blocks when these are distinct, in range and marked
    used); the free-inode count keeps its value and the other inode
    slots are unchanged. *)
Theorem delete_file_releases_inode (fname : string) (now : Z) (st : FS)
    (i : nat) (e : DirectoryEntry) :
  host_access (host st) (full_path fname) = true →
  full_path fname ∉ denied (host st) →
  list_find (λ e, name e = fname) (dir_entries (root_directory st)) = Some (i, e) →
  0 ≤ inode_number e < INODE_TABLE_SIZE →
  table_shape st →
  let n := inode_number e in
  let ino := get_inode n st in
  let st' := delete_file fname now st in
  let ino' := get_inode n st' in
  (∀ b, b ∈ direct_blocks ino' → b = -1)
  ∧ length (direct_blocks ino') = length (direct_blocks ino)
  ∧ index_block ino' = -1
  ∧ i_size ino' = 0 ∧ is_directory ino' = 0
  ∧ free_inode_count (superblock st') = free_inode_count (superblock st)
  ∧ (∀ j, j ≠ Z.to_nat n → inode_table st' !! j = inode_table st !! j)
  ∧ (∀ b, b ∈ held_blocks ino → 0 ≤ b < NUM_BLOCKS →
          block_marked 1 st b → block_marked 0 st' b)
  ∧ free_blocks (superblock st') - free_blocks (superblock st)
    = count_free (free_block_bitmap (superblock st'))
      - count_free (free_block_bitmap (superblock st))
  ∧ (NoDup (held_blocks ino) →
     (∀ b, b ∈ held_blocks ino → 0 ≤ b < NUM_BLOCKS ∧ block_marked 1 st b) →
     free_blocks (superblock st')
     = free_blocks (superblock st) + Z.of_nat (length (held_blocks ino))).
Proof.
  intros Hacc Hden Hfind Hn Hshape n ino st' ino'.
  destruct (delete_file_found fname now st i e Hacc Hden Hfind)
    as (h & st1 & Hrm & Hst1 & Hdel).
  destruct (release_inode_effect n now (with_host h st) Hn Hshape)
    as (Hino & Hothers & Hcount & Hfreed & Hsum).
  fold n in Hst1. rewrite <- Hst1 in Hino, Hothers, Hcount, Hfreed, Hsum.
  assert (inode_table st' = inode_table st1) as Htab.
  { subst st'. rewrite Hdel. by rewrite add_journal_entry_inode_table. }
  assert (superblock st' = superblock st1) as Hsb.
  { subst st'. rewrite Hdel. by rewrite add_journal_entry_superblock. }
  assert (ino' = inode_released now ino) as Hino'.
  { subst ino'. unfold get_inode in *. by rewrite Htab. }
  pose proof (inode_released_fields now ino) as (Hd & Hl & Hi & Hs & Hdir).
  rewrite Hino'. split_and!; try done.
  - by rewrite Hsb.
  - intros j Hj. rewrite Htab. by apply Hothers.
  - intros b Hb Hr Hm. unfold block_marked. rewrite Hsb. by apply Hfreed.
  - pose proof (delete_file_gap fname now st) as Hg.
    unfold counter_gap in Hg. fold st' in Hg. lia.
  - intros Hnd Hall. rewrite Hsb. by apply Hsum.
Qed.

Lemma delete_file_releases_inode_witness :
  let st := file_holding_blocks in
  let st' := delete_file "a" 1700000001 st in
  i_size (get_inode 0 st') = 0
  ∧ is_directory (get_inode 0 st') = 0
  ∧ index_block (get_inode 0 st') = -1
  ∧ free_inode_count (superblock st') = free_inode_count (superblock st)
  ∧ free_blocks (superblock st') = free_blocks (superblock st) + 3.
Proof.
  intros st st'.
  assert (host_access (host st) (full_path "a") = true) as Hacc
    by by vm_compute.
  assert (full_path "a" ∉ denied (host st)) as Hden.
  { assert (denied (host st) = ∅) as -> by by vm_compute.
    apply not_elem_of_empty. }
  assert (list_find (λ e, name e = "a") (dir_entries (root_directory st))
          = Some (0%nat, mkDirEntry "a" 0)) as Hfind by by vm_compute.
  assert (0 ≤ inode_number (mkDirEntry "a" 0) < INODE_TABLE_SIZE) as Hn
    by by vm_compute.
  assert (table_shape st) as Hshape by by vm_compute.
  assert (held_blocks (get_inode 0 st) = [0; 1; 2]) as Hheld by by vm_compute.
  destruct (delete_file_releases_inode "a" 1700000001 st 0 (mkDirEntry "a" 0)
              Hacc Hden Hfind Hn Hshape)
    as (_ & _ & Hidx & Hsize & Hdir & Hcount & _ & _ & _ & Hsum).
  split_and!; [exact Hsize|exact Hdir|exact Hidx|exact Hcount|].
  cbn [inode_number] in Hsum. rewrite Hheld in Hsum. apply Hsum.
  - repeat (apply NoDup_cons; split;
            [rewrite ?elem_of_cons, elem_of_nil; lia|]).
    apply NoDup_nil_2.
  - intros b Hb. rewrite !elem_of_cons, elem_of_nil in Hb.
    destruct Hb as [->|[->|[->|[]]]];
      (split; [by vm_compute|vm_compute; reflexivity]).
Defined.

(** ** Journal append *)

Lemma journal_text_lines (j : list JournalEntry) :
  journal_text j = concat_lines (journal_lines j).
Proof.
  unfold journal_text, journal_lines, concat_lines.
  induction (take (Z.to_nat JOURNAL_SIZE) j) as [|e l IH]; [done|].
  rewrite filter_cons. simpl. destruct (Z.eqb_spec (timestamp e) 0) as [Hz|Hnz].
  - by rewrite decide_False by (by intros ?).
  - rewrite decide_True by done. simpl. by rewrite IH.
Qed.

Lemma save_journal_journal (st : FS) :
  journal (save_journal st) = journal st
  ∧ journal_index (save_journal st) = journal_index st.
Proof. unfold save_journal. by destruct (host_fopen_w _ _). Qed.

Lemma save_journal_flushes (st : FS) :
  JOURNAL_FILENAME ∉ denied (host st) →
  files (host (save_journal st)) !! JOURNAL_FILENAME
  = Some (journal_text (journal st)).
Proof.
  intros Hden. unfold save_journal, host_fopen_w.
  rewrite decide_False by done. simpl. apply lookup_insert_eq.
Qed.

Lemma add_journal_entry_journal op f nf d now (st : FS) :
  journal (add_journal_entry op (Some f) nf d now st)
  = <[ Z.to_nat (journal_index st) := make_journal_entry op f nf d now ]>
      (journal st)
  ∧ journal_index (add_journal_entry op (Some f) nf d now st)
    = Z.rem (journal_index st + 1) JOURNAL_SIZE.
Proof.
  unfold add_journal_entry.
  destruct (save_journal_journal
              (with_journal
                 (<[ Z.to_nat (journal_index st) :=
                       make_journal_entry op f nf d now ]> (journal st))
                 (Z.rem (journal_index st + 1) JOURNAL_SIZE) st)) as [-> ->].
  done.
Qed.

(** [m] appends that fit between the current index and the end of the
    ring fill the slots from the index on, in order. *)
Lemma run_appends_window (aps : list Append) (st : FS) :
  length (journal st) = Z.to_nat JOURNAL_SIZE →
  0 ≤ journal_index st < JOURNAL_SIZE →
  journal_index st + Z.of_nat (length aps) ≤ JOURNAL_SIZE →
  journal (foldl run_append st aps)
  = take (Z.to_nat (journal_index st)) (journal st)
    ++ (entry_of_append <$> aps)
    ++ drop (Z.to_nat (journal_index st) + length aps) (journal st)
  ∧ journal_index (foldl run_append st aps)
    = Z.rem (journal_index st + Z.of_nat (length aps)) JOURNAL_SIZE.
Proof.
  revert st. induction aps as [|a aps IH]; intros st Hlen H0 Hfit.
  - simpl. rewrite Nat.add_0_r, take_drop, Z.add_0_r.
    split; [done|]. by rewrite Z.rem_small.
  - rewrite length_cons, Nat2Z.inj_succ in Hfit. simpl foldl.
    destruct (add_journal_entry_journal (ap_operation a) (ap_filename a)
                (ap_new_filename a) (ap_data a) (ap_now a) st) as [Hj Hi].
    fold (run_append st a) in Hj, Hi.
    fold (entry_of_append a) in Hj.
    destruct aps as [|b aps].
    + cbn [length] in Hfit. simpl. rewrite Hj, Hi. split; [|done].
      rewrite insert_take_drop by lia. do 3 f_equal. lia.
    + rewrite length_cons, Nat2Z.inj_succ in Hfit.
      assert (Z.rem (journal_index st + 1) JOURNAL_SIZE = journal_index st + 1)
        as Hsmall by (apply Z.rem_small; lia).
      rewrite Hsmall in Hi.
      destruct (IH (run_append st a)) as [IHj IHi].
      * by rewrite Hj, length_insert.
      * lia.
      * rewrite Hi, length_cons, Nat2Z.inj_succ. lia.
      * rewrite IHj, IHi, Hi, Hj. split.
        -- replace (Z.to_nat (journal_index st + 1))
             with (S (Z.to_nat (journal_index st))) by lia.
           rewrite (take_S_r _ _ (entry_of_append a))
             by (apply list_lookup_insert_eq; lia).
           rewrite take_insert_ge by lia.
           rewrite drop_insert_lt by (rewrite length_cons; lia).
           rewrite <- app_assoc. f_equal.
           rewrite (fmap_cons _ a), (length_cons a).
           cbn [app]. do 3 f_equal. lia.
        -- f_equal. rewrite !length_cons, !Nat2Z.inj_succ. lia.
Qed.

Lemma filter_all {A} (P : A → Prop) `{!∀ x, Decision (P x)} (l : list A) :
  Forall P l → filter P l = l.
Proof.
  induction 1 as [|x l Hx Hl IH]; [done|].
  rewrite filter_cons, decide_True by done. by rewrite IH.
Qed.

Lemma entry_of_append_used (aps : list Append) :
  (∀ a, a ∈ aps → ap_now a ≠ 0) →
  Forall (λ e, timestamp e ≠ 0) (entry_of_append <$> aps).
Proof.
  intros Hnz. apply Forall_fmap, Forall_forall. intros a Ha. by apply Hnz.
Qed.

Lemma substring_whole (s : string) (n : nat) :
  (String.length s ≤ n)%nat → substring 0 n s = s.
Proof.
  revert n. induction s as [|c s IH]; intros n Hn.
  - by destruct n.
  - destruct n as [|n]; [simpl in Hn; lia|]. simpl in *.
    rewrite IH by lia. done.
Qed.

Lemma journal_text_spelled (j : list JournalEntry) :
  length j = Z.to_nat JOURNAL_SIZE →
  journal_text j
  = foldr (λ x acc,
             (pretty (timestamp x) +:+ " " +:+ operation_to_string (operation x)
              +:+ " " +:+ filename x +:+ " " +:+ new_filename x +:+ " "
              +:+ data x +:+ newline) +:+ acc) ""
          (filter (λ x, timestamp x ≠ 0) j).
Proof.
  intros Hlen. rewrite journal_text_lines. unfold concat_lines, journal_lines.
  rewrite take_ge by lia. by rewrite foldr_fmap.
Qed.

(** C10.  A call of [add_journal_entry] with a file name writes the entry
    into the slot at the ring index: the operation, the file name and,
    when given, the new name and the data, each cut to the size of its
    field, and the current time.  It leaves the other slots alone, moves
    the index to [(index + 1) mod JOURNAL_SIZE] and, the host
    permitting, leaves in the journal file one line for every slot with
    a non-zero timestamp, in slot order, and none for the others; a line
    is the timestamp in decimal, the tag of the operation, the file
    name, the new name and the data, with one space between them and a
    newline at the end.  [JOURNAL_SIZE + 5] appends with non-zero times
    on an empty journal leave all [JOURNAL_SIZE] slots in use: slots 0
    to 4 hold the last five appends in place of the first five, the
    other slots hold the appends that first came to them.  The last
    part shows the file after seven appends on fresh tables, one of
    each operation and one stamped 0. *)
Theorem journal_append_ring :
  (∀ op f nf d now (st : FS),
     length (journal st) = Z.to_nat JOURNAL_SIZE →
     0 ≤ journal_index st < JOURNAL_SIZE →
     let st' := add_journal_entry op (Some f) nf d now st in
     let e := make_journal_entry op f nf d now in
     journal st' !! Z.to_nat (journal_index st) = Some e
     ∧ timestamp e = now ∧ operation e = op
     ∧ (∀ j, j ≠ Z.to_nat (journal_index st) → journal st' !! j = journal st !! j)
     ∧ journal_index st' = (journal_index st + 1) `mod` JOURNAL_SIZE
     ∧ (JOURNAL_FILENAME ∉ denied (host st) →
        files (host st') !! JOURNAL_FILENAME
        = Some (concat_lines (journal_lines (journal st'))))
     ∧ e = mkJournalEntry op
             (substring 0 254 f)
             (match nf with Some s => substring 0 254 s | None => "" end)
             (match d with Some s => substring 0 4095 s | None => "" end)
             now
     ∧ ((String.length f ≤ 254)%nat → filename e = f)
     ∧ (JOURNAL_FILENAME ∉ denied (host st) →
        files (host st') !! JOURNAL_FILENAME
        = Some (foldr (λ x acc,
                         (pretty (timestamp x) +:+ " "
                          +:+ operation_to_string (operation x) +:+ " "
                          +:+ filename x +:+ " " +:+ new_filename x +:+ " "
                          +:+ data x +:+ newline) +:+ acc) ""
                      (filter (λ x, timestamp x ≠ 0) (journal st')))))
  ∧ (∀ (aps : list Append) (st : FS),
       journal st = empty_journal →
       journal_index st = 0 →
       length aps = Z.to_nat (JOURNAL_SIZE + 5) →
       (∀ a, a ∈ aps → ap_now a ≠ 0) →
       let st' := foldl run_append st aps in
       journal_used (journal st') = Z.to_nat JOURNAL_SIZE
       ∧ journal st'
         = (entry_of_append <$> drop (Z.to_nat JOURNAL_SIZE) aps)
           ++ drop 5 (entry_of_append <$> take (Z.to_nat JOURNAL_SIZE) aps)
       ∧ journal_index st' = 5)
  ∧ (∀ a st,
       entry_of_append a
       = mkJournalEntry (ap_operation a)
           (substring 0 254 (ap_filename a))
           (match ap_new_filename a with
            | Some s => substring 0 254 s | None => "" end)
           (match ap_data a with
            | Some s => substring 0 4095 s | None => "" end)
           (ap_now a)
       ∧ run_append st a
         = add_journal_entry (ap_operation a) (Some (ap_filename a))
             (ap_new_filename a) (ap_data a) (ap_now a) st)
  ∧ (let st0 := init_file_system None empty_host in
     let st7 :=
       add_journal_entry READ (Some "b") None None 0
         (add_journal_entry CHANGE_PERMISSIONS (Some "b") (Some "644") None
            1700000006
            (add_journal_entry READ (Some "b") None None 1700000005
               (add_journal_entry RENAME (Some "a") (Some "b") None 1700000004
                  (add_journal_entry MODIFY (Some "a") None None 1700000003
                     (add_journal_entry DELETE (Some "a") None None 1700000002
                        (add_journal_entry CREATE (Some "a") None None
                           1700000001 st0)))))) in
     files (host st7) !! JOURNAL_FILENAME
     = Some ("1700000001 CREATED a  " +:+ newline
             +:+ "1700000002 DELETED a  " +:+ newline
             +:+ "1700000003 MODIFIED a  " +:+ newline
             +:+ "1700000004 RENAMED a b " +:+ newline
             +:+ "1700000005 READ b  " +:+ newline
             +:+ "1700000006 CHANGED PERMISSIONS b 644 " +:+ newline)
     ∧ journal st7 !! 3%nat
       = Some (mkJournalEntry RENAME "a" "b" "" 1700000004)
     ∧ journal st7 !! 6%nat = Some (mkJournalEntry READ "b" "" "" 0)
     ∧ journal_index st7 = 7).
Proof.
  split_and!.
  - intros op f nf d now st Hlen Hidx st' e.
    destruct (add_journal_entry_journal op f nf d now st) as [Hj Hi].
    fold st' in Hj, Hi. fold e in Hj.
    assert (length (journal st') = Z.to_nat JOURNAL_SIZE) as Hlen'
      by by rewrite Hj, length_insert.
    assert (JOURNAL_FILENAME ∉ denied (host st) →
            files (host st') !! JOURNAL_FILENAME
            = Some (journal_text (journal st'))) as Hflush.
    { intros Hden. subst st'. unfold add_journal_entry.
      rewrite save_journal_flushes by done.
      by rewrite (proj1 (save_journal_journal _)). }
    split_and!.
    + rewrite Hj. apply list_lookup_insert_eq. lia.
    + done.
    + done.
    + intros j Hne. rewrite Hj. by apply list_lookup_insert_ne.
    + rewrite Hi. apply Z.rem_mod_nonneg; unfold JOURNAL_SIZE in *; lia.
    + intros Hden. by rewrite Hflush, journal_text_lines.
    + subst e. unfold make_journal_entry. destruct nf, d; reflexivity.
    + intros Hf. by apply substring_whole.
    + intros Hden. by rewrite Hflush, journal_text_spelled.
  - intros aps st Hempty Hidx Hlen Hnz st'.
    set (first := take (Z.to_nat JOURNAL_SIZE) aps).
    set (last := drop (Z.to_nat JOURNAL_SIZE) aps).
    assert (aps = first ++ last) as Hsplit by (symmetry; apply take_drop).
    assert (length first = Z.to_nat JOURNAL_SIZE) as Hfirst.
    { subst first. rewrite length_take. unfold JOURNAL_SIZE in *. lia. }
    assert (length last = 5%nat) as Hlast.
    { subst last. rewrite length_drop. unfold JOURNAL_SIZE in *. lia. }
    assert (length (journal st) = Z.to_nat JOURNAL_SIZE) as Hjlen.
    { rewrite Hempty. apply length_replicate. }
    subst st'. rewrite Hsplit, foldl_app.
    destruct (run_appends_window first st) as [Hj1 Hi1];
      [done|unfold JOURNAL_SIZE; lia|unfold JOURNAL_SIZE in *; lia|].
    rewrite Hidx, Hfirst in Hj1, Hi1.
    rewrite take_0, drop_ge in Hj1 by lia.
    rewrite app_nil_l, app_nil_r in Hj1.
    change (Z.rem (0 + Z.of_nat (Z.to_nat JOURNAL_SIZE)) JOURNAL_SIZE)
      with 0 in Hi1.
    set (st1 := foldl run_append st first) in *.
    destruct (run_appends_window last st1) as [Hj2 Hi2].
    { by rewrite Hj1, length_fmap. }
    { rewrite Hi1. unfold JOURNAL_SIZE. lia. }
    { rewrite Hi1, Hlast. unfold JOURNAL_SIZE. lia. }
    rewrite Hi1, Hlast in Hj2, Hi2. rewrite Hj1, take_0, app_nil_l in Hj2.
    split_and!; [|exact Hj2|exact Hi2].
    unfold journal_used. rewrite Hj2.
    rewrite take_ge.
    + rewrite filter_all.
      * rewrite length_app, length_fmap, length_drop, length_fmap.
        rewrite Hlast, Hfirst. unfold JOURNAL_SIZE. lia.
      * apply Forall_app. split.
        -- apply entry_of_append_used. intros a Ha. apply Hnz.
           rewrite Hsplit. apply elem_of_app. by right.
        -- apply Forall_drop, entry_of_append_used. intros a Ha. apply Hnz.
           rewrite Hsplit. apply elem_of_app. by left.
    + rewrite length_app, length_fmap, length_drop, length_fmap.
      rewrite Hlast, Hfirst. unfold JOURNAL_SIZE. lia.
  - intros a st. split; [|done].
    unfold entry_of_append, make_journal_entry.
    destruct (ap_new_filename a), (ap_data a); reflexivity.
  - cbv zeta. split_and!; vm_compute; reflexivity.
Qed.

Lemma journal_append_ring_witness :
  let st := init_file_system None empty_host in
  let aps := replicate (Z.to_nat (JOURNAL_SIZE + 5))
                       (mkAppend CREATE "a" None None 1700000000) in
  journal_index (add_journal_entry CREATE (Some "a") None None 1700000000 st)
  = (journal_index st + 1) `mod` JOURNAL_SIZE
  ∧ files (host (add_journal_entry CREATE (Some "a") None None 1700000000 st))
      !! JOURNAL_FILENAME
    = Some ("1700000000 CREATED a  " +:+ newline)
  ∧ journal_used (journal (foldl run_append st aps)) = Z.to_nat JOURNAL_SIZE
  ∧ journal_index (foldl run_append st aps) = 5.
Proof.
  intros st aps.
  assert (length (journal st) = Z.to_nat JOURNAL_SIZE) as Hjl by reflexivity.
  assert (0 ≤ journal_index st < JOURNAL_SIZE) as Hji by by vm_compute.
  pose proof (proj1 journal_append_ring CREATE "a" None None 1700000000 st
                Hjl Hji) as Hone.
  cbv zeta in Hone.
  destruct Hone as (_ & _ & _ & _ & Hidx' & _ & _ & _ & Hfile).
  split_and!.
  - exact Hidx'.
  - rewrite Hfile by apply not_elem_of_empty. vm_compute. reflexivity.
  - assert (journal st = empty_journal) as Hempty by reflexivity.
    assert (journal_index st = 0) as Hidx by reflexivity.
    assert (length aps = Z.to_nat (JOURNAL_SIZE + 5)) as Hlen
      by apply length_replicate.
    assert (∀ a, a ∈ aps → ap_now a ≠ 0) as Hnz.
    { intros a [-> _]%elem_of_replicate. done. }
    exact (proj1 (proj1 (proj2 journal_append_ring) aps st
                    Hempty Hidx Hlen Hnz)).
  - assert (journal st = empty_journal) as Hempty by reflexivity.
    assert (journal_index st = 0) as Hidx by reflexivity.
    assert (length aps = Z.to_nat (JOURNAL_SIZE + 5)) as Hlen
      by apply length_replicate.
    assert (∀ a, a ∈ aps → ap_now a ≠ 0) as Hnz.
    { intros a [-> _]%elem_of_replicate. done. }
    exact (proj2 (proj2 (proj1 (proj2 journal_append_ring) aps st
                           Hempty Hidx Hlen Hnz))).
Defined.

(** ** Failure of the host step in [create_file] *)

Lemma create_file_fopen_failure (path : string) (d now : Z) (st : FS) (i : nat) :
  file_exists path st = false →
  full_path path ∈ denied (host st) →
  free_inode_count (superblock st) ≠ 0 →
  first_zero_size_slot (inode_table st) i →
  ∃ st', create_file path d now st = (st', -1)
         ∧ journal st' = journal st
         ∧ journal_index st' = journal_index st
         ∧ host st' = host st
         ∧ free_inode_count (superblock st')
           = free_inode_count (superblock st) - 1
         ∧ root_directory st'
           = dir_append path (Z.of_nat i) (root_directory st).
Proof.
  intros Hex Hden Hcount Hfirst.
  pose proof Hfirst as (_ & (old & Hold & _) & _).
  unfold create_file. rewrite Hex.
  rewrite (create_inode_granted _ _ _ _ _ st i old) by done.
  destruct (Z.eqb_spec (Z.of_nat i) (-1)); [lia|].
  unfold host_fopen_w. simpl. rewrite decide_True by done.
  eexists. split_and!; done.
Qed.

(** The sibling for directories asks the host first and touches
    nothing when the host refuses. *)
Lemma create_directory_mkdir_failure (path : string) (now : Z) (st : FS) :
  full_path path ∈ denied (host st) →
  create_directory path now st = (st, -1).
Proof.
  intros Hden. unfold create_directory, host_mkdir.
  case_match; [done|]. by rewrite decide_True.
Qed.

(** C4 (as the code has it).  [create_file] allocates the inode and
    enters the name in the root directory before it asks the host to
    open the file, and returns without undoing either when the host
    refuses: no journal entry is recorded and no host file exists, but
    the free-inode count has dropped by one and the directory index has
    gained the entry. *)
Theorem create_file_fopen_failure_not_undone :
  let st := init_file_system None (host_denying "a") in
  let st' := fst (create_file "a" 0 1700000000 st) in
  snd (create_file "a" 0 1700000000 st) = -1
  ∧ journal st' = journal st
  ∧ host st' = host st
  ∧ free_inode_count (superblock st) = 128
  ∧ free_inode_count (superblock st') = 127
  ∧ dir_entries (root_directory st) = []
  ∧ dir_entries (root_directory st') = [mkDirEntry "a" 0]
  ∧ fst (create_directory "a" 1700000000 st) = st.
Proof.
  intros st st'.
  assert (full_path "a" ∈ denied (host st)) as Hden.
  { change (denied (host st)) with ({[ full_path "a" ]} : gset string).
    by apply elem_of_singleton. }
  destruct (create_file_fopen_failure "a" 0 1700000000 st 0) as
    (st1 & Hc & Hj & _ & Hh & Hn & Hd).
  - by vm_compute.
  - done.
  - by vm_compute.
  - split_and!; [vm_compute; lia|by exists zero_inode|intros j ino Hj; lia].
  - subst st'. rewrite Hc. cbn [fst snd].
    rewrite (create_directory_mkdir_failure "a" _ st Hden).
    split_and!; [done|exact Hj|exact Hh|by vm_compute| |by vm_compute| |done].
    + rewrite Hn. by vm_compute.
    + rewrite Hd. by vm_compute.
Qed.

(** ** Reloading and replaying the journal *)

(** The tags [save_journal] writes are not the tags [init_journal]
    reads: whatever the operation, the reloaded entry is READ or unknown,
    and [replay_journal] has no case for either. *)
Lemma reloaded_operation_inert (op : Z) :
  reloaded_operation op = READ ∨ reloaded_operation op = -1.
Proof.
  unfold reloaded_operation, operation_to_string.
  repeat case_match; vm_compute; auto.
Qed.



(** C2 (as the code has it).  One CREATE of file ["a"] on an empty host:
    direct execution leaves the entry for ["a"] in the directory index
    and the line [1700000000 CREATED a] in the log.  [init_journal]
    reads the tag [CREATED] as an unknown operation, so replaying the
    reloaded journal on fresh tables leaves the directory index empty,
    whether the host still has the file or only the log survived. *)
Theorem journal_reload_replay_loses_create (indet : string) (now : Z) :
  let st1 := fst (create_file "a" 0 1700000000
                    (init_file_system None empty_host)) in
  let log := "1700000000 CREATED a  " +:+ newline in
  dir_entries (root_directory st1) = [mkDirEntry "a" 0]
  ∧ files (host st1) !! JOURNAL_FILENAME = Some log
  ∧ journal (init_journal indet (init_file_system None (host st1))) !! 0%nat
    = Some (mkJournalEntry (-1) "a"
              (strncpy (MAX_FILENAME_LEN - 1) indet)
              (strncpy (BLOCK_SIZE - 1) indet) 1700000000)
  ∧ dir_entries (root_directory (recover indet now (host st1))) = []
  ∧ dir_entries (root_directory
       (recover indet now (mkHost {[ JOURNAL_FILENAME := log ]} ∅))) = []
  ∧ reloaded_operation CREATE = -1.
Proof.
  intros st1 log. split_and!; by vm_compute.
Qed.

(** * Further properties *)

(** ** States reached from fresh tables are well formed *)

Lemma memmove_down_length {A} (a : list A) (i n : nat) :
  (S i + n ≤ length a)%nat → length (memmove_down i n a) = length a.
Proof.
  intros Hfit. unfold memmove_down.
  rewrite !length_app, !length_take, !length_drop. lia.
Qed.

Lemma memmove_down_Forall {A} (P : A → Prop) (a : list A) (i n : nat) :
  Forall P a → Forall P (memmove_down i n a).
Proof.
  intros Ha. unfold memmove_down.
  repeat (apply Forall_app; split);
    auto using Forall_take, Forall_drop.
Qed.

Lemma well_formed_init (h : Host) : well_formed (init_file_system None h).
Proof.
  constructor; try done.
  - apply (Forall_replicate inode_ok). constructor; by vm_compute.
  - apply (Forall_replicate (λ b, b = 0 ∨ b = 1)). by left.
  - by apply (Forall_replicate (λ e, inode_number e = 0)).
Qed.

Lemma well_formed_with_host (h : Host) (st : FS) :
  well_formed st → well_formed (with_host h st).
Proof. intros []. by constructor. Qed.

Lemma well_formed_save_journal (st : FS) :
  well_formed st → well_formed (save_journal st).
Proof.
  intros Hwf. unfold save_journal.
  destruct (host_fopen_w _ _); [|done]. by apply well_formed_with_host.
Qed.

Lemma well_formed_add_journal_entry op f nf d now (st : FS) :
  well_formed st → well_formed (add_journal_entry op f nf d now st).
Proof.
  intros Hwf. unfold add_journal_entry. destruct f as [f|]; [|done].
  apply well_formed_save_journal. destruct Hwf.
  constructor; simpl; try done.
  - by rewrite length_insert.
  - unfold JOURNAL_SIZE in *.
    destruct (decide (journal_index st + 1 = 1024)) as [->|Hne].
    + by vm_compute.
    + rewrite Z.rem_small by lia. lia.
Qed.

Lemma well_formed_allocate_block (st : FS) :
  well_formed st → well_formed (fst (allocate_block st)).
Proof.
  intros Hwf. unfold allocate_block.
  destruct (first_free_block _) as [i|]; [|done].
  destruct Hwf. constructor; simpl; try done.
  - by rewrite length_insert.
  - apply Forall_insert; [done|by right].
Qed.

Lemma well_formed_free_block (b : Z) (st : FS) :
  well_formed st → well_formed (free_block b st).
Proof.
  intros Hwf. unfold free_block. repeat case_match; try done.
  destruct Hwf. constructor; simpl; try done.
  - by rewrite length_insert.
  - apply Forall_insert; [done|by left].
Qed.

Lemma well_formed_update_inode (n : Z) (f : Inode → Inode) (st : FS) :
  (∀ ino, inode_ok ino → inode_ok (f ino)) →
  well_formed st → well_formed (update_inode n f st).
Proof.
  intros Hf []. constructor; simpl; try done.
  - by rewrite length_alter.
  - apply Forall_alter; [done|]. intros ino _. apply Hf.
Qed.

Lemma inode_ok_set_mode (md : Z) (ino : Inode) :
  inode_ok ino → inode_ok (inode_set_mode md ino).
Proof. intros []. by constructor. Qed.

Lemma inode_ok_chmod (md now : Z) (ino : Inode) :
  inode_ok ino → inode_ok (inode_chmod md now ino).
Proof. intros []. by constructor. Qed.

Lemma inode_ok_released (now : Z) (ino : Inode) :
  inode_ok ino → inode_ok (inode_released now ino).
Proof. intros []. constructor; simpl; try done. by rewrite length_fmap. Qed.

Lemma inode_ok_fresh (d m o g now : Z) (old : Inode) :
  inode_ok old → inode_ok (fresh_inode d m o g now old).
Proof.
  intros []. by constructor.
Qed.

Lemma inode_ok_add_acl (uid perms : Z) (ino : Inode) :
  acl_count ino < MAX_ACL_ENTRIES →
  inode_ok ino → inode_ok (inode_add_acl uid perms ino).
Proof.
  intros Hroom []. constructor; simpl; try done.
  - by rewrite length_insert.
  - lia.
Qed.

Lemma inode_ok_remove_acl (uid : Z) (ino : Inode) :
  inode_ok ino → inode_ok (inode_remove_acl uid ino).
Proof.
  intros Hok. unfold inode_remove_acl.
  destruct (list_find _ _) as [[i e]|] eqn:E; [|done].
  apply list_find_Some in E as (Hi & _).
  apply lookup_take_Some in Hi as [_ Hi].
  destruct Hok. constructor; simpl; try done.
  - rewrite memmove_down_length; [done|].
    unfold MAX_ACL_ENTRIES in *. lia.
  - lia.
Qed.

Lemma well_formed_slot_zero (st : FS) :
  well_formed st →
  inode_table st !! 0%nat = Some (get_inode 0 st)
  ∧ inode_ok (get_inode 0 st)
  ∧ first_zero_size_slot (inode_table st) 0.
Proof.
  intros Hwf. destruct Hwf as [Hlen Hok].
  destruct (inode_table st) as [|ino t] eqn:E; [done|].
  apply Forall_cons in Hok as [Hino _].
  assert (get_inode 0 st = ino) as -> by (unfold get_inode; by rewrite E).
  split_and!; [done..|]. split_and!.
  - vm_compute. lia.
  - exists ino. split; [done|]. by destruct Hino.
  - intros j ? Hj. lia.
Qed.

(** On well-formed tables every slot has size 0, so the scan of
    [create_inode] stops at slot 0. *)
Lemma create_inode_well_formed (d m o g now : Z) (st : FS) :
  well_formed st →
  create_inode d m o g now st
  = if free_inode_count (superblock st) =? 0 then (st, -1)
    else (take_slot_zero d m o g now st, 0).
Proof.
  intros Hwf. destruct (well_formed_slot_zero st Hwf) as (Hl & _ & Hfirst).
  destruct (Z.eqb_spec (free_inode_count (superblock st)) 0) as [Hz|Hnz].
  - by apply create_inode_refused; left.
  - by rewrite (create_inode_granted d m o g now st 0 (get_inode 0 st)).
Qed.

Lemma well_formed_create_inode (d m o g now : Z) (st : FS) :
  well_formed st → well_formed (fst (create_inode d m o g now st)).
Proof.
  intros Hwf. rewrite create_inode_well_formed by done.
  destruct (Z.eqb_spec (free_inode_count (superblock st)) 0) as [Hz|Hnz]; [done|].
  destruct (well_formed_slot_zero st Hwf) as (_ & Hok & _).
  destruct Hwf. constructor; simpl; try done.
  - by rewrite length_insert.
  - apply Forall_insert; [done|]. by apply inode_ok_fresh.
  - lia.
  - lia.
Qed.

Lemma well_formed_set_permissions n p (st : FS) :
  well_formed st → well_formed (set_permissions n p st).
Proof.
  intros Hwf. unfold set_permissions. repeat case_match; try done.
  apply well_formed_update_inode; [|done]. apply inode_ok_set_mode.
Qed.

Lemma get_inode_ok (n : Z) (st : FS) :
  well_formed st → inode_ok (get_inode n st).
Proof.
  intros Hwf. unfold get_inode, nth_Z.
  assert (inode_ok zero_inode) as Hz by (constructor; by vm_compute).
  case_match; [done|].
  destruct (inode_table st !! Z.to_nat n) as [ino|] eqn:E; simpl; [|done].
  destruct Hwf as [_ Hok]. rewrite Forall_lookup in Hok. by eapply Hok.
Qed.

Lemma well_formed_add_acl_entry n u p (st : FS) :
  well_formed st → well_formed (add_acl_entry n u p st).
Proof.
  intros Hwf. unfold add_acl_entry.
  destruct (inode_in_range n) eqn:Hr; simpl; [|done].
  destruct (Z.geb_spec (acl_count (get_inode n st)) MAX_ACL_ENTRIES) as [|Hroom];
    [done|].
  case_match; [done|].
  destruct Hwf. constructor; simpl; try done.
  - by rewrite length_alter.
  - apply Forall_alter; [done|]. intros ino Hino Hok.
    apply inode_ok_add_acl; [|done].
    apply inode_in_range_spec in Hr.
    by rewrite (get_inode_lookup n st ino) in Hroom by (done || lia).
Qed.

Lemma well_formed_remove_acl_entry n u (st : FS) :
  well_formed st → well_formed (remove_acl_entry n u st).
Proof.
  intros Hwf. unfold remove_acl_entry. case_match; [done|].
  apply well_formed_update_inode; [|done]. apply inode_ok_remove_acl.
Qed.

Lemma well_formed_foldl_free_block (bs : list Z) (st : FS) :
  well_formed st → well_formed (foldl (λ s b, free_block b s) st bs).
Proof.
  revert st. induction bs as [|b bs IH]; intros st Hwf; simpl; [done|].
  by apply IH, well_formed_free_block.
Qed.

Lemma well_formed_release_inode n now (st : FS) :
  well_formed st → well_formed (release_inode n now st).
Proof.
  intros Hwf. rewrite release_inode_unfold.
  apply well_formed_update_inode; [apply inode_ok_released|].
  by apply well_formed_foldl_free_block.
Qed.

Lemma well_formed_entry_count (st : FS) :
  well_formed st → entry_count (root_directory st) ≤ MAX_FILES.
Proof. intros []. unfold MAX_FILES, INODE_TABLE_SIZE in *. lia. Qed.

Lemma well_formed_dir_remove (i : nat) (e : DirectoryEntry) (st : FS) :
  well_formed st →
  dir_entries (root_directory st) !! i = Some e →
  well_formed (with_root_directory (dir_remove i (root_directory st)) st).
Proof.
  intros Hwf Hi. pose proof (well_formed_entry_count st Hwf) as Hmax.
  apply lookup_take_Some in Hi as [_ Hi].
  destruct Hwf. constructor; simpl; try done.
  - rewrite memmove_down_length; [done|]. unfold MAX_FILES in *. lia.
  - lia.
  - lia.
  - by apply memmove_down_Forall.
Qed.

Lemma well_formed_dir_rename (i : nat) (new_name : string) (st : FS) :
  well_formed st →
  well_formed (with_root_directory (dir_rename i new_name (root_directory st)) st).
Proof.
  intros []. constructor; simpl; try done.
  - by rewrite length_alter.
  - apply Forall_alter; [done|]. by intros e _ He.
Qed.

(** After [create_inode] has handed out a slot there is room for one
    more directory entry. *)
Lemma well_formed_dir_append (path : string) (st : FS) :
  well_formed st →
  entry_count (root_directory st) + free_inode_count (superblock st)
  < INODE_TABLE_SIZE →
  well_formed (with_root_directory (dir_append path 0 (root_directory st)) st).
Proof.
  intros [] Hroom. constructor; simpl; try done.
  - by rewrite length_insert.
  - lia.
  - lia.
  - by apply Forall_insert.
Qed.

Lemma well_formed_take_slot_zero (d m o g now : Z) (st : FS) :
  well_formed st → free_inode_count (superblock st) ≠ 0 →
  well_formed (take_slot_zero d m o g now st)
  ∧ entry_count (root_directory (take_slot_zero d m o g now st))
    + free_inode_count (superblock (take_slot_zero d m o g now st))
    < INODE_TABLE_SIZE.
Proof.
  intros Hwf Hnz. split.
  - pose proof (well_formed_create_inode d m o g now st Hwf) as H.
    rewrite create_inode_well_formed in H by done.
    by destruct (Z.eqb_spec (free_inode_count (superblock st)) 0).
  - destruct Hwf. simpl. lia.
Qed.

(** [create_file] on well-formed tables, case by case. *)
Lemma create_file_well_formed (path : string) (d now : Z) (st : FS) :
  well_formed st →
  create_file path d now st
  = if file_exists path st then (st, -1)
    else if free_inode_count (superblock st) =? 0 then (st, -1)
    else
      let st1 := take_slot_zero d 511 current_user_id current_group_id now st in
      let st2 := with_root_directory (dir_append path 0 (root_directory st)) st1 in
      match host_fopen_w (host st) (full_path path) with
      | None => (st2, -1)
      | Some h =>
          (add_journal_entry CREATE (Some path) None None now (with_host h st2), 0)
      end.
Proof.
  intros Hwf. unfold create_file. case_match; [done|].
  rewrite create_inode_well_formed by done.
  by destruct (Z.eqb_spec (free_inode_count (superblock st)) 0).
Qed.

Lemma well_formed_create_file (path : string) (d now : Z) (st : FS) :
  well_formed st → well_formed (fst (create_file path d now st)).
Proof.
  intros Hwf. rewrite create_file_well_formed by done.
  case_match; [done|].
  destruct (Z.eqb_spec (free_inode_count (superblock st)) 0) as [|Hnz]; [done|].
  destruct (well_formed_take_slot_zero d 511 current_user_id current_group_id
              now st Hwf Hnz) as [Hwf1 Hroom].
  pose proof (well_formed_dir_append path _ Hwf1 Hroom) as Hwf2.
  cbv zeta. destruct (host_fopen_w _ _); simpl; [|done].
  by apply well_formed_add_journal_entry, well_formed_with_host.
Qed.

Lemma free_block_frame (b : Z) (st : FS) :
  root_directory (free_block b st) = root_directory st
  ∧ journal (free_block b st) = journal st
  ∧ journal_index (free_block b st) = journal_index st
  ∧ host (free_block b st) = host st.
Proof. unfold free_block. by repeat case_match. Qed.

Lemma release_inode_frame (n now : Z) (st : FS) :
  root_directory (release_inode n now st) = root_directory st
  ∧ journal (release_inode n now st) = journal st
  ∧ journal_index (release_inode n now st) = journal_index st
  ∧ host (release_inode n now st) = host st.
Proof.
  rewrite release_inode_unfold. simpl.
  generalize (held_blocks (get_inode n st)). intros bs.
  revert st. induction bs as [|b bs IH]; intros st; simpl; [done|].
  destruct (IH (free_block b st)) as (-> & -> & -> & ->).
  apply free_block_frame.
Qed.

Lemma well_formed_delete_file (f : string) (now : Z) (st : FS) :
  well_formed st → well_formed (delete_file f now st).
Proof.
  intros Hwf. unfold delete_file. case_match; [done|].
  destruct (host_remove _ _) as [h|]; [|done].
  apply well_formed_add_journal_entry.
  destruct (list_find _ _) as [[i e]|] eqn:E.
  - apply list_find_Some in E as (Hi & _).
    eapply well_formed_dir_remove.
    + by apply well_formed_release_inode, well_formed_with_host.
    + rewrite (proj1 (release_inode_frame _ _ _)). exact Hi.
  - by apply well_formed_with_host.
Qed.

Lemma well_formed_delete_directory (f : string) (now : Z) (st : FS) :
  well_formed st → well_formed (delete_directory f now st).
Proof.
  intros Hwf. unfold delete_directory, host_rmdir. case_match; [done|].
  destruct (host_remove _ _) as [h|]; [|done].
  apply well_formed_add_journal_entry.
  destruct (list_find _ _) as [[i e]|] eqn:E.
  - apply list_find_Some in E as (Hi & _).
    eapply well_formed_dir_remove.
    + by apply well_formed_release_inode, well_formed_with_host.
    + rewrite (proj1 (release_inode_frame _ _ _)). exact Hi.
  - by apply well_formed_with_host.
Qed.

Lemma well_formed_rename_file (o n : string) (now : Z) (st : FS) :
  well_formed st → well_formed (rename_file o n now st).
Proof.
  intros Hwf. unfold rename_file. case_match; [done|].
  destruct (host_rename _ _ _) as [h|]; [|done].
  apply well_formed_add_journal_entry.
  destruct (list_find _ _) as [[i e]|].
  - by apply (well_formed_dir_rename i n (with_host h st)), well_formed_with_host.
  - by apply well_formed_with_host.
Qed.

Lemma well_formed_create_directory (path : string) (now : Z) (st : FS) :
  well_formed st → well_formed (fst (create_directory path now st)).
Proof.
  intros Hwf. unfold create_directory. case_match; [done|].
  destruct (host_mkdir _ _) as [h|]; [|done].
  pose proof (well_formed_with_host h st Hwf) as Hwfh.
  rewrite create_inode_well_formed by done.
  destruct (Z.eqb_spec (free_inode_count (superblock (with_host h st))) 0)
    as [|Hnz]; [done|].
  destruct (well_formed_take_slot_zero 1 493 current_user_id current_group_id
              now _ Hwfh Hnz) as [Hwf1 Hroom].
  simpl. apply well_formed_add_journal_entry.
  exact (well_formed_dir_append path _ Hwf1 Hroom).
Qed.

Lemma init_journal_line_shape (indet : string) (j : list JournalEntry)
    (index : Z) (line : string) :
  0 ≤ index ≤ JOURNAL_SIZE →
  length (fst (init_journal_line indet (j, index) line)) = length j
  ∧ 0 ≤ snd (init_journal_line indet (j, index) line) ≤ JOURNAL_SIZE.
Proof.
  intros Hi. unfold init_journal_line.
  destruct (Z.ltb_spec index JOURNAL_SIZE); [|done].
  repeat case_match; simpl; rewrite ?length_insert; (done || lia).
Qed.

Lemma init_journal_lines_shape (indet : string) (lines : list string)
    (j : list JournalEntry) (index : Z) :
  0 ≤ index ≤ JOURNAL_SIZE →
  length (fst (foldl (init_journal_line indet) (j, index) lines)) = length j
  ∧ 0 ≤ snd (foldl (init_journal_line indet) (j, index) lines) ≤ JOURNAL_SIZE.
Proof.
  revert j index. induction lines as [|l lines IH]; intros j index Hi; [done|].
  change (foldl (init_journal_line indet) (j, index) (l :: lines))
    with (foldl (init_journal_line indet)
                (init_journal_line indet (j, index) l) lines).
  destruct (init_journal_line_shape indet j index l Hi) as [Hlen Hidx].
  destruct (init_journal_line indet (j, index) l) as [j' index'].
  cbn [fst snd] in Hlen, Hidx. destruct (IH j' index' Hidx) as [Hl Hi'].
  split; [by rewrite Hl|exact Hi'].
Qed.

Lemma well_formed_init_journal (indet : string) (st : FS) :
  well_formed st → well_formed (init_journal indet st).
Proof.
  intros Hwf. unfold init_journal.
  destruct (files (host st) !! JOURNAL_FILENAME) as [content|].
  - destruct (init_journal_lines_shape indet (fgets_lines 1023 "" content)
                (journal st) 0) as [Hlen Hidx]; [by vm_compute|].
    destruct (foldl _ _ _) as [j index]. simpl in Hlen, Hidx.
    destruct Hwf. constructor; simpl; try done.
    + by rewrite Hlen.
    + unfold JOURNAL_SIZE in *.
      destruct (decide (index = 1024)) as [->|]; [by vm_compute|].
      rewrite Z.rem_small by lia. lia.
  - destruct Hwf. by constructor.
Qed.

Lemma well_formed_replay_entry (e : JournalEntry) (now : Z) (st : FS) :
  well_formed st → well_formed (replay_entry e now st).
Proof.
  intros Hwf. unfold replay_entry. repeat case_match; try done;
    auto using well_formed_create_file, well_formed_delete_file,
      well_formed_rename_file, well_formed_with_host.
Qed.

Lemma well_formed_replay_from (n i : nat) (now : Z) (st : FS) :
  well_formed st → well_formed (replay_from n i now st).
Proof.
  revert i st. induction n as [|n IH]; intros i st Hwf; simpl; [done|].
  by apply IH, well_formed_replay_entry.
Qed.

Lemma well_formed_run_call (st : FS) (c : Call) :
  well_formed st → well_formed (run_call st c).
Proof.
  intros Hwf. destruct c; simpl;
    auto using well_formed_allocate_block, well_formed_free_block,
      well_formed_create_inode, well_formed_set_permissions,
      well_formed_add_acl_entry, well_formed_remove_acl_entry,
      well_formed_create_file, well_formed_delete_file,
      well_formed_rename_file, well_formed_create_directory,
      well_formed_delete_directory, well_formed_add_journal_entry,
      well_formed_init_journal, well_formed_with_host.
  by apply well_formed_replay_from.
Qed.

Lemma well_formed_run_calls (cs : list Call) (st : FS) :
  well_formed st → well_formed (run_calls st cs).
Proof.
  revert st. induction cs as [|c cs IH]; intros st Hwf; simpl; [done|].
  by apply IH, well_formed_run_call.
Qed.

(** ** The number of inode slots is never changed *)

Lemma create_inode_table_size d m o g now (st : FS) :
  inode_table_size (superblock (fst (create_inode d m o g now st)))
  = inode_table_size (superblock st).
Proof. unfold create_inode. by repeat case_match. Qed.

Lemma allocate_block_table_size (st : FS) :
  inode_table_size (superblock (fst (allocate_block st)))
  = inode_table_size (superblock st).
Proof. unfold allocate_block. by case_match. Qed.

Lemma free_block_table_size b (st : FS) :
  inode_table_size (superblock (free_block b st))
  = inode_table_size (superblock st).
Proof. unfold free_block. by repeat case_match. Qed.

Lemma foldl_free_block_table_size bs (st : FS) :
  inode_table_size (superblock (foldl (λ s b, free_block b s) st bs))
  = inode_table_size (superblock st).
Proof.
  revert st. induction bs as [|b bs IH]; intros st; simpl; [done|].
  by rewrite IH, free_block_table_size.
Qed.

Lemma release_inode_table_size n now (st : FS) :
  inode_table_size (superblock (release_inode n now st))
  = inode_table_size (superblock st).
Proof.
  rewrite release_inode_unfold. simpl.
  by rewrite foldl_free_block_table_size.
Qed.

Lemma table_size_superblock (st' st : FS) :
  superblock st' = superblock st →
  inode_table_size (superblock st') = inode_table_size (superblock st).
Proof. by intros ->. Qed.

Lemma create_file_table_size p d now (st : FS) :
  inode_table_size (superblock (fst (create_file p d now st)))
  = inode_table_size (superblock st).
Proof.
  unfold create_file. case_match; [done|].
  pose proof (create_inode_table_size d 511 current_user_id current_group_id
                now st) as Hc.
  destruct (create_inode _ _ _ _ _ _) as [st1 ino]. simpl in Hc.
  repeat case_match; simpl; try done.
  by rewrite add_journal_entry_superblock.
Qed.

Lemma delete_file_table_size f now (st : FS) :
  inode_table_size (superblock (delete_file f now st))
  = inode_table_size (superblock st).
Proof.
  unfold delete_file.
  repeat case_match; try done; rewrite add_journal_entry_superblock;
    try done; unfold with_root_directory; cbn [superblock];
    by rewrite release_inode_table_size.
Qed.

Lemma delete_directory_table_size f now (st : FS) :
  inode_table_size (superblock (delete_directory f now st))
  = inode_table_size (superblock st).
Proof.
  unfold delete_directory.
  repeat case_match; try done; rewrite add_journal_entry_superblock;
    try done; unfold with_root_directory; cbn [superblock];
    by rewrite release_inode_table_size.
Qed.

Lemma rename_file_table_size o n now (st : FS) :
  inode_table_size (superblock (rename_file o n now st))
  = inode_table_size (superblock st).
Proof.
  unfold rename_file.
  repeat case_match; try done; by rewrite add_journal_entry_superblock.
Qed.

Lemma create_directory_table_size p now (st : FS) :
  inode_table_size (superblock (fst (create_directory p now st)))
  = inode_table_size (superblock st).
Proof.
  unfold create_directory. case_match; [done|].
  destruct (host_mkdir _ _) as [h|]; [|done].
  pose proof (create_inode_table_size 1 493 current_user_id current_group_id
                now (with_host h st)) as Hc.
  destruct (create_inode _ _ _ _ _ _) as [st1 ino]. simpl in Hc.
  case_match; simpl; [done|].
  by rewrite add_journal_entry_superblock.
Qed.

Lemma replay_entry_table_size e now (st : FS) :
  inode_table_size (superblock (replay_entry e now st))
  = inode_table_size (superblock st).
Proof.
  unfold replay_entry.
  repeat case_match;
    auto using create_file_table_size, delete_file_table_size,
      rename_file_table_size.
Qed.

Lemma replay_from_table_size n i now (st : FS) :
  inode_table_size (superblock (replay_from n i now st))
  = inode_table_size (superblock st).
Proof.
  revert i st. induction n as [|n IH]; intros i st; simpl; [done|].
  by rewrite IH, replay_entry_table_size.
Qed.

Lemma run_call_table_size (st : FS) (c : Call) :
  inode_table_size (superblock (run_call st c))
  = inode_table_size (superblock st).
Proof.
  destruct c; cbn [run_call].
  - apply allocate_block_table_size.
  - apply free_block_table_size.
  - apply allocate_block_table_size.
  - apply free_block_table_size.
  - apply create_inode_table_size.
  - by rewrite set_permissions_superblock.
  - by rewrite add_acl_entry_superblock.
  - by rewrite remove_acl_entry_superblock.
  - apply create_file_table_size.
  - apply delete_file_table_size.
  - apply rename_file_table_size.
  - apply create_directory_table_size.
  - apply delete_directory_table_size.
  - by rewrite add_journal_entry_superblock.
  - by rewrite init_journal_superblock.
  - apply replay_from_table_size.
  - done.
Qed.

Lemma run_calls_table_size (st : FS) (cs : list Call) :
  inode_table_size (superblock (run_calls st cs))
  = inode_table_size (superblock st).
Proof.
  revert st. induction cs as [|c cs IH]; intros st; [done|].
  unfold run_calls in *. cbn [foldl]. by rewrite IH, run_call_table_size.
Qed.


(** ** Every state of the program is well formed *)

Lemma well_formed_edit_file fname opened response now (st : FS) :
  well_formed st → well_formed (edit_file fname opened response now st).
Proof.
  intros Hwf. unfold edit_file.
  repeat case_match; try done; apply well_formed_add_journal_entry;
    try done; by apply well_formed_with_host.
Qed.

Lemma edit_file_superblock fname opened response now (st : FS) :
  superblock (edit_file fname opened response now st) = superblock st.
Proof.
  unfold edit_file.
  repeat case_match; try done; by rewrite add_journal_entry_superblock.
Qed.

Lemma well_formed_open_file fname choice now (st : FS) :
  well_formed st → well_formed (open_file fname choice now st).
Proof.
  intros Hwf. unfold open_file.
  repeat case_match; try done; apply well_formed_add_journal_entry;
    try done; by apply well_formed_edit_file.
Qed.

Lemma open_file_superblock fname choice now (st : FS) :
  superblock (open_file fname choice now st) = superblock st.
Proof.
  unfold open_file.
  repeat case_match; try done; rewrite add_journal_entry_superblock;
    try done; apply edit_file_superblock.
Qed.

Lemma well_formed_change_file_permissions fname new_mode now (st : FS) disk :
  well_formed st →
  well_formed (fst (fst (change_file_permissions fname new_mode now st disk))).
Proof.
  intros Hwf. unfold change_file_permissions. case_match; [done|].
  cbn [fst]. apply well_formed_add_journal_entry.
  apply well_formed_update_inode; [|done].
  intros ino. apply inode_ok_chmod.
Qed.

Lemma change_file_permissions_superblock fname new_mode now (st : FS) disk :
  superblock (fst (fst (change_file_permissions fname new_mode now st disk)))
  = superblock st.
Proof.
  unfold change_file_permissions. case_match; [done|].
  cbn [fst]. by rewrite add_journal_entry_superblock.
Qed.

Lemma init_file_system_saved (sb : Superblock) (tbl : list Inode) (h : Host) :
  superblock (init_file_system (Some (sb, tbl)) h) = sb
  ∧ inode_table (init_file_system (Some (sb, tbl)) h) = tbl
  ∧ root_directory (init_file_system (Some (sb, tbl)) h)
    = root_directory (init_file_system None h)
  ∧ journal (init_file_system (Some (sb, tbl)) h)
    = journal (init_file_system None h)
  ∧ journal_index (init_file_system (Some (sb, tbl)) h) = 0
  ∧ host (init_file_system (Some (sb, tbl)) h) = h.
Proof. done. Qed.

Lemma well_formed_init_saved (st : FS) (h : Host) :
  well_formed st →
  well_formed (init_file_system (Some (superblock st, inode_table st)) h).
Proof.
  intros Hwf. pose proof (well_formed_init h) as Hi.
  destruct Hwf, Hi. constructor; try done.
  change (0 + free_inode_count (superblock st) ≤ INODE_TABLE_SIZE). lia.
Qed.

Lemma save_file_system_state_whole (st : FS) disk :
  well_formed st →
  inode_table_size (superblock st) = INODE_TABLE_SIZE →
  save_file_system_state st disk
  = if decide (SNAPSHOT_FILENAME ∈ denied (host st)) then disk
    else Some (superblock st, inode_table st).
Proof.
  intros Hwf Hsz. unfold save_file_system_state. case_decide; [done|].
  by rewrite Hsz, <- (wf_table _ Hwf), firstn_all.
Qed.

Lemma snapshot_ok_None : snapshot_ok None.
Proof.
  intros h. split_and!; [apply well_formed_init|done|by vm_compute].
Qed.

Lemma snapshot_ok_saved (st : FS) disk :
  well_formed st →
  inode_table_size (superblock st) = INODE_TABLE_SIZE →
  counter_gap st = -1 →
  snapshot_ok disk → snapshot_ok (save_file_system_state st disk).
Proof.
  intros Hwf Hsz Hgap Hdisk. rewrite save_file_system_state_whole by done.
  case_decide; [done|]. intros h.
  split_and!; [by apply well_formed_init_saved|done|].
  by rewrite (counter_gap_superblock st).
Qed.

Lemma machine_ok_run_action m (a : Action) :
  machine_ok m → machine_ok (run_action m a).
Proof.
  intros (Hwf & Hsz & Hgap & Hdisk). destruct m as [st disk].
  cbn [fst snd] in *.
  destruct a; unfold machine_ok; cbn [run_action fst snd].
  - split_and!; [by apply well_formed_run_call| | |done].
    + by rewrite run_call_table_size.
    + by rewrite run_call_gap.
  - split_and!.
    + by apply well_formed_change_file_permissions.
    + by rewrite change_file_permissions_superblock.
    + rewrite (counter_gap_superblock st); [done|].
      apply change_file_permissions_superblock.
    + unfold change_file_permissions. case_match; [done|]. cbn [fst snd].
      unfold save_permissions. apply snapshot_ok_saved; [|done|done|done].
      apply well_formed_update_inode; [|done].
      intros ino. apply inode_ok_chmod.
  - split_and!; [by apply well_formed_edit_file| | |done].
    + by rewrite edit_file_superblock.
    + rewrite (counter_gap_superblock st); [done|]. apply edit_file_superblock.
  - split_and!; [by apply well_formed_open_file| | |done].
    + by rewrite open_file_superblock.
    + rewrite (counter_gap_superblock st); [done|]. apply open_file_superblock.
  - split_and!; [apply Hdisk|apply Hdisk|apply Hdisk|done].
Qed.

Lemma machine_ok_run_actions (acts : list Action) m :
  machine_ok m → machine_ok (run_actions m acts).
Proof.
  revert m. induction acts as [|a acts IH]; intros m Hm; [done|].
  apply IH. by apply machine_ok_run_action.
Qed.

Lemma machine_ok_reached (h : Host) (acts : list Action) :
  machine_ok (run_actions (init_file_system None h, None) acts).
Proof.
  apply machine_ok_run_actions. split_and!.
  - apply well_formed_init.
  - done.
  - by vm_compute.
  - apply snapshot_ok_None.
Qed.

Lemma well_formed_reached (h : Host) (acts : list Action) :
  well_formed (reached h acts).
Proof. apply machine_ok_reached. Qed.

Lemma table_size_reached (h : Host) (acts : list Action) :
  inode_table_size (superblock (reached h acts)) = INODE_TABLE_SIZE.
Proof. apply machine_ok_reached. Qed.

Lemma counter_gap_reached (h : Host) (acts : list Action) :
  counter_gap (reached h acts) = -1.
Proof. apply machine_ok_reached. Qed.

(** X1.  While the program runs after a fresh initialisation, on names
    that fit the name field (the action lists of [in_scope]), the
    indices it writes through stay inside the fixed arrays: the tables
    keep their declared lengths, the journal index stays below
    [JOURNAL_SIZE], the directory never holds more than [MAX_FILES]
    entries ([create_file] does not test this itself: the free-inode
    count, which is never given back, runs out first), and no ACL holds
    more than [MAX_ACL_ENTRIES] entries. *)
Theorem reachable_states_stay_in_bounds (h : Host) (acts : list Action) :
  in_scope acts = true →
  let st := reached h acts in
  length (inode_table st) = Z.to_nat INODE_TABLE_SIZE
  ∧ length (free_block_bitmap (superblock st)) = Z.to_nat NUM_BLOCKS
  ∧ length (journal st) = Z.to_nat JOURNAL_SIZE
  ∧ length (entries (root_directory st)) = Z.to_nat MAX_FILES
  ∧ 0 ≤ journal_index st < JOURNAL_SIZE
  ∧ 0 ≤ entry_count (root_directory st) ≤ MAX_FILES
  ∧ 0 ≤ free_inode_count (superblock st) ≤ INODE_TABLE_SIZE
  ∧ entry_count (root_directory st) + free_inode_count (superblock st)
    ≤ INODE_TABLE_SIZE
  ∧ (∀ ino, ino ∈ inode_table st →
            0 ≤ acl_count ino ≤ MAX_ACL_ENTRIES
            ∧ length (acl ino) = Z.to_nat MAX_ACL_ENTRIES
            ∧ length (direct_blocks ino) = Z.to_nat DIRECT_BLOCKS)
  ∧ (∀ b, b ∈ free_block_bitmap (superblock st) → b = 0 ∨ b = 1).
Proof.
  intros Hscope st.
  assert (well_formed st) as Hwf
    by apply well_formed_reached.
  pose proof (well_formed_entry_count st Hwf) as Hmax.
  destruct Hwf as [? Hok ? Hbits ? ? ? ? ? ? ?].
  split_and!; try done; try (unfold MAX_FILES, INODE_TABLE_SIZE in *; lia).
  - intros ino Hino. rewrite Forall_forall in Hok.
    by destruct (Hok ino Hino).
  - by apply Forall_forall.
Qed.

Lemma reachable_states_stay_in_bounds_witness :
  let st := reached empty_host
              [ActCall (CallCreateFile "a" 0 1700000000);
               ActCall (CallRenameFile "a" "b" 1700000001);
               ActCall (CallCreateDirectory "d" 1700000002)] in
  0 ≤ journal_index st < JOURNAL_SIZE
  ∧ 0 ≤ entry_count (root_directory st) ≤ MAX_FILES
  ∧ entry_count (root_directory st) + free_inode_count (superblock st)
    ≤ INODE_TABLE_SIZE.
Proof.
  intros st.
  destruct (reachable_states_stay_in_bounds empty_host
              [ActCall (CallCreateFile "a" 0 1700000000);
               ActCall (CallRenameFile "a" "b" 1700000001);
               ActCall (CallCreateDirectory "d" 1700000002)] eq_refl)
    as (_ & _ & _ & _ & Hidx & Hcount & _ & Hbudget & _).
  split_and!; [apply Hidx|apply Hidx|apply Hcount|apply Hcount|exact Hbudget].
Defined.

(** X2.  No function of the program ever stores a size other than 0 in
    an inode, so while the program runs after a fresh initialisation,
    on names that fit the name field, every slot counts as free:
    [create_inode] returns slot 0 whenever the free-inode count lets it
    succeed, every directory entry carries inode number 0, and
    [find_inode_by_filename] answers 0 or -1. *)
Theorem every_file_shares_inode_zero (h : Host) (acts : list Action) :
  in_scope acts = true →
  let st := reached h acts in
  (∀ ino, ino ∈ inode_table st → i_size ino = 0)
  ∧ (∀ e, e ∈ dir_entries (root_directory st) → inode_number e = 0)
  ∧ (∀ d m o g now,
       snd (create_inode d m o g now st)
       = if free_inode_count (superblock st) =? 0 then -1 else 0)
  ∧ (∀ path d now, ∀ e,
       e ∈ dir_entries (root_directory (fst (create_file path d now st))) →
       inode_number e = 0)
  ∧ (∀ fname, find_inode_by_filename fname st = 0
              ∨ find_inode_by_filename fname st = -1).
Proof.
  intros Hscope st.
  assert (well_formed st) as Hwf
    by apply well_formed_reached.
  assert (∀ s, well_formed s →
               ∀ e, e ∈ dir_entries (root_directory s) → inode_number e = 0)
    as Hnum.
  { intros s Hs e He. unfold dir_entries in He.
    apply elem_of_take in He as (i & He & _).
    pose proof (wf_numbers s Hs) as Hn.
    rewrite Forall_lookup in Hn. by eapply Hn. }
  split_and!.
  - intros ino Hino. destruct Hwf as [_ Hok]. rewrite Forall_forall in Hok.
    by destruct (Hok ino Hino).
  - by apply Hnum.
  - intros d m o g now. rewrite create_inode_well_formed by done.
    by case_match.
  - intros path d now. by apply Hnum, well_formed_create_file.
  - intros [f|]; [|by right]. unfold find_inode_by_filename.
    case_match; [by right|].
    destruct (list_find _ _) as [[i e]|] eqn:E; [|by right].
    left. apply list_find_Some in E as (Hi & _).
    apply (Hnum st Hwf). by eapply list_elem_of_lookup_2.
Qed.

Lemma every_file_shares_inode_zero_witness :
  let st := reached empty_host
              [ActCall (CallCreateFile "a" 0 1700000000);
               ActCall (CallCreateFile "b" 0 1700000001)] in
  (∀ e, e ∈ dir_entries (root_directory st) → inode_number e = 0)
  ∧ snd (create_inode 0 420 11 10 1700000002 st) = 0.
Proof.
  intros st.
  destruct (every_file_shares_inode_zero empty_host
              [ActCall (CallCreateFile "a" 0 1700000000);
               ActCall (CallCreateFile "b" 0 1700000001)] eq_refl)
    as (_ & Hentries & Hcreate & _).
  split; [exact Hentries|].
  etrans; [exact (Hcreate 0 420 11 10 1700000002)|]. vm_compute. reflexivity.
Defined.

(** ** The free-inode count only goes down *)

Lemma inodes_not_returned_refl (st : FS) : inodes_not_returned st st.
Proof. unfold inodes_not_returned. lia. Qed.

Lemma inodes_not_returned_trans (st1 st2 st3 : FS) :
  inodes_not_returned st3 st2 → inodes_not_returned st2 st1 →
  inodes_not_returned st3 st1.
Proof. unfold inodes_not_returned. lia. Qed.

Lemma inodes_not_returned_superblock (st' st : FS) :
  superblock st' = superblock st → inodes_not_returned st' st.
Proof. unfold inodes_not_returned. intros ->. lia. Qed.

Lemma create_inode_not_returned d m o g now (st : FS) :
  inodes_not_returned (fst (create_inode d m o g now st)) st.
Proof.
  unfold create_inode, inodes_not_returned.
  repeat case_match; simpl; lia.
Qed.

Lemma allocate_block_not_returned (st : FS) :
  inodes_not_returned (fst (allocate_block st)) st.
Proof.
  unfold allocate_block, inodes_not_returned. case_match; simpl; lia.
Qed.

Lemma free_block_not_returned b (st : FS) :
  inodes_not_returned (free_block b st) st.
Proof.
  unfold inodes_not_returned. rewrite free_block_free_inode_count. lia.
Qed.

Lemma release_inode_not_returned n now (st : FS) :
  inodes_not_returned (release_inode n now st) st.
Proof.
  unfold inodes_not_returned. rewrite release_inode_unfold. simpl.
  rewrite foldl_free_block_free_inode_count. lia.
Qed.

Lemma create_file_not_returned p d now (st : FS) :
  inodes_not_returned (fst (create_file p d now st)) st.
Proof.
  unfold create_file. case_match; [apply inodes_not_returned_refl|].
  pose proof (create_inode_not_returned d 511 current_user_id current_group_id
                now st) as Hc.
  destruct (create_inode _ _ _ _ _ _) as [st1 ino]. simpl in Hc.
  repeat case_match; simpl; try done.
  eapply inodes_not_returned_trans; [|exact Hc].
  apply inodes_not_returned_superblock.
  by rewrite add_journal_entry_superblock.
Qed.

Lemma delete_file_not_returned f now (st : FS) :
  inodes_not_returned (delete_file f now st) st.
Proof.
  unfold delete_file.
  repeat case_match; try apply inodes_not_returned_refl;
    (eapply inodes_not_returned_trans;
     [apply inodes_not_returned_superblock, add_journal_entry_superblock|]);
    first [ by apply inodes_not_returned_superblock
          | apply (release_inode_not_returned _ _ (with_host _ st)) ].
Qed.

Lemma delete_directory_not_returned f now (st : FS) :
  inodes_not_returned (delete_directory f now st) st.
Proof.
  unfold delete_directory.
  repeat case_match; try apply inodes_not_returned_refl;
    (eapply inodes_not_returned_trans;
     [apply inodes_not_returned_superblock, add_journal_entry_superblock|]);
    first [ by apply inodes_not_returned_superblock
          | apply (release_inode_not_returned _ _ (with_host _ st)) ].
Qed.

Lemma rename_file_not_returned o n now (st : FS) :
  inodes_not_returned (rename_file o n now st) st.
Proof.
  unfold rename_file.
  repeat case_match; try apply inodes_not_returned_refl;
    apply inodes_not_returned_superblock;
    by rewrite add_journal_entry_superblock.
Qed.

Lemma create_directory_not_returned p now (st : FS) :
  inodes_not_returned (fst (create_directory p now st)) st.
Proof.
  unfold create_directory. case_match; [apply inodes_not_returned_refl|].
  destruct (host_mkdir _ _) as [h|]; [|apply inodes_not_returned_refl].
  pose proof (create_inode_not_returned 1 493 current_user_id current_group_id
                now (with_host h st)) as Hc.
  destruct (create_inode _ _ _ _ _ _) as [st1 ino]. simpl in Hc.
  case_match; simpl; [done|].
  eapply inodes_not_returned_trans; [|exact Hc].
  apply inodes_not_returned_superblock.
  by rewrite add_journal_entry_superblock.
Qed.

Lemma replay_entry_not_returned e now (st : FS) :
  inodes_not_returned (replay_entry e now st) st.
Proof.
  unfold replay_entry.
  repeat case_match;
    auto using inodes_not_returned_refl, create_file_not_returned,
      delete_file_not_returned, rename_file_not_returned.
  by apply inodes_not_returned_superblock.
Qed.

Lemma replay_from_not_returned n i now (st : FS) :
  inodes_not_returned (replay_from n i now st) st.
Proof.
  revert i st. induction n as [|n IH]; intros i st; simpl.
  - apply inodes_not_returned_refl.
  - eapply inodes_not_returned_trans; [apply IH|].
    apply replay_entry_not_returned.
Qed.

Lemma run_call_not_returned (st : FS) (c : Call) :
  inodes_not_returned (run_call st c) st.
Proof.
  destruct c; simpl;
    auto using allocate_block_not_returned, free_block_not_returned,
      create_inode_not_returned, create_file_not_returned,
      delete_file_not_returned, rename_file_not_returned,
      create_directory_not_returned, delete_directory_not_returned,
      inodes_not_returned_superblock, set_permissions_superblock,
      add_acl_entry_superblock, remove_acl_entry_superblock,
      add_journal_entry_superblock, init_journal_superblock,
      inodes_not_returned_refl.
  apply replay_from_not_returned.
Qed.

Lemma run_action_not_returned m (a : Action) :
  a ≠ ActRestart → inodes_not_returned (fst (run_action m a)) (fst m).
Proof.
  intros Ha. destruct a; cbn [run_action fst]; [| | | |done].
  - apply run_call_not_returned.
  - apply inodes_not_returned_superblock, change_file_permissions_superblock.
  - apply inodes_not_returned_superblock, edit_file_superblock.
  - apply inodes_not_returned_superblock, open_file_superblock.
Qed.

(** X3.  While the program runs, nothing ever raises the free-inode
    count: along any sequence of actions without a restart, from any
    state, it only stays or falls.  In particular a file that is created
    and then deleted leaves the count one lower than before. *)
Theorem free_inode_count_never_rises
    (m : FS * option (Superblock * list Inode)) (acts : list Action) :
  ActRestart ∉ acts →
  free_inode_count (superblock (fst (run_actions m acts)))
  ≤ free_inode_count (superblock (fst m)).
Proof.
  revert m. induction acts as [|a acts IH]; intros m Hacts; [simpl; lia|].
  apply not_elem_of_cons in Hacts as [Ha Hacts].
  pose proof (IH (run_action m a) Hacts) as H1.
  pose proof (run_action_not_returned m a) as H2.
  unfold run_actions, inodes_not_returned in *. cbn [foldl].
  specialize (H2 (not_eq_sym Ha)). lia.
Qed.

Lemma free_inode_count_never_rises_witness :
  free_inode_count
    (superblock
       (fst (run_actions (init_file_system None empty_host, None)
               [ActCall (CallCreateFile "a" 0 1700000000);
                ActEditFile "a" true (Some "text") 1700000001;
                ActCall (CallDeleteFile "a" 1700000002)])))
  ≤ free_inode_count (superblock (init_file_system None empty_host)).
Proof.
  apply (free_inode_count_never_rises (init_file_system None empty_host, None)).
  rewrite !not_elem_of_cons. split_and!; try done. apply not_elem_of_nil.
Defined.

(** ** More on the block allocator *)

Lemma sb_mark_undo (i : nat) (sb : Superblock) :
  free_block_bitmap sb !! i = Some 0 →
  sb_mark i 0 1 (sb_mark i 1 (-1) sb) = sb.
Proof.
  intros Hi. destruct sb as [s n f t c bm]. unfold sb_mark. simpl in *.
  f_equal; [lia|].
  rewrite list_insert_insert_eq. by apply list_insert_id.
Qed.

(** X4.  [allocate_block] hands out the lowest block whose bitmap word
    is 0 and takes one off the counter; it answers -1, changing
    nothing, exactly when no word is 0; and [free_block] on the block
    just handed out restores the state as it was. *)
Theorem allocate_block_lowest_then_undone (st : FS) :
  let st' := fst (allocate_block st) in
  let r := snd (allocate_block st) in
  (r = -1 ↔ count_free (free_block_bitmap (superblock st)) = 0)
  ∧ (r = -1 → st' = st)
  ∧ (r ≠ -1 →
     0 ≤ r < NUM_BLOCKS
     ∧ block_marked 0 st r ∧ block_marked 1 st' r
     ∧ (∀ j b, (j < Z.to_nat r)%nat →
               free_block_bitmap (superblock st) !! j = Some b → b ≠ 0)
     ∧ (∀ j, j ≠ Z.to_nat r →
             free_block_bitmap (superblock st') !! j
             = free_block_bitmap (superblock st) !! j)
     ∧ free_blocks (superblock st') = free_blocks (superblock st) - 1
     ∧ free_block r st' = st).
Proof.
  intros st' r. subst st' r. unfold allocate_block.
  destruct (first_free_block _) as [i|] eqn:E; simpl.
  - pose proof (first_free_block_Some _ _ E) as (Hi & Hx & Hmin).
    split_and!.
    + split; [lia|]. intros Hz.
      pose proof (count_free_insert _ i 0 1 Hi Hx) as Hc.
      unfold indicator in Hc. simpl in Hc.
      assert (0 ≤ count_free (<[i:=1]> (free_block_bitmap (superblock st))))
        by (unfold count_free; lia).
      lia.
    + lia.
    + intros _. unfold block_marked. rewrite Nat2Z.id. simpl.
      split_and!; try done; try (unfold NUM_BLOCKS in *; lia).
      * apply list_lookup_insert_eq. by eapply lookup_lt_Some.
      * intros j Hj. by apply list_lookup_insert_ne.
      * rewrite free_block_used.
        -- simpl. rewrite Nat2Z.id, sb_mark_undo by done. by destruct st.
        -- unfold NUM_BLOCKS in *. lia.
        -- unfold block_marked. rewrite Nat2Z.id. simpl.
           apply list_lookup_insert_eq. by eapply lookup_lt_Some.
  - split_and!; [|done..]. split; [|done].
    intros _. by apply first_free_block_None.
Qed.

Lemma free_block_noop (b : Z) (st : FS) :
  ¬ (0 ≤ b < NUM_BLOCKS ∧ block_marked 1 st b) → free_block b st = st.
Proof.
  intros Hn. unfold free_block.
  destruct (Z.ltb_spec b 0); [done|].
  destruct (Z.geb_spec b NUM_BLOCKS); [done|]. simpl.
  destruct (Z.eqb_spec (nth_Z 0 (free_block_bitmap (superblock st)) b) 1)
    as [H1|]; [|done].
  exfalso. apply Hn. split; [lia|].
  unfold block_marked, nth_Z in *.
  destruct (Z.ltb_spec b 0); [lia|].
  by destruct (free_block_bitmap (superblock st) !! Z.to_nat b) as [x|];
    simpl in *; subst.
Qed.

(** X5.  [free_block] changes the state only for a block in range whose
    word is 1; a second call on the same block changes nothing more;
    and once a used block [b] has been freed the next [allocate_block]
    hands out [b] or a lower block. *)
Theorem free_block_once_then_reused (b : Z) (st : FS) :
  (¬ (0 ≤ b < NUM_BLOCKS ∧ block_marked 1 st b) → free_block b st = st)
  ∧ free_block b (free_block b st) = free_block b st
  ∧ (0 ≤ b < NUM_BLOCKS → block_marked 1 st b →
     block_marked 0 (free_block b st) b
     ∧ free_blocks (superblock (free_block b st)) = free_blocks (superblock st) + 1
     ∧ 0 ≤ snd (allocate_block (free_block b st)) ≤ b).
Proof.
  split_and!.
  - apply free_block_noop.
  - apply free_block_idempotent.
  - intros Hb Hm.
    assert (block_marked 0 (free_block b st) b) as H0.
    { rewrite free_block_used by done. unfold block_marked in *. simpl.
      apply list_lookup_insert_eq. by eapply lookup_lt_Some. }
    split_and!; [done|by rewrite free_block_used| |].
    + unfold allocate_block. case_match; simpl; [lia|].
      exfalso. unfold first_free_block in *.
      destruct (list_find _ _) as [[i x]|] eqn:E; [done|].
      rewrite list_find_None, Forall_lookup in E.
      apply (E (Z.to_nat b) 0); [|done].
      rewrite lookup_take_lt by (unfold NUM_BLOCKS in *; lia). exact H0.
    + unfold allocate_block.
      destruct (first_free_block _) as [i|] eqn:E; simpl; [|lia].
      apply first_free_block_Some in E as (_ & _ & Hmin).
      destruct (decide (Z.of_nat i ≤ b)); [done|].
      exfalso. apply (Hmin (Z.to_nat b) 0); [lia|exact H0|done].
Qed.

Lemma free_block_once_then_reused_witness :
  let st := fst (allocate_block (fst (allocate_block
                   (init_file_system None empty_host)))) in
  block_marked 0 (free_block 0 st) 0
  ∧ free_blocks (superblock (free_block 0 st)) = free_blocks (superblock st) + 1
  ∧ 0 ≤ snd (allocate_block (free_block 0 st)) ≤ 0.
Proof.
  intros st.
  apply (proj2 (proj2 (free_block_once_then_reused 0 st))).
  - by vm_compute.
  - vm_compute. reflexivity.
Defined.

(** ** More on ACL entries *)

Lemma get_acl_permissions_entries (n uid : Z) (st : FS) :
  inode_in_range n = true →
  get_acl_permissions n uid st
  = match list_find (λ e, user_id e = uid) (acl_entries (get_inode n st)) with
    | Some (_, e) => permissions e
    | None => 0
    end.
Proof. intros Hr. unfold get_acl_permissions. by rewrite Hr. Qed.

Lemma list_find_snoc_permissions (l : list ACL_Entry) (u uid p : Z) :
  match list_find (λ e, user_id e = u) (l ++ [mkACL uid p]) with
  | Some (_, e) => permissions e
  | None => 0
  end
  = match list_find (λ e, user_id e = u) l with
    | Some (_, e) => permissions e
    | None => if decide (u = uid) then p else 0
    end.
Proof.
  destruct (list_find (λ e, user_id e = u) l) as [[i e]|] eqn:E.
  - by rewrite (list_find_app_l _ _ _ _ _ E).
  - rewrite list_find_app_r by done. simpl.
    destruct (decide (uid = u)) as [->|Hne].
    + by rewrite decide_True.
    + simpl. by rewrite decide_False by congruence.
Qed.

Lemma acl_absent_or_present (ino : Inode) (u : Z) :
  acl_absent ino u ∨ ¬ acl_absent ino u.
Proof.
  destruct (list_find (λ e, user_id e = u) (acl_entries ino)) as [[i e]|] eqn:E.
  - right. intros Habs. apply list_find_Some in E as (Hi & Hu & _).
    apply (Habs e); [|done]. by eapply list_elem_of_lookup_2.
  - left. rewrite list_find_None, Forall_forall in E. exact E.
Qed.

Lemma get_acl_permissions_add (n u uid p : Z) (st : FS) :
  0 ≤ n < INODE_TABLE_SIZE →
  table_shape st →
  acl_shape (get_inode n st) →
  acl_count (get_inode n st) < MAX_ACL_ENTRIES →
  invalid_permission_bits p = false →
  (acl_absent (get_inode n st) u → u = uid →
   get_acl_permissions n u (add_acl_entry n uid p st) = p)
  ∧ (¬ (acl_absent (get_inode n st) u ∧ u = uid) →
     get_acl_permissions n u (add_acl_entry n uid p st)
     = get_acl_permissions n u st).
Proof.
  intros Hn Htable [Hc Hlen] Hroom Hvalid.
  assert (inode_in_range n = true) as Hr by by apply inode_in_range_spec.
  rewrite add_acl_entry_accepted by done.
  rewrite !get_acl_permissions_entries by done.
  rewrite get_inode_update_inode;
    [|lia|unfold table_shape, INODE_TABLE_SIZE in *; lia].
  rewrite acl_entries_add by (unfold MAX_ACL_ENTRIES in *; lia).
  rewrite list_find_snoc_permissions.
  destruct (list_find (λ e, user_id e = u) (acl_entries (get_inode n st)))
    as [[i e]|] eqn:E.
  - split; [|done]. intros Habs _.
    apply list_find_Some in E as (Hi & Hu & _).
    destruct (Habs e); [|done]. by eapply list_elem_of_lookup_2.
  - rewrite list_find_None, Forall_forall in E. split.
    + intros _ ->. by rewrite decide_True.
    + intros Hnot. rewrite decide_False; [done|]. intros ->. by apply Hnot.
Qed.

Lemma lor_covers_mono (base extra req : Z) :
  Z.land (Z.lor base 0) req = req → Z.land (Z.lor base extra) req = req.
Proof.
  rewrite Z.lor_0_r, !land_covers. intros Hc k Hk Hr.
  rewrite Z.lor_spec. by rewrite (Hc k Hk Hr).
Qed.

(** X6.  [add_acl_entry] only ever adds rights.  An accepted call for a
    user with no entry yet makes [get_acl_permissions] answer the new
    bits for that user; for a user who already has an entry the answer
    stays what it was, the first entry shadowing the new one; the answers
    for other users do not change; and whoever passed [has_permission]
    before the call, on any inode and for any request, passes it after. *)
Theorem add_acl_entry_only_adds (n uid p : Z) (st : FS) :
  0 ≤ n < INODE_TABLE_SIZE →
  table_shape st →
  acl_shape (get_inode n st) →
  (acl_count (get_inode n st) < MAX_ACL_ENTRIES →
   invalid_permission_bits p = false →
   (acl_absent (get_inode n st) uid →
    get_acl_permissions n uid (add_acl_entry n uid p st) = p)
   ∧ (¬ acl_absent (get_inode n st) uid →
      get_acl_permissions n uid (add_acl_entry n uid p st)
      = get_acl_permissions n uid st)
   ∧ (∀ u, u ≠ uid →
           get_acl_permissions n u (add_acl_entry n uid p st)
           = get_acl_permissions n u st))
  ∧ (∀ m u req, 0 ≤ m →
       has_permission m u req st = 1 →
       has_permission m u req (add_acl_entry n uid p st) = 1).
Proof.
  intros Hn Htable Hshape. split.
  - intros Hroom Hvalid.
    split_and!.
    + intros Habs.
      by apply (proj1 (get_acl_permissions_add n uid uid p st
                         Hn Htable Hshape Hroom Hvalid)).
    + intros Hpres.
      apply (proj2 (get_acl_permissions_add n uid uid p st
                      Hn Htable Hshape Hroom Hvalid)).
      by intros [? _].
    + intros u Hne.
      apply (proj2 (get_acl_permissions_add n u uid p st
                      Hn Htable Hshape Hroom Hvalid)).
      by intros [_ ?].
  - intros m u req Hm Hbefore.
    destruct (decide (acl_count (get_inode n st) < MAX_ACL_ENTRIES
                      ∧ invalid_permission_bits p = false)) as [[Hroom Hvalid]|Hrej].
    + destruct (decide (m = n)) as [->|Hne].
      * destruct (get_acl_permissions_add n u uid p st
                    Hn Htable Hshape Hroom Hvalid) as [Hnew Hold].
        unfold has_permission in *.
        destruct (inode_in_range n) eqn:Hr; simpl in *; [|done].
        assert (base_permissions
                  (get_inode n (add_acl_entry n uid p st)) u
                = base_permissions (get_inode n st) u) as ->.
        { rewrite add_acl_entry_accepted by done.
          rewrite get_inode_update_inode;
            [done|lia|unfold table_shape, INODE_TABLE_SIZE in *; lia]. }
        destruct (acl_absent_or_present (get_inode n st) u) as [Habs|Hpres].
        -- destruct (decide (u = uid)) as [Heq|Hneq].
           ++ rewrite Hnew by done.
              rewrite get_acl_permissions_absent in Hbefore by done.
              destruct (Z.eqb_spec
                          (Z.land (Z.lor (base_permissions (get_inode n st) u) 0)
                                  req) req) as [Hcov|]; [|done].
              by rewrite (lor_covers_mono _ p _ Hcov), Z.eqb_refl.
           ++ rewrite Hold; [done|]. by intros [_ ?].
        -- rewrite Hold; [done|]. by intros [? _].
      * rewrite add_acl_entry_accepted
          by (done || by apply inode_in_range_spec).
        unfold has_permission, get_acl_permissions in *.
        by rewrite get_inode_update_inode_ne by lia.
    + assert (add_acl_entry n uid p st = st) as ->; [|done].
      unfold add_acl_entry. case_match; [done|].
      destruct (Z.geb_spec (acl_count (get_inode n st)) MAX_ACL_ENTRIES); [done|].
      destruct (invalid_permission_bits p) eqn:E; [done|].
      exfalso. apply Hrej. split; [lia|done].
Qed.

Lemma add_acl_entry_only_adds_witness :
  let st := fst (create_inode 0 420 11 10 1700000000
                   (init_file_system None empty_host)) in
  get_acl_permissions 0 99 (add_acl_entry 0 99 PERMISSION_WRITE st)
  = PERMISSION_WRITE
  ∧ (has_permission 0 11 PERMISSION_READ st = 1 →
     has_permission 0 11 PERMISSION_READ
       (add_acl_entry 0 99 PERMISSION_WRITE st) = 1).
Proof.
  intros st.
  assert (0 ≤ 0 < INODE_TABLE_SIZE) as Hn by by vm_compute.
  assert (table_shape st) as Ht by by vm_compute.
  assert (acl_shape (get_inode 0 st)) as Hs by by vm_compute.
  destruct (add_acl_entry_only_adds 0 99 PERMISSION_WRITE st Hn Ht Hs)
    as [Hfirst Hmono].
  split.
  - apply Hfirst; [by vm_compute|reflexivity|].
    intros e He. vm_compute in He. by apply elem_of_nil in He.
  - apply Hmono. lia.
Defined.

Lemma acl_entries_remove_split (uid : Z) (ino : Inode)
    (l1 l2 : list ACL_Entry) (e : ACL_Entry) :
  acl_shape ino →
  acl_entries ino = l1 ++ e :: l2 →
  user_id e = uid →
  (∀ x, x ∈ l1 → user_id x ≠ uid) →
  acl_entries (inode_remove_acl uid ino) = l1 ++ l2
  ∧ acl_count (inode_remove_acl uid ino) = acl_count ino - 1.
Proof.
  intros Hshape Hsplit Hu Hl1.
  assert (list_find (λ e, user_id e = uid) (acl_entries ino)
          = Some (length l1, e)) as Hfind.
  { apply list_find_Some. rewrite Hsplit. split_and!.
    - by rewrite list_lookup_middle.
    - done.
    - intros j y Hy Hj. rewrite lookup_app_l in Hy by done.
      apply Hl1. by eapply list_elem_of_lookup_2. }
  split.
  - rewrite (acl_entries_remove uid ino _ e Hshape Hfind), Hsplit.
    rewrite delete_take_drop.
    rewrite take_app_length. f_equal.
    rewrite drop_app_ge by lia.
    by replace (S (length l1) - length l1)%nat with 1%nat by lia.
  - unfold inode_remove_acl. by rewrite Hfind.
Qed.

Lemma inode_remove_acl_absent (uid : Z) (ino : Inode) :
  acl_absent ino uid → inode_remove_acl uid ino = ino.
Proof.
  intros Habs. unfold inode_remove_acl.
  assert (list_find (λ e, user_id e = uid) (acl_entries ino) = None) as ->;
    [|done].
  apply list_find_None, Forall_forall. intros e He. by apply Habs.
Qed.

(** X7.  [remove_acl_entry] takes out the first entry of the inode's ACL
    that carries the user id, keeps the other entries in their order and
    lowers the count by one; with no such entry the inode is left as it
    is; and removing a user right after an accepted [add_acl_entry] for
    a user not yet listed gives back the ACL as it was. *)
Theorem remove_acl_entry_first_match (n uid : Z) (st : FS) :
  0 ≤ n < INODE_TABLE_SIZE →
  table_shape st →
  acl_shape (get_inode n st) →
  let ino := get_inode n st in
  let ino' := get_inode n (remove_acl_entry n uid st) in
  (∀ l1 e l2,
     acl_entries ino = l1 ++ e :: l2 → user_id e = uid →
     (∀ x, x ∈ l1 → user_id x ≠ uid) →
     acl_entries ino' = l1 ++ l2 ∧ acl_count ino' = acl_count ino - 1)
  ∧ (acl_absent ino uid → ino' = ino)
  ∧ (∀ p, acl_absent ino uid →
          acl_count ino < MAX_ACL_ENTRIES →
          invalid_permission_bits p = false →
          acl_entries
            (get_inode n (remove_acl_entry n uid (add_acl_entry n uid p st)))
          = acl_entries ino).
Proof.
  intros Hn Htable Hshape ino ino'.
  assert (inode_in_range n = true) as Hr by by apply inode_in_range_spec.
  assert (∀ s, table_shape s →
               get_inode n (remove_acl_entry n uid s)
               = inode_remove_acl uid (get_inode n s)) as Hrm.
  { intros s Hs. unfold remove_acl_entry. rewrite Hr. simpl.
    apply get_inode_update_inode;
      [lia|unfold table_shape, INODE_TABLE_SIZE in *; lia]. }
  subst ino ino'. rewrite Hrm by done. split_and!.
  - intros l1 e l2. by apply acl_entries_remove_split.
  - apply inode_remove_acl_absent.
  - intros p Habs Hroom Hvalid.
    rewrite Hrm.
    2:{ unfold table_shape in *. rewrite add_acl_entry_accepted by done.
        simpl. by rewrite length_alter. }
    rewrite add_acl_entry_accepted by done.
    rewrite get_inode_update_inode;
      [|lia|unfold table_shape, INODE_TABLE_SIZE in *; lia].
    destruct Hshape as [Hc Hlen].
    assert (acl_shape (inode_add_acl uid p (get_inode n st))) as Hshape'.
    { split; simpl; [lia|by rewrite length_insert]. }
    destruct (acl_entries_remove_split uid
                (inode_add_acl uid p (get_inode n st))
                (acl_entries (get_inode n st)) [] (mkACL uid p))
      as [Hent _]; try done.
    + apply acl_entries_add; unfold MAX_ACL_ENTRIES in *; lia.
    + by rewrite Hent, app_nil_r.
Qed.

Lemma remove_acl_entry_first_match_witness :
  let st := add_acl_entry 0 7 PERMISSION_READ
              (add_acl_entry 0 99 PERMISSION_WRITE
                 (fst (create_inode 0 420 11 10 1700000000
                         (init_file_system None empty_host)))) in
  acl_entries (get_inode 0 (remove_acl_entry 0 99 st))
  = [] ++ [mkACL 7 PERMISSION_READ]
  ∧ acl_count (get_inode 0 (remove_acl_entry 0 99 st))
    = acl_count (get_inode 0 st) - 1.
Proof.
  intros st.
  assert (0 ≤ 0 < INODE_TABLE_SIZE) as Hn by by vm_compute.
  assert (table_shape st) as Ht by by vm_compute.
  assert (acl_shape (get_inode 0 st)) as Hs by by vm_compute.
  apply (proj1 (remove_acl_entry_first_match 0 99 st Hn Ht Hs)
               [] (mkACL 99 PERMISSION_WRITE) [mkACL 7 PERMISSION_READ]).
  - reflexivity.
  - reflexivity.
  - intros x Hx. by apply elem_of_nil in Hx.
Defined.

(** ** Directory index and host files under the file operations *)




Lemma save_journal_root_directory (st : FS) :
  root_directory (save_journal st) = root_directory st.
Proof. unfold save_journal. by destruct (host_fopen_w _ _). Qed.



Lemma add_journal_entry_root_directory op f nf d now (st : FS) :
  root_directory (add_journal_entry op f nf d now st) = root_directory st.
Proof.
  unfold add_journal_entry. destruct f; [|done].
  by rewrite save_journal_root_directory.
Qed.


Lemma add_journal_entry_slot op f nf d now (st : FS) :
  length (journal st) = Z.to_nat JOURNAL_SIZE →
  0 ≤ journal_index st < JOURNAL_SIZE →
  journal (add_journal_entry op (Some f) nf d now st)
    !! Z.to_nat (journal_index st)
  = Some (make_journal_entry op f nf d now).
Proof.
  intros Hlen Hidx.
  rewrite (proj1 (add_journal_entry_journal op f nf d now st)).
  apply list_lookup_insert_eq. lia.
Qed.

























(** ** Operation tags, written and read back *)

(** X12.  The tag [operation_to_string] writes for an operation code and
    the code [string_to_operation] gives back for that tag agree for
    READ only: every other code, CREATE, DELETE, MODIFY and RENAME
    among them, comes back as -1.  The same holds for the first word of
    the tag, which is what [init_journal] hands to
    [string_to_operation]. *)
Theorem operation_tag_round_trip (op : Z) :
  string_to_operation (operation_to_string op)
  = (if decide (op = READ) then READ else -1)
  ∧ reloaded_operation op = (if decide (op = READ) then READ else -1).
Proof.
  unfold reloaded_operation, operation_to_string.
  repeat case_match; try done;
  repeat match goal with H : (_ =? _) = true |- _ => apply Z.eqb_eq in H
                    | H : (_ =? _) = false |- _ => apply Z.eqb_neq in H end;
  try (subst; done); try (exfalso; congruence).
Qed.

(** ** The snapshot of the tables *)

(** X13.  Saving the tables of any state reached from a fresh
    initialisation and initialising again from that snapshot: when the
    snapshot file cannot be opened the old snapshot stays; otherwise the
    superblock and all inode slots come back as they were, while the
    directory index comes back empty, so that no file name is found any
    more although the inodes taken stay taken. *)
Theorem snapshot_keeps_tables_loses_names (h h' : Host) (acts : list Action)
    (disk : option (Superblock * list Inode)) :
  let st := reached h acts in
  let disk' := save_file_system_state st disk in
  let st' := init_file_system disk' h' in
  (SNAPSHOT_FILENAME ∈ denied (host st) → disk' = disk)
  ∧ (SNAPSHOT_FILENAME ∉ denied (host st) →
     superblock st' = superblock st
     ∧ inode_table st' = inode_table st
     ∧ dir_entries (root_directory st') = []
     ∧ (∀ f, find_inode_by_filename f st' = -1)
     ∧ journal st' = journal (init_file_system None h')
     ∧ journal_index st' = 0).
Proof.
  intros st disk' st'.
  assert (well_formed st) as Hwf by apply well_formed_reached.
  assert (inode_table_size (superblock st) = INODE_TABLE_SIZE) as Hsz
    by apply table_size_reached.
  subst disk' st'. rewrite save_file_system_state_whole by done.
  split; intros Hd; [by rewrite decide_True|].
  rewrite decide_False by done.
  destruct (init_file_system_saved (superblock st) (inode_table st) h')
    as (Hsb & Htbl & Hroot & Hj & Hi & _).
  split_and!; try done.
  intros [f|]; [|done]. unfold find_inode_by_filename. rewrite Hroot.
  by case_match.
Qed.

(** ** Changing the mode of a file *)

Lemma find_inode_by_filename_wf (st : FS) (fname : option string) :
  well_formed st →
  find_inode_by_filename fname st = 0 ∨ find_inode_by_filename fname st = -1.
Proof.
  intros Hwf. destruct fname as [f|]; [|by right].
  unfold find_inode_by_filename. case_match; [by right|].
  destruct (list_find _ _) as [[i e]|] eqn:E; [|by right].
  left. apply list_find_Some in E as (Hi & _).
  unfold dir_entries in Hi. apply lookup_take_Some in Hi as [Hi _].
  pose proof (wf_numbers st Hwf) as Hn.
  rewrite Forall_lookup in Hn. by eapply Hn.
Qed.

Lemma find_inode_by_filename_root (fname : option string) (st st' : FS) :
  root_directory st' = root_directory st →
  find_inode_by_filename fname st' = find_inode_by_filename fname st.
Proof. unfold find_inode_by_filename. by intros ->. Qed.

(** X14.  [change_file_permissions] while the program runs after a
    fresh initialisation, on names that fit the name field.  For a name
    the directory index does not list it answers -1 and changes
    nothing.  For a listed name it answers 0 and stores the mode as
    given, whatever its value, with the change time, in inode slot 0;
    since every listed name resolves to that slot, every listed file
    then shows the new mode.  The snapshot is written from the updated
    tables unless its file cannot be opened, the CHANGE_PERMISSIONS
    entry with the octal digits of the mode sits in the journal slot at
    the old index, and the superblock and the directory index stay as
    they were. *)
Theorem change_file_permissions_outcomes (h : Host) (acts : list Action)
    (fname : string) (new_mode now : Z)
    (disk : option (Superblock * list Inode)) :
  in_scope acts = true →
  let st := reached h acts in
  let r := change_file_permissions fname new_mode now st disk in
  let st' := fst (fst r) in
  let disk' := snd (fst r) in
  (find_inode_by_filename (Some fname) st = -1 → r = (st, disk, -1))
  ∧ (find_inode_by_filename (Some fname) st ≠ -1 →
     snd r = 0
     ∧ mode (get_inode 0 st') = new_mode
     ∧ ctime (get_inode 0 st') = now
     ∧ (∀ g, find_inode_by_filename (Some g) st' ≠ -1 →
             mode (get_inode (find_inode_by_filename (Some g) st') st')
             = new_mode)
     ∧ (∀ n, 0 < n → get_inode n st' = get_inode n st)
     ∧ (SNAPSHOT_FILENAME ∉ denied (host st) →
        disk' = Some (superblock st', inode_table st'))
     ∧ (SNAPSHOT_FILENAME ∈ denied (host st) → disk' = disk)
     ∧ journal st' !! Z.to_nat (journal_index st)
       = Some (make_journal_entry CHANGE_PERMISSIONS fname
                 (Some (octal new_mode)) None now)
     ∧ superblock st' = superblock st
     ∧ root_directory st' = root_directory st).
Proof.
  intros Hscope st r st' disk'.
  assert (well_formed st) as Hwf
    by apply well_formed_reached.
  assert (inode_table_size (superblock st) = INODE_TABLE_SIZE) as Hsz
    by apply table_size_reached.
  subst r st' disk'. unfold change_file_permissions.
  split.
  - by intros ->.
  - intros Hfound.
    destruct (find_inode_by_filename_wf st (Some fname) Hwf) as [Hz|]; [|done].
    rewrite Hz. change (0 =? -1) with false. cbn [fst snd].
    set (st1 := update_inode 0 (inode_chmod new_mode now) st).
    set (st' := add_journal_entry _ _ _ _ _ st1).
    assert (get_inode 0 st' = inode_chmod new_mode now (get_inode 0 st)) as H0.
    { unfold get_inode. subst st'. rewrite add_journal_entry_inode_table.
      subst st1. apply get_inode_update_inode; [done|].
      rewrite (wf_table st Hwf). unfold INODE_TABLE_SIZE. lia. }
    assert (root_directory st' = root_directory st) as Hroot
      by (subst st'; by rewrite add_journal_entry_root_directory).
    assert (well_formed st') as Hwf'.
    { subst st' st1. apply well_formed_add_journal_entry.
      apply well_formed_update_inode; [|done].
      intros ino. apply inode_ok_chmod. }
    split_and!.
    + done.
    + by rewrite H0.
    + by rewrite H0.
    + intros g Hg.
      destruct (find_inode_by_filename_wf st' (Some g) Hwf') as [->|]; [|done].
      by rewrite H0.
    + intros n Hn. unfold get_inode. subst st'.
      rewrite add_journal_entry_inode_table. subst st1.
      apply get_inode_update_inode_ne; lia.
    + intros Hd. unfold save_permissions, save_file_system_state.
      rewrite decide_False by done. subst st'.
      rewrite add_journal_entry_superblock, add_journal_entry_inode_table.
      subst st1. simpl. rewrite Hsz.
      rewrite firstn_all2; [done|].
      rewrite length_alter, (wf_table st Hwf). lia.
    + intros Hd. unfold save_permissions, save_file_system_state.
      by rewrite decide_True.
    + subst st'. apply (add_journal_entry_slot _ _ _ _ _ st1); apply Hwf.
    + subst st'. by rewrite add_journal_entry_superblock.
    + done.
Qed.

Lemma change_file_permissions_outcomes_witness :
  let st := reached empty_host [ActCall (CallCreateFile "a" 0 1700000000)] in
  let r := change_file_permissions "a" 420 1700000001 st None in
  snd r = 0
  ∧ mode (get_inode 0 (fst (fst r))) = 420
  ∧ ctime (get_inode 0 (fst (fst r))) = 1700000001
  ∧ root_directory (fst (fst r)) = root_directory st.
Proof.
  intros st r.
  destruct (proj2 (change_file_permissions_outcomes empty_host
                     [ActCall (CallCreateFile "a" 0 1700000000)]
                     "a" 420 1700000001 None eq_refl))
    as (Hr & Hmode & Hctime & _ & _ & _ & _ & _ & _ & Hroot).
  - by vm_compute.
  - split_and!; [exact Hr|exact Hmode|exact Hctime|exact Hroot].
Defined.

(** ** Paths *)

Lemma length_append_slash (path : string) :
  String.length (path +:+ "/") = S (String.length path).
Proof. induction path as [|c path IH]; simpl; [done|]. by rewrite IH. Qed.

Lemma ends_with_slash_append (path : string) :
  ends_with_slash (path +:+ "/") = true.
Proof.
  unfold ends_with_slash. rewrite length_append_slash.
  replace (S (String.length path) - 1)%nat
    with (0 + String.length path)%nat by lia.
  by rewrite <- (append_correct2 path "/" 0).
Qed.

(** X15.  [ensure_trailing_slash] leaves the path as it is or adds one
    ["/"]; applying it twice is the same as applying it once; a
    non-empty path of fewer than 254 characters ends in ["/"]
    afterwards; an empty path and a path of 254 characters or more are
    left as they are, so a path that fits the 255-byte buffer still
    fits it afterwards. *)
Theorem ensure_trailing_slash_fits (path : string) :
  let path' := ensure_trailing_slash path in
  (path' = path ∨ path' = path +:+ "/")
  ∧ ensure_trailing_slash path' = path'
  ∧ ((0 < String.length path < 254)%nat → ends_with_slash path' = true)
  ∧ (ends_with_slash path = true → path' = path)
  ∧ (path = "" → path' = "")
  ∧ ((254 ≤ String.length path)%nat → path' = path)
  ∧ ((String.length path ≤ 254)%nat → (String.length path' ≤ 254)%nat).
Proof.
  intros path'. subst path'. unfold ensure_trailing_slash.
  change (MAX_FILENAME_LEN - 1) with 254.
  destruct (ends_with_slash path) eqn:Hs; simpl.
  - rewrite andb_false_r. rewrite Hs. rewrite andb_false_r.
    split_and!; try done. by left.
  - rewrite andb_true_r.
    destruct (0 <? String.length path)%nat eqn:Hpos; simpl.
    + apply Nat.ltb_lt in Hpos.
      destruct (Z.of_nat (String.length path) <? 254) eqn:Hlen.
      * apply Z.ltb_lt in Hlen.
        rewrite ends_with_slash_append, andb_false_r.
        split_and!; try done.
        -- by right.
        -- intros ->. simpl in Hpos. lia.
        -- lia.
        -- rewrite length_append_slash. lia.
      * rewrite Hlen. apply Z.ltb_ge in Hlen.
        split_and!; try done; [by left|by case_match|lia].
    + rewrite Hpos. apply Nat.ltb_ge in Hpos.
      split_and!; try done; [by left|lia].
Qed.

(** ** Editing and opening a file *)








(** ** The journal file read back *)




































(** ** One line of the journal, written and scanned *)






(** ** Creating a directory *)



(** ** Looking a name up *)




(** ** Modes set by [set_permissions] and read by [has_permission] *)

Lemma set_permissions_accepted (n p : Z) (st : FS) :
  0 ≤ n < INODE_TABLE_SIZE → table_shape st → 0 ≤ p ≤ 7 →
  set_permissions n p st = update_inode n (inode_set_mode p) st
  ∧ get_inode n (set_permissions n p st) = inode_set_mode p (get_inode n st).
Proof.
  intros Hn Hshape Hp. unfold set_permissions.
  rewrite (proj2 (inode_in_range_spec n)) by done.
  assert (invalid_permission_bits p = false) as ->.
  { apply not_true_is_false. intros Hbad.
    apply invalid_permission_bits_spec in Hbad; [lia|].
    unfold is_uint. lia. }
  split; [done|]. simpl. apply get_inode_update_inode; [lia|].
  rewrite Hshape. unfold INODE_TABLE_SIZE in *. lia.
Qed.

(** X22.  What an accepted [set_permissions] means to [has_permission].
    The value stored has only its three low bits, which
    [has_permission] reads as the rights of users who are neither the
    owner nor the group; [get_permissions] gives the value back.  So
    after the call a user without an ACL entry who is the owner or the
    group of the inode passes no check but the empty request, and any
    other such user passes exactly the requests that the value covers.
    ACL answers are not changed. *)
Theorem set_permissions_reaches_others_only (n p : Z) (st : FS) :
  0 ≤ n < INODE_TABLE_SIZE →
  table_shape st →
  0 ≤ p ≤ 7 →
  let st' := set_permissions n p st in
  let ino := get_inode n st in
  get_permissions n st' = p
  ∧ (∀ uid, get_acl_permissions n uid st' = get_acl_permissions n uid st)
  ∧ (∀ uid req,
       acl_absent ino uid → uid = owner_id ino ∨ uid = group_id ino →
       (has_permission n uid req st' = 1 ↔ req = 0))
  ∧ (∀ uid req,
       acl_absent ino uid → uid ≠ owner_id ino → uid ≠ group_id ino →
       (has_permission n uid req st' = 1 ↔ covers p req)).
Proof.
  intros Hn Hshape Hp st' ino.
  destruct (set_permissions_accepted n p st Hn Hshape Hp) as [_ Hino].
  fold st' in Hino. fold ino in Hino.
  pose proof (proj2 (inode_in_range_spec n) Hn) as Hrange.
  assert (∀ uid, get_acl_permissions n uid st' = get_acl_permissions n uid st)
    as Hacl.
  { intros uid. unfold get_acl_permissions. by rewrite Hino. }
  assert (Z.shiftr p 6 = 0 ∧ Z.shiftr p 3 = 0 ∧ Z.land p 7 = p)
    as (Hs6 & Hs3 & Hl7).
  { rewrite !Z.shiftr_div_pow2 by lia.
    change 7 with (Z.ones 3). rewrite Z.land_ones by lia.
    rewrite !Z.div_small by lia. rewrite Z.mod_small by lia. done. }
  assert (∀ uid req, acl_absent ino uid →
            has_permission n uid req st'
            = if Z.land (base_permissions (inode_set_mode p ino) uid) req =? req
              then 1 else 0) as Hhas.
  { intros uid req Habsent. unfold has_permission.
    rewrite Hrange, Hacl, (get_acl_permissions_absent n uid st) by done.
    cbn [negb]. by rewrite Hino, Z.lor_0_r. }
  split_and!.
  - unfold get_permissions. by rewrite Hrange, Hino.
  - done.
  - intros uid req Habsent Hclass. rewrite Hhas by done.
    assert (base_permissions (inode_set_mode p ino) uid = 0) as ->.
    { unfold base_permissions. cbn [mode owner_id group_id inode_set_mode].
      rewrite Hs6, Hs3. destruct Hclass as [-> | ->].
      - by rewrite Z.eqb_refl.
      - rewrite Z.eqb_refl. by case_match. }
    rewrite Z.land_0_l. destruct (Z.eqb_spec 0 req); split; intros; lia.
  - intros uid req Habsent Ho Hg. rewrite Hhas by done.
    assert (base_permissions (inode_set_mode p ino) uid = p) as ->.
    { unfold base_permissions. cbn [mode owner_id group_id inode_set_mode].
      rewrite (proj2 (Z.eqb_neq _ _) Ho), (proj2 (Z.eqb_neq _ _) Hg). done. }
    rewrite <- land_covers.
    destruct (Z.eqb_spec (Z.land p req) req); split; intros; (done || lia).
Qed.

Lemma set_permissions_reaches_others_only_witness :
  let st := init_file_system None empty_host in
  let st' := set_permissions 0 6 st in
  let ino := get_inode 0 st in
  get_permissions 0 st' = 6
  ∧ (∀ uid, get_acl_permissions 0 uid st' = get_acl_permissions 0 uid st)
  ∧ (∀ uid req,
       acl_absent ino uid → uid = owner_id ino ∨ uid = group_id ino →
       (has_permission 0 uid req st' = 1 ↔ req = 0))
  ∧ (∀ uid req,
       acl_absent ino uid → uid ≠ owner_id ino → uid ≠ group_id ino →
       (has_permission 0 uid req st' = 1 ↔ covers 6 req)).
Proof.
  intros st.
  apply (set_permissions_reaches_others_only 0 6 st).
  - unfold INODE_TABLE_SIZE. lia.
  - reflexivity.
  - lia.
Defined.

(** ** The free-block counter in every state of the program *)

Lemma allocate_block_full_iff (st : FS) :
  snd (allocate_block st) = -1
  ↔ count_free (free_block_bitmap (superblock st)) = 0.
Proof.
  unfold allocate_block.
  destruct (first_free_block _) as [i|] eqn:E; simpl.
  - pose proof (first_free_block_Some _ _ E) as (Hi & Hx & _).
    split; [lia|]. intros Hz.
    pose proof (count_free_insert _ i 0 1 Hi Hx) as Hc.
    unfold indicator in Hc. simpl in Hc.
    assert (0 ≤ count_free (<[i:=1]> (free_block_bitmap (superblock st))))
      by (unfold count_free; lia).
    lia.
  - split; [|done]. intros _. by apply first_free_block_None.
Qed.

(** X23.  While the program runs after a fresh initialisation, on names
    that fit the name field, the counter [free_blocks] is one below the
    number of bitmap words that are 0.  It therefore ranges over
    -1 .. 1023; [allocate_block] fails exactly when the counter reads
    -1, and still hands out a block when the counter reads 0; the
    blocks in use and the counter add up to 1023, not 1024. *)
Theorem free_blocks_reads_one_short (h : Host) (acts : list Action) :
  in_scope acts = true →
  let st := reached h acts in
  let bitmap := free_block_bitmap (superblock st) in
  free_blocks (superblock st) = count_free bitmap - 1
  ∧ -1 ≤ free_blocks (superblock st) ≤ NUM_BLOCKS - 1
  ∧ count_used bitmap + free_blocks (superblock st) = NUM_BLOCKS - 1
  ∧ (snd (allocate_block st) = -1 ↔ free_blocks (superblock st) = -1)
  ∧ (free_blocks (superblock st) = 0 →
     snd (allocate_block st) ≠ -1
     ∧ free_blocks (superblock (fst (allocate_block st))) = -1).
Proof.
  intros Hscope st bitmap.
  pose proof (counter_gap_reached h acts) as Hgap. fold st in Hgap.
  unfold counter_gap in Hgap. fold bitmap in Hgap.
  pose proof (wf_bitmap st (well_formed_reached h acts)) as Hlen.
  fold bitmap in Hlen.
  pose proof (count_free_used_total bitmap Hlen) as Htotal.
  pose proof (allocate_block_full_iff st) as Hfull. fold bitmap in Hfull.
  assert (0 ≤ count_free bitmap ∧ 0 ≤ count_used bitmap) as [Hf Hu]
    by (unfold count_free, count_used; lia).
  unfold NUM_BLOCKS in *.
  split_and!; try lia.
  intros Hzero. split; [lia|].
  unfold allocate_block.
  destruct (first_free_block _) as [i|] eqn:E; simpl; [lia|].
  apply first_free_block_None in E. fold bitmap in E. lia.
Qed.

Lemma free_blocks_reads_one_short_witness :
  let st := reached empty_host
              [ActCall CallAllocateBlock;
               ActCall (CallCreateFile "a" 0 1700000000);
               ActCall CallAllocateBlock] in
  free_blocks (superblock st)
  = count_free (free_block_bitmap (superblock st)) - 1
  ∧ count_used (free_block_bitmap (superblock st)) + free_blocks (superblock st)
    = NUM_BLOCKS - 1.
Proof.
  intros st.
  destruct (free_blocks_reads_one_short empty_host
              [ActCall CallAllocateBlock;
               ActCall (CallCreateFile "a" 0 1700000000);
               ActCall CallAllocateBlock] eq_refl)
    as (Hgap & _ & Htotal & _).
  split; [exact Hgap|exact Htotal].
Defined.
